(** * Auxiliary recording hooks of the explain stage

    A shallow embedding of [mpa/modules/hooks/auxiliary_hooks.py] (the
    recording hook base class and its three transforms) and of the hook
    driving part of [mpa/cls/explainer.py].

    - Python exceptions are an error monad ([Py.result]).
    - A torch tensor is a shape together with its contiguous row-major
      storage ([Torch.Tensor]).
    - The element type is a parameter ([Dtype]): the transforms are written
      once, as the Python code is, and run at two element types,
      IEEE-754 binary32 ([Binary32], torch.float32, built on the
      Standard Library's [SpecFloat]) and exact rationals ([Exact], the
      real-number reading of the same formulas).
    - Objects mutated in place (the hook, the module's table of forward
      hooks) live in an explicit store ([World]) and methods are state
      passing functions over it. *)

From Stdlib Require Import ZArith QArith Qcanon Qround List Bool Lia Lqa.
From Stdlib Require Import Floats.SpecFloat.
From stdpp Require Import base numbers option list.

(* ===================================================================== *)
(** ** Python exceptions *)
(* ===================================================================== *)

Module Py.

Inductive exn : Set :=
| ValueError | IndexError | AttributeError | TypeError
| RuntimeError | LinAlgError.

Inductive result (A : Type) : Type :=
| Ok (a : A)
| Raise (e : exn).
Arguments Ok {A} a.
Arguments Raise {A} e.

Definition bind {A B} (m : result A) (k : A → result B) : result B :=
  match m with
  | Ok a => k a
  | Raise e => Raise e
  end.

Definition is_ok {A} (m : result A) : bool :=
  match m with Ok _ => true | Raise _ => false end.

(** [l[i]] on a Python list: negative indices count from the end, an
    index out of range raises IndexError. *)
Definition getitem {A} (l : list A) (i : Z) : result A :=
  let n := Z.of_nat (length l) in
  let j := if (i <? 0)%Z then (i + n)%Z else i in
  if ((0 <=? j)%Z && (j <? n)%Z)%bool then
    match l !! Z.to_nat j with
    | Some a => Ok a
    | None => Raise IndexError
    end
  else Raise IndexError.

End Py.

Export Py (result, Ok, Raise).

#[global] Instance result_ret : MRet Py.result := @Py.Ok.
#[global] Instance result_bind : MBind Py.result :=
  fun A B k m => Py.bind m k.
#[global] Instance result_fmap : FMap Py.result :=
  fun A B f m => Py.bind m (fun a => Py.Ok (f a)).

(* ===================================================================== *)
(** ** Element types *)
(* ===================================================================== *)

(** The scalar operations the transforms use.  [f_of_Z] is the conversion
    of a Python int (the literal 255, an element count) to the element
    type, [f_eps] is the literal [1e-12] in the element type, and
    [f_to_uint8] is [.to(torch.uint8)] on one element. *)
Class Dtype (F : Type) : Type := {
  f_of_Z : Z → F;
  f_eps : F;
  f_add : F → F → F;
  f_sub : F → F → F;
  f_mul : F → F → F;
  f_div : F → F → F;
  f_max : F → F → F;
  f_min : F → F → F;
  f_to_uint8 : F → Z;
}.

(** *** torch.float32 *)

Module Binary32.

Definition prec : Z := 24.
Definition emax : Z := 128.

Definition t : Type := spec_float.

Definition of_Z (z : Z) : t := binary_normalize prec emax z 0 false.

(** The binary32 number nearest to [1e-12]: 9223372 * 2^-63
    (bit pattern 0x2B8CBCCC). *)
Definition eps : t := S754_finite false 9223372 (-63).

Definition add : t → t → t := SFadd prec emax.
Definition sub : t → t → t := SFsub prec emax.
Definition mul : t → t → t := SFmul prec emax.
Definition div : t → t → t := SFdiv prec emax.

(** torch.max / torch.min propagate NaN. *)
Definition max (a b : t) : t :=
  match SFcompare a b with
  | None => S754_nan
  | Some Lt => b
  | Some _ => a
  end.

Definition min (a b : t) : t :=
  match SFcompare a b with
  | None => S754_nan
  | Some Gt => b
  | Some _ => a
  end.

(** Truncation toward zero of [m * 2^e]. *)
Definition trunc (x : t) : Z :=
  match x with
  | S754_finite s m e =>
      let a := match e with
               | Z0 => Zpos m
               | Zpos p => Z.shiftl (Zpos m) (Zpos p)
               | Zneg p => Z.shiftr (Zpos m) (Zpos p)
               end in
      if s then Z.opp a else a
  | _ => 0%Z
  end.

(** The C conversion float -> uint8_t truncates toward zero; it is
    undefined outside the range of the target type.  Out-of-range values
    are reduced modulo 256 and NaN and infinities give 0 here; no
    statement below depends on that choice without saying so. *)
Definition to_uint8 (x : t) : Z := (trunc x mod 256)%Z.

Definition finite (x : t) : Prop :=
  match x with
  | S754_zero _ | S754_finite _ _ _ => True
  | _ => False
  end.

Definition dtype : Dtype t := {|
  f_of_Z := of_Z;
  f_eps := eps;
  f_add := add;
  f_sub := sub;
  f_mul := mul;
  f_div := div;
  f_max := max;
  f_min := min;
  f_to_uint8 := to_uint8;
|}.

End Binary32.

(** *** Exact rational arithmetic

    The formulas of the transforms read over the rationals, without
    rounding, overflow or NaN.  This is not the arithmetic the program
    runs in: a statement at this element type is a statement about the
    formulas, not about the float32 code. *)

Module Exact.

Definition t : Type := Qc.

Definition of_Z (z : Z) : t := Q2Qc (inject_Z z).

(** [1e-12], exactly. *)
Definition eps : t := Q2Qc (1 # 1000000000000).

Definition max (a b : t) : t :=
  match (a ?= b)%Qc with Lt => b | _ => a end.

Definition min (a b : t) : t :=
  match (a ?= b)%Qc with Gt => b | _ => a end.

Definition trunc (x : t) : Z := Z.quot (Qnum x) (Zpos (Qden x)).

Definition to_uint8 (x : t) : Z := (trunc x mod 256)%Z.

Definition dtype : Dtype t := {|
  f_of_Z := of_Z;
  f_eps := eps;
  f_add := Qcplus;
  f_sub := Qcminus;
  f_mul := Qcmult;
  f_div := Qcdiv;
  f_max := max;
  f_min := min;
  f_to_uint8 := to_uint8;
|}.

End Exact.

#[global] Existing Instance Binary32.dtype.
#[global] Existing Instance Exact.dtype.

(* ===================================================================== *)
(** ** Tensors and the torch operations the hooks call *)
(* ===================================================================== *)

Module Torch.

(** A contiguous tensor: its sizes and its elements in row-major order. *)
Record Tensor (A : Type) : Type := mk {
  shape : list nat;
  data : list A;
}.
Arguments mk {A} shape data.
Arguments shape {A} t.
Arguments data {A} t.

Definition numel (sh : list nat) : nat := foldr Nat.mul 1 sh.

(** The [i]-th block of [k] consecutive elements, and the first [n] of
    them. *)
Definition chunk {A} (k i : nat) (l : list A) : list A :=
  take k (drop (i * k) l).

Definition chunks {A} (n k : nat) (l : list A) : list (list A) :=
  (λ i, chunk k i l) <$> seq 0 n.

(** [bs, c, h, w = x.size()]: unpacking raises ValueError unless the
    tensor has exactly four dimensions. *)
Definition size4 {A} (t : Tensor A) : result (nat * nat * nat * nat) :=
  match shape t with
  | [bs; c; h; w] => Ok (bs, c, h, w)
  | _ => Raise Py.ValueError
  end.

(** [x.reshape(sh)] of a contiguous tensor. *)
Definition reshape {A} (t : Tensor A) (sh : list nat) : result (Tensor A) :=
  if numel sh =? length (data t) then Ok (mk sh (data t))
  else Raise Py.RuntimeError.

(** [len(t)]: the leading size; a 0-d array has no len(). *)
Definition len {A} (t : Tensor A) : result nat :=
  match shape t with
  | [] => Raise Py.TypeError
  | n :: _ => Ok n
  end.

(** [for s in t]: the slices along the leading dimension, in order. *)
Definition unbind {A} (t : Tensor A) : list (Tensor A) :=
  match shape t with
  | [] => []
  | n :: sh => (λ i, mk sh (chunk (numel sh) i (data t))) <$> seq 0 n
  end.

(** The rows of a 2-D tensor. *)
Definition rows2 {A} (t : Tensor A) : list (list A) :=
  match shape t with
  | [n; k] => chunks n k (data t)
  | _ => []
  end.

Definition map_t {A B} (f : A → B) (t : Tensor A) : Tensor B :=
  mk (shape t) (f <$> data t).

Section Ops.
Context {F : Type} {D : Dtype F}.

Definition zero : F := f_of_Z 0.

(** Sum and mean of a run of elements, accumulated left to right
    from 0.  torch adds in an order of its own, vectorised and dependent
    on sizes and threads; in the evaluated examples below every sum has
    at most two non-zero terms or is exact, so that the order does not
    matter there. *)
Definition sum (l : list F) : F := foldl f_add zero l.

Definition mean (l : list F) : F :=
  f_div (sum l) (f_of_Z (Z.of_nat (length l))).

Definition column (p : nat) (rows : list (list F)) : list F :=
  (λ r, default zero (r !! p)) <$> rows.

(** The [k] columns of a list of rows of width [k]. *)
Definition transpose (k : nat) (rows : list (list F)) : list (list F) :=
  (λ p, column p rows) <$> seq 0 k.

(** [torch.mean(x, dim=1)] for [x] of sizes (bs, c, h, w): the result
    has sizes (bs, h, w). *)
Definition mean_dim1 (bs c h w : nat) (x : Tensor F) : Tensor F :=
  mk [bs; h; w]
     (concat ((λ b, mean <$> transpose (h * w)
                      (chunks c (h * w) (chunk (c * (h * w)) b (data x))))
                <$> seq 0 bs)).

Definition reduce (op : F → F → F) (row : list F) : F :=
  match row with
  | [] => zero
  | x :: r => foldl op x r
  end.

(** [torch.max(t, -1)] and [torch.min(t, -1)] on a 2-D tensor (values
    only): reducing a dimension of size 0 raises IndexError. *)
Definition reduce_lastdim (op : F → F → F) (t : Tensor F)
  : result (Tensor F) :=
  match shape t with
  | [n; k] =>
      if k =? 0 then Raise Py.IndexError
      else Ok (mk [n] (reduce op <$> chunks n k (data t)))
  | _ => Raise Py.IndexError
  end.

Definition max_lastdim := reduce_lastdim f_max.
Definition min_lastdim := reduce_lastdim f_min.

(** [t op v[:, None]] for a 2-D [t] and a 1-D [v]: row [i] of [t] is
    combined with element [i] of [v]. *)
Definition broadcast_col (op : F → F → F) (t v : Tensor F) : Tensor F :=
  mk (shape t)
     (concat (zip_with (λ row m, (λ x, op x m) <$> row)
                (rows2 t) (data v))).

(** Elementwise operations on tensors of equal sizes, and with a
    Python number. *)
Definition pointwise (op : F → F → F) (a b : Tensor F) : Tensor F :=
  mk (shape a) (zip_with op (data a) (data b)).

Definition scalar_mul (k : F) (t : Tensor F) : Tensor F :=
  map_t (f_mul k) t.

Definition add_scalar (t : Tensor F) (k : F) : Tensor F :=
  map_t (λ x, f_add x k) t.

(** [t.to(torch.uint8)]. *)
Definition to_uint8 (t : Tensor F) : Tensor Z := map_t f_to_uint8 t.

(** [x.reshape((bs, c, k)).transpose(1, 2)]: sizes (bs, k, c). *)
Definition reshape_transpose12 (bs c k : nat) (x : Tensor F) : Tensor F :=
  mk [bs; k; c]
     (concat ((λ b, concat (transpose k
                              (chunks c k (chunk (c * k) b (data x)))))
                <$> seq 0 bs)).

(** [m.mean(1)] for [m] of sizes (bs, k, c): sizes (bs, c). *)
Definition mean_rows (bs k c : nat) (m : Tensor F) : Tensor F :=
  mk [bs; c]
     (concat ((λ b, mean <$> transpose c
                      (chunks k c (chunk (k * c) b (data m))))
                <$> seq 0 bs)).

(** [m - v[:, None, :]] for [m] of sizes (bs, k, c) and [v] of sizes
    (bs, c). *)
Definition sub_rowvec (bs k c : nat) (m v : Tensor F) : Tensor F :=
  mk [bs; k; c]
     (concat ((λ b, concat ((λ row, zip_with f_sub row (chunk c b (data v)))
                              <$> chunks k c (chunk (k * c) b (data m))))
                <$> seq 0 bs)).

(** [V[:, 0]] for [V] of sizes (bs, c, c'): sizes (bs, c'); index 0 is
    out of range when [c = 0]. *)
Definition select_dim1_0 (V : Tensor F) : result (Tensor F) :=
  match shape V with
  | [bs; c; c'] =>
      if c =? 0 then Raise Py.IndexError
      else Ok (mk [bs; c']
                  (concat ((λ b, chunk c' 0 (chunk (c * c') b (data V)))
                             <$> seq 0 bs)))
  | _ => Raise Py.IndexError
  end.

Definition dot (a b : list F) : F := sum (zip_with f_mul a b).

(** [(m @ v[:, :, None]).squeeze(-1)] for [m] of sizes (bs, k, c) and
    [v] of sizes (bs, c): sizes (bs, k). *)
Definition matvec (bs k c : nat) (m v : Tensor F) : Tensor F :=
  mk [bs; k]
     (concat ((λ b, (λ row, dot row (chunk c b (data v)))
                      <$> chunks k c (chunk (k * c) b (data m)))
                <$> seq 0 bs)).

(** [torch.nn.functional.adaptive_avg_pool2d(x, (1, 1))].  The Python
    wrapper raises ValueError unless the input has at least three
    dimensions.  For the output size (1, 1) the operator is
    [x.mean((-1, -2), keepdim=True)]: whatever the number of leading
    dimensions, every plane of the last two dimensions is replaced by its
    mean, which is 0 / 0 for an empty plane. *)
Definition adaptive_avg_pool2d_1x1 (x : Tensor F) : result (Tensor F) :=
  let sh := shape x in
  if length sh <? 3 then Raise Py.ValueError
  else
    let lead := take (length sh - 2) sh in
    let plane := numel (drop (length sh - 2) sh) in
    Ok (mk (lead ++ [1; 1]) (mean <$> chunks (numel lead) plane (data x))).

End Ops.

(** [torch.cat(ts, 1)]: the list must not be empty, every tensor needs a
    dimension 1, and all sizes except that of dimension 1 must agree. *)
Definition cat_compatible (b : nat) (rest : list nat) (sh : list nat) : bool :=
  match sh with
  | b' :: _ :: rest' => (b' =? b) && bool_decide (rest' = rest)
  | _ => false
  end.

Definition dim1 (sh : list nat) : nat :=
  match sh with
  | _ :: c :: _ => c
  | _ => 0
  end.

Definition cat1 {A} (ts : list (Tensor A)) : result (Tensor A) :=
  match ts with
  | [] => Raise Py.RuntimeError
  | t0 :: _ =>
      match shape t0 with
      | b :: _ :: rest =>
          if forallb (λ t, cat_compatible b rest (shape t)) ts then
            Ok (mk (b :: sum_list (dim1 ∘ shape <$> ts) :: rest)
                  (concat ((λ i, concat ((λ t, chunk (dim1 (shape t) * numel rest)
                                                i (data t)) <$> ts))
                             <$> seq 0 b)))
          else Raise Py.RuntimeError
      | _ => Raise Py.IndexError
      end
  end.

End Torch.

Export Torch (Tensor).

(* ===================================================================== *)
(** ** mpa/modules/hooks/auxiliary_hooks.py *)
(* ===================================================================== *)

(** What the observed module hands to a forward hook: one tensor, or a
    Python list of tensors (one per level of a feature pyramid). *)
Inductive Output (F : Type) : Type :=
| Single (t : Tensor F)
| Sequence (l : list (Tensor F)).
Arguments Single {F} t.
Arguments Sequence {F} l.

(** A numpy array held as a record: a byte map or a float array. *)
Inductive ndarray (F : Type) : Type :=
| U8 (t : Tensor Z)
| Float (t : Tensor F).
Arguments U8 {F} t.
Arguments Float {F} t.

Inductive HookClass : Set :=
| EigenCamHook
| SaliencyMapHook
| FeatureVectorHook.

Module Hooks.
Import Torch.

Section Transforms.
Context {F : Type} {D : Dtype F}.

(** [torch.linalg.svd(m, full_matrices=True)] is not part of the
    program: the batched decomposition is a parameter, giving for
    [m] of sizes (bs, k, c) the third component of the triple (sizes
    (bs, c, c), its row 0 the principal axis), or raising. *)
Variable linalg_svd_Vh : Tensor F → result (Tensor F).

(** Lines 63-72 of [EigenCamHook.func] and lines 108-117 of
    [SaliencyMapHook.func] are the same statements: per-row maximum
    and minimum of the (bs, h*w) map, [255 * (map - min) / (max - min
    + 1e-12)], reshape to (bs, h, w), conversion to uint8. *)
Definition normalize_to_uint8 (bs h w : nat) (saliency_map : Tensor F)
  : result (Tensor Z) :=
  max_values ← max_lastdim saliency_map;
  min_values ← min_lastdim saliency_map;
  let saliency_map :=
    broadcast_col f_div
      (scalar_mul (f_of_Z 255)
         (broadcast_col f_sub saliency_map min_values))
      (add_scalar (pointwise f_sub max_values min_values) f_eps) in
  saliency_map ← reshape saliency_map [bs; h; w];
  Ok (to_uint8 saliency_map).

(** What those statements compute from one element [x] of a row with
    minimum [lo] and maximum [hi], and from one row of the (bs, h*w)
    map. *)
Definition normalize_pixel (lo hi x : F) : Z :=
  f_to_uint8
    (f_div (f_mul (f_of_Z 255) (f_sub x lo))
           (f_add (f_sub hi lo) f_eps)).

Definition normalize_row (row : list F) : list Z :=
  normalize_pixel (reduce f_min row) (reduce f_max row) <$> row.

(** [EigenCamHook.func(x_)].  [x_.type(torch.float32)] is the identity
    at the working element type; a list has no [type] attribute. *)
Definition EigenCamHook_func (x_ : Output F) : result (Tensor Z) :=
  x ← match x_ with
      | Single t => Ok t
      | Sequence _ => Raise Py.AttributeError
      end;
  '(bs, c, h, w) ← size4 x;
  let reshaped_fmap := reshape_transpose12 bs c (h * w) x in
  let reshaped_fmap :=
    sub_rowvec bs (h * w) c reshaped_fmap
      (mean_rows bs (h * w) c reshaped_fmap) in
  V ← linalg_svd_Vh reshaped_fmap;
  V0 ← select_dim1_0 V;
  let saliency_map := matvec bs (h * w) c reshaped_fmap V0 in
  normalize_to_uint8 bs h w saliency_map.

(** [SaliencyMapHook.func(feature_map, _fpn_idx=0)]. *)
Definition SaliencyMapHook_func (feature_map : Output F) (_fpn_idx : Z)
  : result (Tensor Z) :=
  feature_map ← match feature_map with
                | Sequence l => Py.getitem l _fpn_idx
                | Single t => Ok t
                end;
  '(bs, c, h, w) ← size4 feature_map;
  let saliency_map := mean_dim1 bs c h w feature_map in
  saliency_map ← reshape saliency_map [bs; h * w];
  normalize_to_uint8 bs h w saliency_map.

(** [FeatureVectorHook.func(feature_map)]. *)
Definition FeatureVectorHook_func (feature_map : Output F)
  : result (Tensor F) :=
  match feature_map with
  | Sequence l =>
      feature_vector ← mapM adaptive_avg_pool2d_1x1 l;
      cat1 feature_vector
  | Single t => adaptive_avg_pool2d_1x1 t
  end.

(** *** BaseAuxiliaryHook *)

(** The attributes of a hook object.  [_module] is not a field: there is
    one observed module, the one of the world below.  [cls] is the class
    of the object, which selects [func]. *)
Record Hook : Type := mkHook {
  cls : HookClass;
  _handle : option nat;
  _records : list (ndarray F);
  _fpn_idx : Z;
}.

(** [__init__(self, module, _fpn_idx=0)]. *)
Definition init (k : HookClass) (fpn_idx : Z) : Hook :=
  {| cls := k; _handle := None; _records := []; _fpn_idx := fpn_idx |}.

(** [self.func(output)]: the class's static method, called with the
    intercepted output as its only argument, so that the second
    parameter of [SaliencyMapHook.func] takes its default, 0. *)
Definition func (self : Hook) (output : Output F) : result (ndarray F) :=
  match cls self with
  | EigenCamHook => U8 <$> EigenCamHook_func output
  | SaliencyMapHook => U8 <$> SaliencyMapHook_func output 0
  | FeatureVectorHook => Float <$> FeatureVectorHook_func output
  end.

Definition nd_len (a : ndarray F) : result nat :=
  match a with
  | U8 t => len t
  | Float t => len t
  end.

Definition nd_iter (a : ndarray F) : list (ndarray F) :=
  match a with
  | U8 t => U8 <$> unbind t
  | Float t => Float <$> unbind t
  end.

Definition set_records (self : Hook) (r : list (ndarray F)) : Hook :=
  {| cls := cls self; _handle := _handle self; _records := r;
     _fpn_idx := _fpn_idx self |}.

Definition set_handle (self : Hook) (h : option nat) : Hook :=
  {| cls := cls self; _handle := h; _records := _records self;
     _fpn_idx := _fpn_idx self |}.

(** [_recording_forward(self, _, input, output)];
    [.detach().cpu().numpy()] keeps sizes and elements. *)
Definition _recording_forward (self : Hook) (output : Output F)
  : result Hook :=
  tensor ← func self output;
  n ← nd_len tensor;
  if 1 <? n then
    Ok (set_records self (_records self ++ nd_iter tensor))
  else
    Ok (set_records self (_records self ++ [tensor])).

End Transforms.

Arguments Hook F : clear implicits.

End Hooks.

(* ===================================================================== *)
(** ** The observed module, its forward hooks, and the explain loop *)
(* ===================================================================== *)

Module Explainer.
Import Torch Hooks.

Section World.
Context {F : Type} {D : Dtype F}.
Variable linalg_svd_Vh : Tensor F → result (Tensor F).

(** The observed stage (the backbone): its forward computation on the
    batches of type [X]. *)
Context {X : Type}.
Variable forward : X → Output F.

(** The objects that are mutated in place.  [_forward_hooks] is the
    observed module's ordered table from handle ids to the bound
    methods [hook._recording_forward], each given by the reference of
    its hook; [next_id] is torch's global counter of handle ids;
    [heap] holds the hook objects, a reference being a position. *)
Record World : Type := mkWorld {
  _forward_hooks : list (nat * nat);
  next_id : nat;
  heap : list (Hook F);
}.

(** Handle ids are handed out increasing: those in the table are below
    the counter. *)
Definition ids_fresh (w : World) : Prop :=
  Forall (λ e, e.1 < next_id w) (_forward_hooks w).

Definition empty_world : World :=
  {| _forward_hooks := []; next_id := 0; heap := [] |}.

(** A computation that reads and updates the world and may raise; the
    world at the point of a raise is kept. *)
Definition M (A : Type) : Type := World → World * result A.

Definition retM {A} (a : A) : M A := λ w, (w, Ok a).

Definition raiseM {A} (e : Py.exn) : M A := λ w, (w, Raise e).

Definition bindM {A B} (m : M A) (k : A → M B) : M B :=
  λ w, match m w with
       | (w', Ok a) => k a w'
       | (w', Raise e) => (w', Raise e)
       end.

(** Attribute access through a reference. *)
Definition get (self : nat) : M (Hook F) :=
  λ w, match heap w !! self with
       | Some h => (w, Ok h)
       | None => (w, Raise Py.RuntimeError)
       end.

Definition put (self : nat) (h : Hook F) : M unit :=
  λ w, ({| _forward_hooks := _forward_hooks w; next_id := next_id w;
           heap := <[self := h]> (heap w) |}, Ok ()).

(** Object creation: [cls(module, _fpn_idx)]. *)
Definition new (k : HookClass) (fpn_idx : Z) : M nat :=
  λ w, ({| _forward_hooks := _forward_hooks w; next_id := next_id w;
           heap := heap w ++ [init k fpn_idx] |}, Ok (length (heap w))).

(** [module.register_forward_hook(hook)]: a handle with a fresh id, the
    hook stored under that id at the end of the table. *)
Definition register_forward_hook (hook : nat) : M nat :=
  λ w, ({| _forward_hooks := _forward_hooks w ++ [(next_id w, hook)];
           next_id := S (next_id w); heap := heap w |}, Ok (next_id w)).

(** [handle.remove()]: deletes the entry of that id if there is one. *)
Definition handle_remove (id : nat) : M unit :=
  λ w, ({| _forward_hooks :=
             filter (λ e, e.1 ≠ id) (_forward_hooks w);
           next_id := next_id w; heap := heap w |}, Ok ()).

(** [__enter__(self)]. *)
Definition __enter__ (self : nat) : M nat :=
  bindM (register_forward_hook self) (λ handle,
  bindM (get self) (λ h,
  bindM (put self (set_handle h (Some handle))) (λ _,
  retM self))).

(** [__exit__(self, exc_type, exc_value, traceback)]: returns None. *)
Definition __exit__ (self : nat) : M unit :=
  bindM (get self) (λ h,
  match _handle h with
  | Some handle => handle_remove handle
  | None => raiseM Py.AttributeError
  end).

(** [with mgr as v: body]: [__exit__] is called when the body returns
    and when it raises; as it returns None a raise of the body goes
    on after it. *)
Definition with_ {A} (mgr : nat) (body : nat → M A) : M A :=
  λ w, match __enter__ mgr w with
       | (w1, Raise e) => (w1, Raise e)
       | (w1, Ok v) =>
           let '(w2, r) := body v w1 in
           match __exit__ mgr w2 with
           | (w3, Raise e) => (w3, Raise e)
           | (w3, Ok _) => (w3, r)
           end
       end.

(** The forward hooks of one call, in table order: each is called with
    the output; all return None, so the output is passed on as it is. *)
Fixpoint run_hooks (hooks : list nat) (output : Output F) : M unit :=
  match hooks with
  | [] => retM ()
  | self :: rest =>
      bindM (get self) (λ h,
      match _recording_forward linalg_svd_Vh h output with
      | Ok h' => bindM (put self h') (λ _, run_hooks rest output)
      | Raise e => raiseM e
      end)
  end.

(** [module(x)]: forward, then the registered forward hooks. *)
Definition module_call (x : X) : M (Output F) :=
  λ w, let result := forward x in
       bindM (run_hooks ((_forward_hooks w).*2) result)
             (λ _, retM result) w.

(** [for data in data_loader: _ = model(data)]. *)
Fixpoint for_each (data_loader : list X) : M unit :=
  match data_loader with
  | [] => retM ()
  | data :: rest =>
      bindM (module_call data) (λ _, for_each rest)
  end.

Definition records (self : nat) : M (list (ndarray F)) :=
  bindM (get self) (λ h, retM (_records h)).

(** The usage pattern of the class docstrings, with a loop over the
    batches: [with Cls(module, idx) as hook: ...; hook.records]. *)
Definition record_with (k : HookClass) (fpn_idx : Z) (data_loader : list X)
  : M (list (ndarray F)) :=
  bindM (new k fpn_idx) (λ hook,
  bindM (with_ hook (λ hook, for_each data_loader)) (λ _,
  records hook)).

(** mpa/cls/explainer.py, [ClsExplainer._explain], lines 82-95. *)
Definition _explain (data_loader : list X)
  : M (list (ndarray F) * list (ndarray F)) :=
  bindM (new FeatureVectorHook 0) (λ fhook,
  with_ fhook (λ fhook,
    bindM (new EigenCamHook 0) (λ shook,
    with_ shook (λ shook,
      bindM (for_each data_loader) (λ _,
      bindM (records fhook) (λ feature_vectors,
      bindM (records shook) (λ saliency_maps,
      retM (feature_vectors, saliency_maps)))))))).

End World.

Arguments World F : clear implicits.
Arguments M F A : clear implicits.

End Explainer.

(* ===================================================================== *)
(** ** Concrete activations *)
(* ===================================================================== *)

Module Inputs.
Import Torch.

(** The 1x2x2x2 activation with channel 0 all 1 and channel 1 all 3. *)
Definition two_flat_channels {F : Type} {D : Dtype F} : Tensor F :=
  mk [1; 2; 2; 2] (f_of_Z <$> [1; 1; 1; 1; 3; 3; 3; 3]%Z).

(** One example, one channel, a 1x2 plane: the values 0 and 2^-40. *)
Definition narrow_range32 : Tensor Binary32.t :=
  mk [1; 1; 1; 2] [Binary32.of_Z 0; S754_finite false 8388608 (-63)].

Definition narrow_range : Tensor Qc :=
  mk [1; 1; 1; 2] [Exact.of_Z 0; Q2Qc (1 # 1099511627776)].

(** The values 0 and 8421505 * 2^-23 = 1.00392162799835205078125. *)
Definition unit_range32 : Tensor Binary32.t :=
  mk [1; 1; 1; 2] [Binary32.of_Z 0; S754_finite false 8421505 (-23)].

(** The values 0 and 1. *)
Definition zero_one {F : Type} {D : Dtype F} : Tensor F :=
  mk [1; 1; 1; 2] (f_of_Z <$> [0; 1]%Z).

(** A pyramid of three one-channel levels with planes 1x3, 1x2 and
    1x1. *)
Definition pyramid {F : Type} {D : Dtype F} : list (Tensor F) :=
  [ mk [1; 1; 1; 3] (f_of_Z <$> [0; 1; 5]%Z);
    mk [1; 1; 1; 2] (f_of_Z <$> [4; 0]%Z);
    mk [1; 1; 1; 1] (f_of_Z <$> [7]%Z) ].

(** The constant 2x3x2x2 activation with value 2.5 in binary32. *)
Definition constant32 : Tensor Binary32.t :=
  mk [2; 3; 2; 2] (replicate 24 (S754_finite false 10485760 (-22))).

(** A batch of two examples with two channels and a 1x3 plane. *)
Definition batch_of_two {F : Type} {D : Dtype F} : Tensor F :=
  mk [2; 2; 1; 3] (f_of_Z <$> [1; 2; 3; 3; 4; 11; 0; 0; 0; 5; 6; 10]%Z).

(** An empty batch of 1x1x1 activations. *)
Definition empty_batch {F : Type} : Tensor F := mk [0; 1; 1; 1] [].

(** A decomposition for one-channel activations: the 1x1 factor of
    every example is [[1]]. *)
Definition svd_one_channel {F : Type} {D : Dtype F} (m : Tensor F)
  : result (Tensor F) :=
  match shape m with
  | [bs; _; 1] => Ok (mk [bs; 1; 1] (replicate bs (f_of_Z 1)))
  | _ => Raise Py.LinAlgError
  end.

(** The same with the other sign of the principal axis: [[-1]]. *)
Definition svd_one_channel_neg {F : Type} {D : Dtype F} (m : Tensor F)
  : result (Tensor F) :=
  match shape m with
  | [bs; _; 1] => Ok (mk [bs; 1; 1] (replicate bs (f_of_Z (-1))))
  | _ => Raise Py.LinAlgError
  end.

(** The negation of [zero_one] in binary32: the values -0 and -1. *)
Definition neg_zero_one32 : Tensor Binary32.t :=
  mk [1; 1; 1; 2] [S754_zero true; Binary32.of_Z (-1)].

(** One example, one channel, a 1x2 plane holding NaN and 1. *)
Definition nan_one32 : Tensor Binary32.t :=
  mk [1; 1; 1; 2] [S754_nan; Binary32.of_Z 1].

(** One example, one channel, a 1x3 plane: the values 0 and the binary32
    numbers nearest to 1e36 and 2e36. *)
Definition wide_range32 : Tensor Binary32.t :=
  mk [1; 1; 1; 3] (Binary32.of_Z <$> [0; 10 ^ 36; 2 * 10 ^ 36]%Z).


(** One example, one channel, a 1x2 plane holding +infinity and 1. *)
Definition inf_one32 : Tensor Binary32.t :=
  mk [1; 1; 1; 2] [S754_infinity false; Binary32.of_Z 1].

(** A decomposition for one-channel binary32 activations that fixes the
    sign of the axis by the first entry of the matrix: [[1]] when its
    sign bit is clear, [[-1]] when it is set. *)
Definition svd_one_channel_signed (m : Tensor Binary32.t)
  : result (Tensor Binary32.t) :=
  match shape m with
  | [bs; _; 1] =>
      let negative := match data m with
                      | S754_finite true _ _ :: _ => true
                      | S754_zero true :: _ => true
                      | S754_infinity true :: _ => true
                      | _ => false
                      end in
      Ok (mk [bs; 1; 1]
            (replicate bs (Binary32.of_Z (if negative then -1 else 1))))
  | _ => Raise Py.LinAlgError
  end.

(** A decomposition that always fails. *)
Definition svd_fails {F : Type} (m : Tensor F) : result (Tensor F) :=
  Raise Py.LinAlgError.

End Inputs.

(* ===================================================================== *)
(** ** Vocabulary of the statements *)
(* ===================================================================== *)

(** The arithmetic facts behind the flat-activation case: on the values
    [ok] of the element type, a value compared with itself is returned by
    max and min, [v - v] is zero, [255 * 0] is zero, [0 + 1e-12] is
    [1e-12], [0 / 1e-12] is zero, and zero converts to the byte 0. *)
Class FlatLaws {F : Type} (D : Dtype F) (ok : F → Prop) : Prop := {
  max_same v : ok v → f_max v v = v;
  min_same v : ok v → f_min v v = v;
  sub_same v : ok v → f_sub v v = f_of_Z 0;
  mul_255_zero : f_mul (f_of_Z 255) (f_of_Z 0) = f_of_Z 0;
  zero_add_eps : f_add (f_of_Z 0) f_eps = f_eps;
  zero_div_eps : f_div (f_of_Z 0) f_eps = f_of_Z 0;
  zero_to_uint8 : f_to_uint8 (f_of_Z 0) = 0%Z;
}.

(** A byte map whose smallest value is 0 and whose largest value is
    [top], both attained. *)
Definition byte_range (map : list Z) (top : Z) : Prop :=
  0%Z ∈ map ∧ top ∈ map ∧ ∀ p, p ∈ map → (0 ≤ p ≤ top)%Z.

(** Example [i] of a batched array, [a[i]]. *)
Definition nd_slice {F : Type} (i : nat) (a : ndarray F) : ndarray F :=
  match a with
  | U8 t => U8 (Torch.mk (tail (Torch.shape t))
                  (Torch.chunk (Torch.numel (tail (Torch.shape t))) i
                     (Torch.data t)))
  | Float t => Float (Torch.mk (tail (Torch.shape t))
                        (Torch.chunk (Torch.numel (tail (Torch.shape t))) i
                           (Torch.data t)))
  end.

(** The records one call adds for a result [a] of leading size [B ≥ 1]:
    the array itself when [B = 1], its examples in order otherwise. *)
Definition records_of_call {F : Type} (B : nat) (a : ndarray F)
  : list (ndarray F) :=
  if decide (B = 1) then [a] else (λ i, nd_slice i a) <$> seq 0 B.

(** What running forward hooks leaves alone: the table of forward hooks,
    the id counter, every hook object outside [hooks], and the class and
    handle of every hook object. *)
Definition preserved {F : Type} (hooks : list nat)
    (w w' : Explainer.World F) : Prop :=
  Explainer._forward_hooks w' = Explainer._forward_hooks w
  ∧ Explainer.next_id w' = Explainer.next_id w
  ∧ (∀ r, r ∉ hooks → Explainer.heap w' !! r = Explainer.heap w !! r)
  ∧ (∀ r h, Explainer.heap w !! r = Some h →
            ∃ h', Explainer.heap w' !! r = Some h'
                  ∧ Hooks._handle h' = Hooks._handle h
                  ∧ Hooks.cls h' = Hooks.cls h).

(** The byte that the normalisation gives the pixel [x] of a row with
    minimum [lo] and maximum [hi] once every value of the row is negated:
    [255 * (hi - x) / (hi - lo + 1e-12)], the mirror image of
    [normalize_pixel]. *)
Definition mirror_pixel {F : Type} {D : Dtype F} (lo hi x : F) : Z :=
  f_to_uint8
    (f_div (f_mul (f_of_Z 255) (f_sub hi x))
           (f_add (f_sub hi lo) f_eps)).

Definition mirror_row {F : Type} {D : Dtype F} (row : list F) : list Z :=
  mirror_pixel (Torch.reduce f_min row) (Torch.reduce f_max row) <$> row.

(** Lines 59-60 of [EigenCamHook.func]: the reshaped activation minus
    its mean over the positions, the matrix handed to the decomposition;
    and line 62, its projections on the rows [V0] selected from the
    returned factor. *)
Definition centered_fmap {F : Type} {D : Dtype F} (bs c k : nat)
    (x : Tensor F) : Tensor F :=
  let reshaped_fmap := Torch.reshape_transpose12 bs c k x in
  Torch.sub_rowvec bs k c reshaped_fmap (Torch.mean_rows bs k c reshaped_fmap).

Definition projections {F : Type} {D : Dtype F} (bs c k : nat)
    (x V0 : Tensor F) : Tensor F :=
  Torch.matvec bs k c (centered_fmap bs c k x) V0.

(** [-x] on a binary32 tensor: the sign of every element is flipped. *)
Definition negate (x : Tensor Binary32.t) : Tensor Binary32.t :=
  Torch.map_t SFopp x.

(** Two binary32 values that are the same value: equal, or both zero
    with whatever signs. *)
Definition is_zero (x : Binary32.t) : bool :=
  match x with S754_zero _ => true | _ => false end.

Definition same_value (a b : Binary32.t) : Prop :=
  a = b ∨ (is_zero a = true ∧ is_zero b = true).

(** [a'] is the negation of [a], as a value. *)
Definition negated (a' a : Binary32.t) : Prop := same_value a' (SFopp a).

(** The batch of one that holds example [b] of [x]: [x[b:b+1]]. *)
Definition example_of {A : Type} (b : nat) (x : Tensor A) : Tensor A :=
  Torch.mk (1 :: tail (Torch.shape x))
    (Torch.chunk (Torch.numel (tail (Torch.shape x))) b (Torch.data x)).

(** The sizes of a record. *)
Definition nd_shape {F : Type} (a : ndarray F) : list nat :=
  match a with
  | U8 t => Torch.shape t
  | Float t => Torch.shape t
  end.

(* ===================================================================== *)
(** ** mpa/cls/explainer.py: the black-box loop *)
(* ===================================================================== *)

Module Blackbox.

Section Loop.
Context {X R : Type}.

(** [explainer = build_explainer(model)]: the explainer is built outside
    the program; calling it on a batch gives a result or raises. *)
Variable explainer : X → result R.

(** Lines 124-130 of [ClsExplainer._explain_blackbox]:
    [saliency_maps = []], then for every batch
    [result = explainer(data); saliency_maps.append(result)]. *)
Fixpoint loop (data_loader : list X) (saliency_maps : list R)
  : result (list R) :=
  match data_loader with
  | [] => Ok saliency_maps
  | data :: rest =>
      result ← explainer data;
      loop rest (saliency_maps ++ [result])
  end.

(** Lines 132-135: [outputs = dict(saliency_maps=saliency_maps)]. *)
Definition _explain_blackbox (data_loader : list X) : result (list R) :=
  loop data_loader [].

End Loop.

End Blackbox.

(* ===================================================================== *)
(** ** Further concrete activations *)
(* ===================================================================== *)

Module Cases.
Import Torch.

(** Two examples, one channel, a 1x2 plane. *)
Definition one_channel_pair {F : Type} {D : Dtype F} : Tensor F :=
  mk [2; 1; 1; 2] (f_of_Z <$> [0; 1; 3; 1]%Z).

(** Three examples, two channels, a 1x2 plane. *)
Definition three_examples {F : Type} {D : Dtype F} : Tensor F :=
  mk [3; 2; 1; 2] (f_of_Z <$> [1; 2; 3; 6; 0; 0; 4; 8; 5; 1; 7; 1]%Z).

(** A 3-D tensor. *)
Definition rank3 {F : Type} {D : Dtype F} : Tensor F :=
  mk [1; 1; 2] (f_of_Z <$> [0; 1]%Z).

(** A 4-D tensor with empty planes. *)
Definition empty_planes {F : Type} : Tensor F := mk [2; 1; 0; 3] [].

End Cases.

(* ===================================================================== *)
(** ** Blocks of a row-major storage *)
(* ===================================================================== *)

Section Chunks.
Context {A : Type}.
Implicit Types (l : list A) (ls : list (list A)).
Import Torch.

Lemma chunk_0 k l : chunk k 0 l = take k l.
Proof. reflexivity. Qed.

Lemma chunk_S_app k i l l' :
  length l = k → chunk k (S i) (l ++ l') = chunk k i l'.
Proof.
  intros Hk. unfold chunk.
  replace (S i * k) with (length l + i * k) by lia.
  by rewrite drop_app_add.
Qed.

Lemma chunk_concat k ls i l :
  Forall (λ r, length r = k) ls → ls !! i = Some l →
  chunk k i (concat ls) = l.
Proof.
  intros Hall. revert i. induction Hall as [|r ls Hr _ IH]; intros i Hi.
  - by rewrite lookup_nil in Hi.
  - destruct i as [|i]; simpl in *.
    + injection Hi as ->. rewrite chunk_0. by apply take_app_length'.
    + rewrite chunk_S_app by done. by apply IH.
Qed.

Lemma length_concat_uniform k ls :
  Forall (λ r, length r = k) ls → length (concat ls) = length ls * k.
Proof.
  induction 1 as [|r ls Hr _ IH]; simpl; [done|].
  rewrite length_app, IH, Hr. lia.
Qed.

Lemma length_chunk k i l :
  S i * k ≤ length l → length (chunk k i l) = k.
Proof.
  intros H. unfold chunk. rewrite length_take, length_drop. lia.
Qed.

Lemma length_chunks n k l : length (chunks n k l) = n.
Proof. unfold chunks. by rewrite length_fmap, length_seq. Qed.

Lemma lookup_chunks n k l i :
  i < n → chunks n k l !! i = Some (chunk k i l).
Proof.
  intros Hi. unfold chunks. rewrite list_lookup_fmap.
  by rewrite lookup_seq_lt.
Qed.

Lemma chunks_uniform n k l :
  n * k ≤ length l → Forall (λ r, length r = k) (chunks n k l).
Proof.
  intros H. unfold chunks. apply Forall_fmap, Forall_forall.
  intros i [_ Hi]%elem_of_seq. simpl. apply length_chunk. nia.
Qed.

Lemma chunks_concat n k ls :
  length ls = n → Forall (λ r, length r = k) ls →
  chunks n k (concat ls) = ls.
Proof.
  intros Hn Hall. apply list_eq. intros i.
  destruct (decide (i < n)) as [Hi|Hi].
  - rewrite lookup_chunks by done.
    destruct (lookup_lt_is_Some_2 ls i) as [r Hr]; [lia|].
    rewrite Hr. f_equal. by apply chunk_concat.
  - rewrite !lookup_ge_None_2; [done|lia|rewrite length_chunks; lia].
Qed.


End Chunks.

(* ===================================================================== *)
(** ** What the transforms compute, example by example *)
(* ===================================================================== *)

Lemma fmap_concat {A B} (f : A → B) (ls : list (list A)) :
  f <$> concat ls = concat ((fmap f : list A → list B) <$> ls).
Proof.
  induction ls as [|l ls IH]; csimpl; [done|].
  by rewrite fmap_app, IH.
Qed.

Lemma zip_with_fmap_same {A B C} (f : A → B → C) (g : A → B) (l : list A) :
  zip_with f l (g <$> l) = (λ x, f x (g x)) <$> l.
Proof. induction l as [|x l IH]; csimpl; [done|]. by rewrite IH. Qed.

Lemma zip_with_fmap_both {A B C D} (f : B → C → D) (g : A → B) (h : A → C)
    (l : list A) :
  zip_with f (g <$> l) (h <$> l) = (λ x, f (g x) (h x)) <$> l.
Proof. induction l as [|x l IH]; csimpl; [done|]. by rewrite IH. Qed.

Lemma result_bind_Ok {A B} (a : A) (k : A → result B) :
  (Ok a ≫= k) = k a.
Proof. reflexivity. Qed.

Section TransformSpecs.
Context {F : Type} {D : Dtype F}.
Import Torch Hooks.

Lemma length_normalize_row (row : list F) :
  length (normalize_row row) = length row.
Proof. unfold normalize_row. by rewrite length_fmap. Qed.

(** The normalisation acts on every row of the (bs, h*w) map
    separately. *)
Lemma normalize_to_uint8_rows bs h w (sm : Tensor F) :
  shape sm = [bs; h * w] → length (data sm) = bs * (h * w) → 0 < h * w →
  normalize_to_uint8 bs h w sm
  = Ok (mk [bs; h; w]
          (concat (normalize_row <$> chunks bs (h * w) (data sm)))).
Proof.
  intros Hsh Hlen Hk.
  unfold normalize_to_uint8, max_lastdim, min_lastdim, reduce_lastdim.
  rewrite Hsh.
  destruct (h * w =? 0) eqn:E; [apply Nat.eqb_eq in E; lia|].
  rewrite !result_bind_Ok.
  unfold broadcast_col, scalar_mul, add_scalar, pointwise, map_t, rows2.
  cbn [shape data]. rewrite Hsh.
  set (rows := chunks bs (h * w) (data sm)).
  assert (Hrows : Forall (λ r, length r = h * w) rows).
  { apply chunks_uniform. lia. }
  rewrite zip_with_fmap_same, fmap_concat, <- list_fmap_compose.
  rewrite chunks_concat; cycle 1.
  { unfold rows. by rewrite length_fmap, length_chunks. }
  { apply Forall_fmap. eapply Forall_impl; [exact Hrows|].
    intros r Hr. simpl. by rewrite !length_fmap. }
  rewrite zip_with_fmap_both, <- list_fmap_compose.
  rewrite zip_with_fmap_both.
  unfold reshape. cbn [data].
  match goal with
  | |- context [numel ?s =? length ?l] =>
      replace (numel s =? length l) with true
  end.
  2:{ symmetry. apply Nat.eqb_eq.
      rewrite (length_concat_uniform (h * w)).
      - rewrite length_fmap. unfold rows. rewrite length_chunks. simpl. lia.
      - apply Forall_fmap. eapply Forall_impl; [exact Hrows|].
        intros r Hr. simpl. by rewrite !length_fmap. }
  rewrite result_bind_Ok.
  unfold to_uint8, map_t. cbn [shape data].
  rewrite fmap_concat, <- list_fmap_compose.
  do 3 f_equal. apply list_fmap_ext. intros i r _. simpl.
  unfold normalize_row, normalize_pixel. rewrite <- !list_fmap_compose. done.
Qed.

End TransformSpecs.

(* ===================================================================== *)
(** ** Exact arithmetic: the normalisation of one row *)
(* ===================================================================== *)

Section ExactRow.
Import Torch Hooks.
Local Open Scope Qc_scope.

Local Abbreviation freduce := (@reduce Qc Exact.dtype).

Lemma exact_min_cases (a b : Qc) :
  (Exact.min a b = a ∧ a <= b) ∨ (Exact.min a b = b ∧ b <= a).
Proof.
  unfold Exact.min. destruct (a ?= b) eqn:E.
  - left. split; [done|]. apply Qceq_alt in E. subst. apply Qcle_refl.
  - left. split; [done|]. apply Qclt_alt in E. by apply Qclt_le_weak.
  - right. split; [done|]. apply Qcgt_alt in E. by apply Qclt_le_weak.
Qed.

Lemma exact_max_cases (a b : Qc) :
  (Exact.max a b = a ∧ b <= a) ∨ (Exact.max a b = b ∧ a <= b).
Proof.
  unfold Exact.max. destruct (a ?= b) eqn:E.
  - left. split; [done|]. apply Qceq_alt in E. subst. apply Qcle_refl.
  - right. split; [done|]. apply Qclt_alt in E. by apply Qclt_le_weak.
  - left. split; [done|]. apply Qcgt_alt in E. by apply Qclt_le_weak.
Qed.

Lemma foldl_min_spec (r : list Qc) (a : Qc) :
  let m := foldl Exact.min a r in
  m ∈ a :: r ∧ ∀ y, y ∈ a :: r → m <= y.
Proof.
  revert a. induction r as [|x r IH]; intros a; simpl.
  - split; [left|]. intros y ->%list_elem_of_singleton. apply Qcle_refl.
  - destruct (IH (Exact.min a x)) as [Hin Hle]. split.
    + apply elem_of_cons in Hin as [Hin|Hin].
      * rewrite Hin.
        destruct (exact_min_cases a x) as [[-> _]|[-> _]];
          [left|right; left].
      * by do 2 right.
    + intros y Hy.
      assert (Hm : foldl Exact.min (Exact.min a x) r <= Exact.min a x).
      { apply Hle. left. }
      apply elem_of_cons in Hy as [->|Hy].
      * eapply Qcle_trans; [exact Hm|].
        destruct (exact_min_cases a x) as [[-> ?]|[-> ?]];
          [apply Qcle_refl|done].
      * apply elem_of_cons in Hy as [->|Hy].
        -- eapply Qcle_trans; [exact Hm|].
           destruct (exact_min_cases a x) as [[-> ?]|[-> ?]];
             [done|apply Qcle_refl].
        -- apply Hle. by right.
Qed.

Lemma foldl_max_spec (r : list Qc) (a : Qc) :
  let m := foldl Exact.max a r in
  m ∈ a :: r ∧ ∀ y, y ∈ a :: r → y <= m.
Proof.
  revert a. induction r as [|x r IH]; intros a; simpl.
  - split; [left|]. intros y ->%list_elem_of_singleton. apply Qcle_refl.
  - destruct (IH (Exact.max a x)) as [Hin Hle]. split.
    + apply elem_of_cons in Hin as [Hin|Hin].
      * rewrite Hin.
        destruct (exact_max_cases a x) as [[-> _]|[-> _]];
          [left|right; left].
      * by do 2 right.
    + intros y Hy.
      assert (Hm : Exact.max a x <= foldl Exact.max (Exact.max a x) r).
      { apply Hle. left. }
      apply elem_of_cons in Hy as [->|Hy].
      * eapply Qcle_trans; [|exact Hm].
        destruct (exact_max_cases a x) as [[-> ?]|[-> ?]];
          [apply Qcle_refl|done].
      * apply elem_of_cons in Hy as [->|Hy].
        -- eapply Qcle_trans; [|exact Hm].
           destruct (exact_max_cases a x) as [[-> ?]|[-> ?]];
             [done|apply Qcle_refl].
        -- apply Hle. by right.
Qed.

Lemma reduce_min_spec (row : list Qc) :
  row ≠ [] →
  freduce f_min row ∈ row ∧ ∀ y, y ∈ row → freduce f_min row <= y.
Proof. destruct row as [|a r]; [done|]. intros _. apply foldl_min_spec. Qed.

Lemma reduce_max_spec (row : list Qc) :
  row ≠ [] →
  freduce f_max row ∈ row ∧ ∀ y, y ∈ row → y <= freduce f_max row.
Proof. destruct row as [|a r]; [done|]. intros _. apply foldl_max_spec. Qed.

End ExactRow.

Section SaliencySpecs.
Context {F : Type} {D : Dtype F}.
Import Torch Hooks.

Lemma length_mean_dim1 bs c h w (x : Tensor F) :
  length (data (mean_dim1 bs c h w x)) = bs * (h * w).
Proof.
  unfold mean_dim1. cbn [data].
  rewrite (length_concat_uniform (h * w)).
  - by rewrite length_fmap, length_seq.
  - apply Forall_fmap, Forall_forall. intros b _. simpl.
    unfold transpose. by rewrite !length_fmap, length_seq.
Qed.

Lemma length_matvec bs k c (m v : Tensor F) :
  length (data (matvec bs k c m v)) = bs * k.
Proof.
  unfold matvec. cbn [data].
  rewrite (length_concat_uniform k).
  - by rewrite length_fmap, length_seq.
  - apply Forall_fmap, Forall_forall. intros b _. simpl.
    by rewrite length_fmap, length_chunks.
Qed.

Lemma numel_2 (n k : nat) : numel [n; k] = n * k.
Proof. simpl. lia. Qed.

(** The channel-averaging transform on a single 4-D tensor with
    non-empty planes: it returns, and every example of the result is
    the normalised row of that example's channel average. *)
Lemma SaliencyMapHook_func_rows (x : Tensor F) bs c h w i :
  shape x = [bs; c; h; w] → 0 < h * w →
  SaliencyMapHook_func (Single x) i
  = Ok (mk [bs; h; w]
          (concat (normalize_row
                     <$> chunks bs (h * w)
                           (data (mean_dim1 bs c h w x))))).
Proof.
  intros Hsh Hk. unfold SaliencyMapHook_func.
  rewrite result_bind_Ok. unfold size4. rewrite Hsh, result_bind_Ok.
  unfold reshape. rewrite length_mean_dim1, numel_2, Nat.eqb_refl.
  rewrite result_bind_Ok.
  apply (normalize_to_uint8_rows bs h w
           (mk [bs; h * w] (data (mean_dim1 bs c h w x))));
    [done| |done].
  cbn [data]. apply length_mean_dim1.
Qed.

Lemma chunk_normalized_rows bs k (d : list F) b :
  bs * k ≤ length d → b < bs →
  chunk k b (concat (normalize_row <$> chunks bs k d))
  = normalize_row (chunk k b d).
Proof.
  intros Hlen Hb. apply chunk_concat.
  - apply Forall_fmap. eapply Forall_impl; [by apply chunks_uniform|].
    intros r Hr. simpl. by rewrite length_normalize_row.
  - rewrite list_lookup_fmap, lookup_chunks by done. done.
Qed.

(** The same for one example. *)
Lemma SaliencyMapHook_func_example (x : Tensor F) bs c h w i b :
  shape x = [bs; c; h; w] → 0 < h * w → b < bs →
  ∃ out, SaliencyMapHook_func (Single x) i = Ok out
         ∧ shape out = [bs; h; w]
         ∧ chunk (h * w) b (data out)
           = normalize_row (chunk (h * w) b (data (mean_dim1 bs c h w x))).
Proof.
  intros Hsh Hk Hb. eexists. split; [by apply SaliencyMapHook_func_rows|].
  split; [done|]. cbn [data].
  apply chunk_normalized_rows; [|done]. by rewrite length_mean_dim1.
Qed.

End SaliencySpecs.

(* ===================================================================== *)
(** ** Flat rows *)
(* ===================================================================== *)

Section FlatRows.
Context {F : Type} {D : Dtype F} {ok : F → Prop} {L : FlatLaws D ok}.
Import Torch Hooks.

Lemma foldl_same (op : F → F → F) (v : F) (k : nat) :
  op v v = v → foldl op v (replicate k v) = v.
Proof. intros H. induction k as [|k IH]; simpl; [done|]. by rewrite H. Qed.

Lemma reduce_replicate (op : F → F → F) (v : F) (k : nat) :
  op v v = v → 0 < k → reduce op (replicate k v) = v.
Proof.
  intros H Hk. destruct k as [|k]; [lia|]. simpl. by apply foldl_same.
Qed.

Lemma normalize_pixel_flat (v : F) : ok v → normalize_pixel v v v = 0%Z.
Proof.
  intros Hv. unfold normalize_pixel.
  rewrite (sub_same v Hv), mul_255_zero, zero_add_eps, zero_div_eps.
  apply zero_to_uint8.
Qed.

Lemma normalize_row_flat (v : F) (k : nat) :
  ok v → normalize_row (replicate k v) = replicate k 0%Z.
Proof.
  intros Hv. destruct (decide (k = 0)) as [->|Hk]; [done|].
  unfold normalize_row.
  rewrite !reduce_replicate by (lia || by (apply min_same || apply max_same)).
  by rewrite fmap_replicate, normalize_pixel_flat.
Qed.

End FlatRows.

#[global] Instance Binary32_flat : FlatLaws Binary32.dtype Binary32.finite.
Proof.
  split; cbn [f_max f_min f_sub f_mul f_add f_div f_to_uint8 f_of_Z f_eps
              Binary32.dtype]; try reflexivity.
  - intros [s| | |s m e] Hv; try done; unfold Binary32.max; simpl.
    rewrite Z.compare_refl.
    destruct s; simpl; by rewrite ?Pos.compare_cont_refl.
  - intros [s| | |s m e] Hv; try done; unfold Binary32.min; simpl.
    rewrite Z.compare_refl.
    destruct s; simpl; by rewrite ?Pos.compare_cont_refl.
  - intros [s| | |s m e] Hv; try done; unfold Binary32.sub, SFsub.
    + by destruct s.
    + cbv zeta. rewrite Z.sub_diag. reflexivity.
Qed.

#[global] Instance Exact_flat : FlatLaws Exact.dtype (λ _, True).
Proof.
  split; cbn [f_max f_min f_sub f_mul f_add f_div f_to_uint8 f_of_Z f_eps
              Exact.dtype]; intros.
  - by destruct (exact_max_cases v v) as [[-> _]|[-> _]].
  - by destruct (exact_min_cases v v) as [[-> _]|[-> _]].
  - unfold Qcminus. apply Qcplus_opp_r.
  - apply Qcmult_0_r.
  - apply Qcplus_0_l.
  - unfold Qcdiv. apply Qcmult_0_l.
  - reflexivity.
Qed.

(** In exact arithmetic a row whose minimum equals its maximum is
    constant. *)
Lemma exact_row_min_eq_max (row : list Qc) :
  Torch.reduce f_min row = Torch.reduce f_max row →
  row = replicate (length row) (Torch.reduce f_min row).
Proof.
  intros E. destruct (decide (row = [])) as [->|Hne]; [done|].
  destruct (reduce_min_spec row Hne) as [_ Hlo].
  destruct (reduce_max_spec row Hne) as [_ Hhi].
  symmetry. apply replicate_as_Forall. split; [done|].
  apply Forall_forall. intros y Hy.
  apply Qcle_antisym; [by apply Hlo|]. rewrite E. by apply Hhi.
Qed.

Section FlatExamples.
Import Torch Hooks.

(** An example whose channel average is flat gets the zero map. *)
Lemma saliency_flat_example {F : Type} {D : Dtype F} {ok : F → Prop}
    {L : FlatLaws D ok} (x : Tensor F) (bs c h w b : nat) (v : F) (i : Z) :
  shape x = [bs; c; h; w] → 0 < h * w → b < bs → ok v →
  chunk (h * w) b (data (mean_dim1 bs c h w x)) = replicate (h * w) v →
  ∃ out, SaliencyMapHook_func (Single x) i = Ok out
         ∧ shape out = [bs; h; w]
         ∧ chunk (h * w) b (data out) = replicate (h * w) 0%Z.
Proof.
  intros Hsh Hk Hb Hv Hflat.
  destruct (SaliencyMapHook_func_example x bs c h w i b Hsh Hk Hb)
    as (out & Hout & Hshape & Hrow).
  exists out. split; [done|]. split; [done|].
  rewrite Hrow, Hflat. by apply normalize_row_flat.
Qed.

Lemma saliency_min_eq_max_example (x : Tensor Qc) (bs c h w b : nat) (i : Z) :
  shape x = [bs; c; h; w] → 0 < h * w → b < bs →
  reduce f_min (chunk (h * w) b (data (mean_dim1 bs c h w x)))
  = reduce f_max (chunk (h * w) b (data (mean_dim1 bs c h w x))) →
  ∃ out, SaliencyMapHook_func (Single x) i = Ok out
         ∧ shape out = [bs; h; w]
         ∧ chunk (h * w) b (data out) = replicate (h * w) 0%Z.
Proof.
  intros Hsh Hk Hb E.
  apply (saliency_flat_example (ok:=λ _, True) x bs c h w b
           (reduce f_min (chunk (h * w) b (data (mean_dim1 bs c h w x)))));
    try done.
  rewrite (exact_row_min_eq_max _ E) at 1. f_equal.
  apply length_chunk. rewrite length_mean_dim1. nia.
Qed.

End FlatExamples.

(* ===================================================================== *)
(** ** The channel-averaging transform on flat and on varying maps *)
(* ===================================================================== *)

Section SaliencyClaims.
Import Torch Hooks Inputs.

(** C7.  On the 1x2x2x2 activation with channel 0 constant 1 and
    channel 1 constant 3 the channel-averaging transform returns the
    1x2x2 byte map of zeros (in binary32 and in exact arithmetic).  For
    every element type with the flat-row laws, every 4-D activation with
    non-empty planes and every example whose channel-averaged map is
    constant with a value [v] that is [ok], the transform returns and
    that example's byte map is 0 everywhere.  In exact arithmetic the
    same holds for every example whose channel-averaged map has its
    minimum equal to its maximum. *)
Theorem saliency_flat_map_is_zero :
  SaliencyMapHook_func (F:=Binary32.t) (Single two_flat_channels) 0
  = Ok (mk [1; 2; 2] [0; 0; 0; 0]%Z)
  ∧ SaliencyMapHook_func (F:=Qc) (Single two_flat_channels) 0
    = Ok (mk [1; 2; 2] [0; 0; 0; 0]%Z)
  ∧ (∀ (F : Type) (D : Dtype F) (ok : F → Prop), FlatLaws D ok →
     ∀ (x : Tensor F) (bs c h w b : nat) (v : F) (i : Z),
       shape x = [bs; c; h; w] → 0 < h * w → b < bs → ok v →
       chunk (h * w) b (data (mean_dim1 bs c h w x)) = replicate (h * w) v →
       ∃ out, SaliencyMapHook_func (Single x) i = Ok out
              ∧ shape out = [bs; h; w]
              ∧ chunk (h * w) b (data out) = replicate (h * w) 0%Z)
  ∧ (∀ (x : Tensor Qc) (bs c h w b : nat) (i : Z),
       shape x = [bs; c; h; w] → 0 < h * w → b < bs →
       reduce f_min (chunk (h * w) b (data (mean_dim1 bs c h w x)))
       = reduce f_max (chunk (h * w) b (data (mean_dim1 bs c h w x))) →
       ∃ out, SaliencyMapHook_func (Single x) i = Ok out
              ∧ shape out = [bs; h; w]
              ∧ chunk (h * w) b (data out) = replicate (h * w) 0%Z).
Proof.
  split; [by vm_compute|]. split; [by vm_compute|]. split.
  - intros F D ok L. apply saliency_flat_example.
  - apply saliency_min_eq_max_example.
Qed.

Lemma saliency_flat_map_is_zero_witness :
  (shape (two_flat_channels (F:=Binary32.t)) = [1; 2; 2; 2]
   ∧ 0 < 2 * 2 ∧ 0 < 1
   ∧ Binary32.finite (Binary32.of_Z 2)
   ∧ chunk (2 * 2) 0
       (data (mean_dim1 (F:=Binary32.t) 1 2 2 2 two_flat_channels))
     = replicate (2 * 2) (Binary32.of_Z 2)
   ∧ ∃ out, SaliencyMapHook_func (F:=Binary32.t)
              (Single two_flat_channels) 0 = Ok out
            ∧ shape out = [1; 2; 2]
            ∧ chunk (2 * 2) 0 (data out) = replicate (2 * 2) 0%Z)
  ∧ (shape (two_flat_channels (F:=Qc)) = [1; 2; 2; 2]
     ∧ reduce f_min
         (chunk (2 * 2) 0 (data (mean_dim1 (F:=Qc) 1 2 2 2 two_flat_channels)))
       = reduce f_max
           (chunk (2 * 2) 0
              (data (mean_dim1 (F:=Qc) 1 2 2 2 two_flat_channels)))
     ∧ ∃ out, SaliencyMapHook_func (F:=Qc) (Single two_flat_channels) 0
              = Ok out
              ∧ shape out = [1; 2; 2]
              ∧ chunk (2 * 2) 0 (data out) = replicate (2 * 2) 0%Z).
Proof.
  assert (H2 : 0 < 2 * 2) by lia.
  assert (H3 : 0 < 1) by lia.
  split.
  - assert (H1 : shape (two_flat_channels (F:=Binary32.t)) = [1; 2; 2; 2])
      by reflexivity.
    assert (H4 : Binary32.finite (Binary32.of_Z 2)) by exact I.
    assert (H5 : chunk (2 * 2) 0
                   (data (mean_dim1 (F:=Binary32.t) 1 2 2 2 two_flat_channels))
                 = replicate (2 * 2) (Binary32.of_Z 2))
      by (vm_compute; reflexivity).
    repeat (split; [assumption|]).
    exact (proj1 (proj2 (proj2 saliency_flat_map_is_zero)) _ Binary32.dtype
             Binary32.finite Binary32_flat two_flat_channels 1 2 2 2 0
             (Binary32.of_Z 2) 0%Z H1 H2 H3 H4 H5).
  - assert (H1 : shape (two_flat_channels (F:=Qc)) = [1; 2; 2; 2])
      by reflexivity.
    assert (H4 : reduce f_min
                   (chunk (2 * 2) 0
                      (data (mean_dim1 (F:=Qc) 1 2 2 2 two_flat_channels)))
                 = reduce f_max
                     (chunk (2 * 2) 0
                        (data (mean_dim1 (F:=Qc) 1 2 2 2 two_flat_channels))))
      by (apply Qc_is_canon; vm_compute; reflexivity).
    repeat (split; [assumption|]).
    exact (proj2 (proj2 (proj2 saliency_flat_map_is_zero))
             two_flat_channels 1 2 2 2 0 0%Z H1 H2 H3 H4).
Defined.

(** C3 fails as stated.  The binary32 activation with the two values 0 and
    2^-40 is not constant, and its byte map is [0; 121]: the largest byte
    is 121, not 255, for the channel-averaging transform and for EigenCAM
    (one channel, principal axis [1]).  With the values 0 and
    8421505 * 2^-23 the largest byte is 254, and in exact arithmetic it
    is 254 already for the values 0 and 1. *)
Lemma saliency_maximum_below_255 :
  Binary32.of_Z 0 ≠ S754_finite false 8388608 (-63)
  ∧ SaliencyMapHook_func (F:=Binary32.t) (Single narrow_range32) 0
    = Ok (mk [1; 1; 2] [0; 121]%Z)
  ∧ EigenCamHook_func (F:=Binary32.t) svd_one_channel (Single narrow_range32)
    = Ok (mk [1; 1; 2] [0; 121]%Z)
  ∧ ¬ byte_range [0; 121]%Z 255
  ∧ SaliencyMapHook_func (F:=Binary32.t) (Single unit_range32) 0
    = Ok (mk [1; 1; 2] [0; 254]%Z)
  ∧ SaliencyMapHook_func (F:=Qc) (Single narrow_range) 0
    = Ok (mk [1; 1; 2] [0; 121]%Z)
  ∧ SaliencyMapHook_func (F:=Qc) (Single zero_one) 0
    = Ok (mk [1; 1; 2] [0; 254]%Z)
  ∧ ¬ byte_range [0; 254]%Z 255.
Proof.
  split; [done|]. split; [by vm_compute|]. split; [by vm_compute|].
  split.
  { intros (_ & H & _). apply list_elem_of_In in H. simpl in H. lia. }
  split; [by vm_compute|]. split; [by vm_compute|]. split; [by vm_compute|].
  intros (_ & H & _). apply list_elem_of_In in H. simpl in H. lia.
Qed.

(** In binary32 the pixel of a finite row minimum [lo] is the byte 0,
    whatever the row maximum: [lo - lo] is zero, [255 * 0] is zero, and
    zero divided by the denominator is zero, or NaN when the denominator
    is zero or NaN, which converts to the byte 0 in this model. *)
Lemma binary32_pixel_at_min (lo hi : Binary32.t) :
  Binary32.finite lo → normalize_pixel lo hi lo = 0%Z.
Proof.
  intros Hlo. unfold normalize_pixel.
  cbn [f_sub f_mul f_div f_add f_to_uint8 f_of_Z f_eps Binary32.dtype].
  generalize (Binary32.add (Binary32.sub hi lo) Binary32.eps). intros d.
  assert (Hz : ∃ s, Binary32.sub lo lo = S754_zero s).
  { destruct lo as [s| | |s m e]; try done; unfold Binary32.sub, SFsub.
    - destruct s; by eexists.
    - cbv zeta. rewrite Z.sub_diag. by eexists. }
  destruct Hz as [s ->].
  destruct s; destruct d as [ [] | [] | | [] m e ]; reflexivity.
Qed.

Lemma binary32_min_cases (a b : Binary32.t) :
  Binary32.finite a → Binary32.finite b →
  Binary32.min a b = a ∨ Binary32.min a b = b.
Proof.
  intros Ha Hb. unfold Binary32.min.
  destruct (SFcompare a b) as [[]|] eqn:E; auto.
  destruct a, b; done.
Qed.

Lemma binary32_foldl_min_in (r : list Binary32.t) (a : Binary32.t) :
  Binary32.finite a → Forall Binary32.finite r →
  foldl Binary32.min a r ∈ a :: r.
Proof.
  intros Ha Hr. revert a Ha.
  induction Hr as [|b r Hb _ IH]; intros a Ha; cbn [foldl]; [by left|].
  destruct (binary32_min_cases a b Ha Hb) as [->| ->].
  - pose proof (IH a Ha) as Hin.
    apply elem_of_cons in Hin as [Hin|Hin]; [rewrite Hin; by left|].
    right. by right.
  - right. by apply IH.
Qed.

Lemma binary32_reduce_min_in (row : list Binary32.t) :
  row ≠ [] → Forall Binary32.finite row → reduce f_min row ∈ row.
Proof.
  destruct row as [|a r]; [done|]. intros _ Hall.
  apply Forall_cons in Hall as [Ha Hr].
  by apply binary32_foldl_min_in.
Qed.

Lemma binary32_to_uint8_range (x : Binary32.t) :
  (0 ≤ Binary32.to_uint8 x ≤ 255)%Z.
Proof.
  unfold Binary32.to_uint8.
  pose proof (Z.mod_pos_bound (Binary32.trunc x) 256). lia.
Qed.

(** What the normalisation gives for a non-empty row of binary32 numbers:
    bytes between 0 and 255, and, when the row is finite, the byte 0 at
    every position that holds the row minimum, of which there is one. *)
Lemma binary32_normalize_row_spec (row : list Binary32.t) :
  row ≠ [] →
  Forall (λ p, (0 ≤ p ≤ 255)%Z) (normalize_row row)
  ∧ (Forall Binary32.finite row →
       (∀ j, row !! j = Some (reduce f_min row) →
             normalize_row row !! j = Some 0%Z)
       ∧ ∃ j, row !! j = Some (reduce f_min row)
              ∧ normalize_row row !! j = Some 0%Z).
Proof.
  intros Hne. split.
  - unfold normalize_row. apply Forall_fmap, Forall_forall. intros x _.
    apply binary32_to_uint8_range.
  - intros Hfin.
    assert (Hmin : Binary32.finite (reduce f_min row)).
    { apply (proj1 (Forall_forall _ _) Hfin).
      by apply binary32_reduce_min_in. }
    assert (Hzero : ∀ j, row !! j = Some (reduce f_min row) →
                         normalize_row row !! j = Some 0%Z).
    { intros j Hj. unfold normalize_row. rewrite list_lookup_fmap, Hj.
      simpl. f_equal. by apply binary32_pixel_at_min. }
    split; [exact Hzero|].
    destruct (proj1 (list_elem_of_lookup _ _)
                (binary32_reduce_min_in row Hne Hfin)) as [j Hj].
    exists j. split; [done|]. by apply Hzero.
Qed.

(** C3, amended.  In binary32, for every 4-D activation with non-empty
    planes and every example [b]: the channel-averaging transform
    returns, and the example's byte map is, pixel by pixel, the uint8
    conversion of 255 * (p - lo) / (hi - lo + 1e-12) for the example's
    channel averages [p] with minimum [lo] and maximum [hi]; every byte
    lies between 0 and 255, and when the averages are finite the byte is
    0 at every pixel whose average is [lo], so the smallest value 0 is
    attained (should the denominator be zero or NaN, the quotient is NaN,
    which converts to the byte 0 in this model).  The same holds for
    EigenCAM with the example's projections
    in place of the averages, whenever the decomposition returns a
    factor with at least one row.  The largest byte need not be 255 and
    need not be at the largest average: the values 0, 1e36, 2e36 give
    the map [0; 127; 0], because 255 * (2e36 - 0) overflows, while the
    values 0, 1 give [0; 255]. *)
Theorem saliency_byte_range :
  (∀ (x : Tensor Binary32.t) (bs c h w b : nat) (i : Z),
     shape x = [bs; c; h; w] → 0 < h * w → b < bs →
     let row := chunk (h * w) b (data (mean_dim1 bs c h w x)) in
     ∃ out,
       SaliencyMapHook_func (Single x) i = Ok out
       ∧ chunk (h * w) b (data out)
         = normalize_pixel (reduce f_min row) (reduce f_max row) <$> row
       ∧ Forall (λ p, (0 ≤ p ≤ 255)%Z) (chunk (h * w) b (data out))
       ∧ (Forall Binary32.finite row →
            (∀ j, row !! j = Some (reduce f_min row) →
                  chunk (h * w) b (data out) !! j = Some 0%Z)
            ∧ ∃ j, row !! j = Some (reduce f_min row)
                   ∧ chunk (h * w) b (data out) !! j = Some 0%Z))
  ∧ (∀ (svd : Tensor Binary32.t → result (Tensor Binary32.t))
       (x : Tensor Binary32.t) (bs c h w b : nat) V V0,
       shape x = [bs; c; h; w] → 0 < h * w → b < bs →
       let reshaped_fmap := reshape_transpose12 bs c (h * w) x in
       let centered :=
         sub_rowvec bs (h * w) c reshaped_fmap
           (mean_rows bs (h * w) c reshaped_fmap) in
       svd centered = Ok V → select_dim1_0 V = Ok V0 →
       let row := chunk (h * w) b (data (matvec bs (h * w) c centered V0)) in
       ∃ out,
         EigenCamHook_func svd (Single x) = Ok out
         ∧ chunk (h * w) b (data out)
           = normalize_pixel (reduce f_min row) (reduce f_max row) <$> row
         ∧ Forall (λ p, (0 ≤ p ≤ 255)%Z) (chunk (h * w) b (data out))
         ∧ (Forall Binary32.finite row →
              (∀ j, row !! j = Some (reduce f_min row) →
                    chunk (h * w) b (data out) !! j = Some 0%Z)
              ∧ ∃ j, row !! j = Some (reduce f_min row)
                     ∧ chunk (h * w) b (data out) !! j = Some 0%Z))
  ∧ SaliencyMapHook_func (Single wide_range32) 0
    = Ok (mk [1; 1; 3] [0; 127; 0]%Z)
  ∧ EigenCamHook_func svd_one_channel (Single wide_range32)
    = Ok (mk [1; 1; 3] [0; 127; 0]%Z)
  ∧ SaliencyMapHook_func (F:=Binary32.t) (Single zero_one) 0
    = Ok (mk [1; 1; 2] [0; 255]%Z).
Proof.
  split; [|split; [|split; [by vm_compute|split; by vm_compute]]].
  - intros x bs c h w b i Hsh Hk Hb row.
    destruct (SaliencyMapHook_func_example x bs c h w i b Hsh Hk Hb)
      as (out & Hout & _ & Hrow).
    fold row in Hrow.
    assert (Hne : row ≠ []).
    { intros E. assert (Hl : length row = h * w).
      { apply length_chunk. rewrite length_mean_dim1. nia. }
      rewrite E in Hl. simpl in Hl. lia. }
    exists out. split; [done|]. rewrite Hrow. split; [done|].
    exact (binary32_normalize_row_spec row Hne).
  - intros svd x bs c h w b V V0 Hsh Hk Hb reshaped_fmap centered HV HV0 row.
    assert (Hlen : length row = h * w).
    { apply length_chunk. rewrite length_matvec. nia. }
    assert (Hne : row ≠ []).
    { intros E. rewrite E in Hlen. simpl in Hlen. lia. }
    assert (Hout : EigenCamHook_func svd (Single x)
                   = Ok (mk [bs; h; w]
                           (concat (normalize_row
                                      <$> chunks bs (h * w)
                                            (data (matvec bs (h * w) c
                                                     centered V0)))))).
    { unfold EigenCamHook_func.
      rewrite result_bind_Ok. unfold size4. rewrite Hsh, result_bind_Ok.
      fold reshaped_fmap. fold centered.
      rewrite HV, result_bind_Ok, HV0, result_bind_Ok.
      apply (normalize_to_uint8_rows bs h w
               (matvec bs (h * w) c centered V0));
        [done|apply length_matvec|done]. }
    eexists. split; [exact Hout|]. cbn [data].
    rewrite chunk_normalized_rows by (by rewrite ?length_matvec).
    fold row. split; [done|].
    exact (binary32_normalize_row_spec row Hne).
Qed.

Lemma saliency_byte_range_witness :
  let x := narrow_range32 in
  let row := chunk (1 * 2) 0 (data (mean_dim1 1 1 1 2 x)) in
  let reshaped_fmap := reshape_transpose12 1 1 (1 * 2) x in
  let centered :=
    sub_rowvec 1 (1 * 2) 1 reshaped_fmap (mean_rows 1 (1 * 2) 1 reshaped_fmap) in
  let V : Tensor Binary32.t := mk [1; 1; 1] [Binary32.of_Z 1] in
  let V0 : Tensor Binary32.t := mk [1; 1] [Binary32.of_Z 1] in
  let proj := chunk (1 * 2) 0 (data (matvec 1 (1 * 2) 1 centered V0)) in
  shape x = [1; 1; 1; 2] ∧ 0 < 1 * 2 ∧ 0 < 1
  ∧ Forall Binary32.finite row
  ∧ svd_one_channel centered = Ok V ∧ select_dim1_0 V = Ok V0
  ∧ Forall Binary32.finite proj
  ∧ (∃ out,
       SaliencyMapHook_func (Single x) 0 = Ok out
       ∧ chunk (1 * 2) 0 (data out)
         = normalize_pixel (reduce f_min row) (reduce f_max row) <$> row
       ∧ Forall (λ p, (0 ≤ p ≤ 255)%Z) (chunk (1 * 2) 0 (data out))
       ∧ (∀ j, row !! j = Some (reduce f_min row) →
               chunk (1 * 2) 0 (data out) !! j = Some 0%Z)
       ∧ ∃ j, row !! j = Some (reduce f_min row)
              ∧ chunk (1 * 2) 0 (data out) !! j = Some 0%Z)
  ∧ (∃ out,
       EigenCamHook_func svd_one_channel (Single x) = Ok out
       ∧ chunk (1 * 2) 0 (data out)
         = normalize_pixel (reduce f_min proj) (reduce f_max proj) <$> proj
       ∧ Forall (λ p, (0 ≤ p ≤ 255)%Z) (chunk (1 * 2) 0 (data out))
       ∧ (∀ j, proj !! j = Some (reduce f_min proj) →
               chunk (1 * 2) 0 (data out) !! j = Some 0%Z)
       ∧ ∃ j, proj !! j = Some (reduce f_min proj)
              ∧ chunk (1 * 2) 0 (data out) !! j = Some 0%Z).
Proof.
  intros x row reshaped_fmap centered V V0 proj.
  assert (H1 : shape x = [1; 1; 1; 2]) by reflexivity.
  assert (H2 : 0 < 1 * 2) by lia.
  assert (H3 : 0 < 1) by lia.
  assert (H4 : Forall Binary32.finite row) by (vm_compute; by repeat constructor).
  assert (H5 : svd_one_channel centered = Ok V) by reflexivity.
  assert (H6 : select_dim1_0 V = Ok V0) by reflexivity.
  assert (H7 : Forall Binary32.finite proj)
    by (vm_compute; by repeat constructor).
  do 7 (split; [assumption|]). split.
  - destruct (proj1 saliency_byte_range x 1 1 1 2 0 0%Z H1 H2 H3)
      as (out & Hout & Hrow & Hrange & Hmin).
    exists out. do 3 (split; [assumption|]). exact (Hmin H4).
  - destruct (proj1 (proj2 saliency_byte_range) svd_one_channel x 1 1 1 2 0
                V V0 H1 H2 H3 H5 H6)
      as (out & Hout & Hrow & Hrange & Hmin).
    exists out. do 3 (split; [assumption|]). exact (Hmin H7).
Defined.

End SaliencyClaims.

(* ===================================================================== *)
(** ** The feature-vector transform *)
(* ===================================================================== *)

Section FeatureVector.
Context {F : Type} {D : Dtype F}.
Import Torch Hooks.

Lemma fmap_seq_const {B} (f : nat → B) (y : B) (n : nat) :
  (∀ i, i < n → f i = y) → f <$> seq 0 n = replicate n y.
Proof.
  intros H. apply list_eq. intros i.
  rewrite list_lookup_fmap.
  destruct (decide (i < n)) as [Hi|Hi].
  - rewrite lookup_seq_lt, lookup_replicate_2 by done. simpl. by rewrite H.
  - rewrite lookup_seq_ge by lia. simpl. symmetry.
    apply lookup_replicate_None. lia.
Qed.

Lemma length_pool_data n k (d : list F) :
  length (mean <$> chunks n k d) = n.
Proof. by rewrite length_fmap, length_chunks. Qed.

(** Pooling a 4-D tensor with non-empty planes returns one value for each
    example and channel. *)
Lemma adaptive_avg_pool2d_1x1_4d (x : Tensor F) bs c h w :
  shape x = [bs; c; h; w] → 0 < h → 0 < w →
  adaptive_avg_pool2d_1x1 x
  = Ok (mk [bs; c; 1; 1] (mean <$> chunks (bs * c) (h * w) (data x))).
Proof.
  intros Hsh _ _. unfold adaptive_avg_pool2d_1x1. rewrite Hsh.
  cbn [length Nat.ltb Nat.leb Nat.sub take drop numel foldr app].
  by rewrite !Nat.mul_1_r.
Qed.





End FeatureVector.

Section FeatureVectorClaims.
Import Torch Hooks Inputs.




(** C9.  The feature-vector transform raises on the empty sequence, for
    every element type, and so does the recording callback of a
    feature-vector hook, whatever the hook holds. *)
Theorem feature_vector_empty_sequence_raises :
  ∀ (F : Type) (D : Dtype F),
    FeatureVectorHook_func (F:=F) (Sequence []) = Raise Py.RuntimeError
    ∧ ∀ svd handle recs idx,
        _recording_forward svd (mkHook FeatureVectorHook handle recs idx)
          (Sequence []) = Raise Py.RuntimeError.
Proof. intros F D. split; [reflexivity|]. intros. reflexivity. Qed.

End FeatureVectorClaims.

(* ===================================================================== *)
(** ** The recording callback *)
(* ===================================================================== *)

Section Recording.
Context {F : Type} {D : Dtype F}.
Variable svd : Tensor F → result (Tensor F).
Import Torch Hooks.

Lemma func_set_records (h : Hook F) r output :
  func svd (set_records h r) output = func svd h output.
Proof. reflexivity. Qed.

Lemma func_set_handle (h : Hook F) o output :
  func svd (set_handle h o) output = func svd h output.
Proof. reflexivity. Qed.

Lemma length_nd_iter (a : ndarray F) B :
  nd_len a = Ok B → length (nd_iter a) = B.
Proof.
  destruct a as [t|t]; unfold nd_len, len, nd_iter, unbind;
    destruct (shape t) as [|n sh]; intros [= <-];
    by rewrite !length_fmap, length_seq.
Qed.

(** Iterating over a batched array yields its examples in order. *)
Lemma nd_iter_slices (a : ndarray F) B :
  nd_len a = Ok B → nd_iter a = (λ i, nd_slice i a) <$> seq 0 B.
Proof.
  destruct a as [t|t]; unfold nd_len, len, nd_iter, nd_slice, unbind;
    destruct (shape t) as [|n sh]; intros [= <-]; cbn [tail];
    by rewrite <- list_fmap_compose.
Qed.

Lemma length_records_of_call (a : ndarray F) B :
  1 ≤ B → length (records_of_call B a) = B.
Proof.
  intros HB. unfold records_of_call. destruct (decide (B = 1)) as [->|_].
  - done.
  - by rewrite length_fmap, length_seq.
Qed.

(** One call of the callback with a result of leading size [B ≥ 1]. *)
Lemma recording_forward_batch (h : Hook F) output a B :
  func svd h output = Ok a → nd_len a = Ok B → 1 ≤ B →
  _recording_forward svd h output
  = Ok (set_records h (_records h ++ records_of_call B a)).
Proof.
  intros Hf Hl HB. unfold _recording_forward.
  rewrite Hf, result_bind_Ok, Hl, result_bind_Ok.
  unfold records_of_call. destruct (decide (B = 1)) as [->|Hne].
  - reflexivity.
  - destruct (1 <? B) eqn:E; [|apply Nat.ltb_ge in E; lia].
    by rewrite (nd_iter_slices a B).
Qed.

(** The callback changes the records only. *)
Lemma recording_forward_fields (h h' : Hook F) output :
  _recording_forward svd h output = Ok h' →
  cls h' = cls h ∧ _handle h' = _handle h ∧ _fpn_idx h' = _fpn_idx h.
Proof.
  unfold _recording_forward.
  destruct (func svd h output) as [a|e]; [|done]. rewrite result_bind_Ok.
  destruct (nd_len a) as [n|e]; [|done]. rewrite result_bind_Ok.
  by destruct (1 <? n); intros [= <-].
Qed.

End Recording.

(* ===================================================================== *)
(** ** Forward calls and the hook's scope *)
(* ===================================================================== *)

Section Scope.
Context {F : Type} {D : Dtype F}.
Variable svd : Tensor F → result (Tensor F).
Context {X : Type}.
Variable forward : X → Output F.
Import Torch Hooks Explainer.

Implicit Types (w : World F) (h : Hook F).

Lemma preserved_refl hooks w : preserved hooks w w.
Proof. repeat split; eauto. Qed.

Lemma preserved_trans hooks w1 w2 w3 :
  preserved hooks w1 w2 → preserved hooks w2 w3 → preserved hooks w1 w3.
Proof.
  intros (Ha1 & Hb1 & Hc1 & Hd1) (Ha2 & Hb2 & Hc2 & Hd2).
  split; [congruence|]. split; [congruence|]. split.
  - intros r Hr. rewrite Hc2, Hc1; done.
  - intros r h Hh. destruct (Hd1 r h Hh) as (h' & Hh' & He1 & He2).
    destruct (Hd2 r h' Hh') as (h'' & Hh'' & He3 & He4).
    exists h''. split; [done|]. split; congruence.
Qed.

Lemma preserved_mono hooks hooks' w w' :
  (∀ r, r ∈ hooks → r ∈ hooks') → preserved hooks w w' →
  preserved hooks' w w'.
Proof.
  intros Hsub (Ha & Hb & Hc & Hd). repeat split; try done.
  intros r Hr. apply Hc. intros Hin. by apply Hr, Hsub.
Qed.

Lemma preserved_put self h h' w :
  heap w !! self = Some h → _handle h' = _handle h → cls h' = cls h →
  preserved [self] w (put self h' w).1.
Proof.
  intros Hh H1 H2. unfold put. cbn [fst]. repeat split; cbn
    [_forward_hooks next_id heap]; try done.
  - intros r Hr. apply list_lookup_insert_ne. intros ->. apply Hr. left.
  - intros r h0 Hr. destruct (decide (r = self)) as [->|Hne].
    + exists h'. rewrite list_lookup_insert_eq by by eapply lookup_lt_Some.
      rewrite Hh in Hr. injection Hr as <-. done.
    + exists h0. by rewrite list_lookup_insert_ne.
Qed.

(** Running the forward hooks changes nothing but the hook objects that
    are called, and of those neither class nor handle. *)
Lemma run_hooks_preserved hooks output w :
  preserved hooks w (run_hooks svd hooks output w).1.
Proof.
  revert w. induction hooks as [|self rest IH]; intros w.
  - apply preserved_refl.
  - cbn [run_hooks]. unfold bindM at 1, get.
    destruct (heap w !! self) as [h|] eqn:Hh; [|apply preserved_refl].
    destruct (_recording_forward svd h output) as [h'|e] eqn:Hr;
      [|apply preserved_refl].
    destruct (recording_forward_fields svd h h' output Hr) as (Hc & Hd & _).
    unfold bindM. cbn [put].
    eapply preserved_trans.
    + eapply preserved_mono; [|by apply (preserved_put self h h')].
      intros r ->%list_elem_of_singleton. left.
    + eapply preserved_mono; [|apply IH]. intros r Hr'. by right.
Qed.

(** The result of a forward call, when it returns, is the forward
    output: no hook replaces it. *)
Lemma module_call_output x w out :
  (module_call svd forward x w).2 = Ok out → out = forward x.
Proof.
  unfold module_call, bindM.
  destruct (run_hooks svd _ _ w) as [w' [[]|e]]; cbn; [|done].
  by intros [= <-].
Qed.

Lemma module_call_preserved x w :
  preserved (_forward_hooks w).*2 w (module_call svd forward x w).1.
Proof.
  unfold module_call, bindM.
  pose proof (run_hooks_preserved (_forward_hooks w).*2 (forward x) w) as H.
  by destruct (run_hooks svd _ _ w) as [w' [[]|e]].
Qed.

Lemma for_each_preserved xs w :
  preserved (_forward_hooks w).*2 w (for_each svd forward xs w).1.
Proof.
  revert w. induction xs as [|x xs IH]; intros w.
  - apply preserved_refl.
  - cbn [for_each]. unfold bindM.
    pose proof (module_call_preserved x w) as H1.
    destruct (module_call svd forward x w) as [w1 [out|e]]; cbn [fst] in *;
      [|done].
    eapply preserved_trans; [exact H1|].
    destruct H1 as (<- & _). apply IH.
Qed.

(** With no forward hook in the table a call is the forward computation
    and leaves the world as it is. *)
Lemma module_call_unhooked x w :
  _forward_hooks w = [] → module_call svd forward x w = (w, Ok (forward x)).
Proof. intros H. unfold module_call. by rewrite H. Qed.

Lemma filter_fresh_ids (table : list (nat * nat)) (n self : nat) :
  Forall (λ e, e.1 < n) table →
  filter (λ e, e.1 ≠ n) (table ++ [(n, self)]) = table.
Proof.
  intros Hall. rewrite filter_app.
  rewrite filter_cons_False by (cbn; lia). rewrite filter_nil, app_nil_r.
  induction Hall as [|e table He _ IH]; [done|].
  rewrite filter_cons_True by lia. by rewrite IH.
Qed.

(** Entering the scope: a fresh handle at the end of the table, recorded
    in the hook. *)
Lemma enter_spec self h w :
  heap w !! self = Some h →
  __enter__ self w
  = ({| _forward_hooks := _forward_hooks w ++ [(next_id w, self)];
        next_id := S (next_id w);
        heap := <[self := set_handle h (Some (next_id w))]> (heap w) |},
     Ok self).
Proof.
  intros Hh. unfold __enter__, bindM, register_forward_hook, get, put, retM.
  cbn [heap _forward_hooks next_id]. by rewrite Hh.
Qed.

(** The scope around a body that preserves the table and the handles:
    on exit the table is what it was on entry, whether the body returned
    or raised, and the result of the body is the result of the scope. *)
Lemma with_spec {A} (body : nat → M F A) self h w :
  heap w !! self = Some h → ids_fresh w →
  (∀ w1, ∃ hooks, preserved hooks w1 (body self w1).1) →
  let w1 := (__enter__ self w).1 in
  let w2 := (body self w1).1 in
  with_ self body w
  = ({| _forward_hooks := _forward_hooks w; next_id := next_id w2;
        heap := heap w2 |}, (body self w1).2).
Proof.
  intros Hh Hfresh Hbody. unfold with_.
  rewrite (enter_spec self h w Hh). cbn [fst].
  set (w1 := {| _forward_hooks := _ |}).
  destruct (Hbody w1) as (hooks & Ha & Hb & Hc & Hd).
  destruct (body self w1) as [w2 r]. cbn [fst snd] in *.
  destruct (Hd self (set_handle h (Some (next_id w)))) as (h2 & Hh2 & He & _).
  { unfold w1. cbn [heap]. apply list_lookup_insert_eq.
    by eapply lookup_lt_Some. }
  unfold __exit__, bindM, get. rewrite Hh2, He. cbn [set_handle _handle].
  unfold handle_remove. rewrite Ha. unfold w1. cbn [_forward_hooks].
  by rewrite filter_fresh_ids.
Qed.

(** A forward call with exactly one hook attached whose callback
    returns. *)
Lemma module_call_single id self h h' x w :
  _forward_hooks w = [(id, self)] → heap w !! self = Some h →
  _recording_forward svd h (forward x) = Ok h' →
  module_call svd forward x w = ((put self h' w).1, Ok (forward x)).
Proof.
  intros Htab Hh Hr. unfold module_call. rewrite Htab.
  cbn [fmap list_fmap snd run_hooks]. unfold bindM, get.
  by rewrite Hh, Hr.
Qed.

(** A loop of forward calls with exactly one hook attached, each call's
    transform result having leading size [B ≥ 1]. *)
Lemma for_each_single B id self xs ts h0 :
  1 ≤ B →
  Forall2 (λ x a, func svd h0 (forward x) = Ok a ∧ nd_len a = Ok B) xs ts →
  ∀ w h,
    cls h = cls h0 → _forward_hooks w = [(id, self)] →
    heap w !! self = Some h →
    ∃ w', for_each svd forward xs w = (w', Ok ())
          ∧ heap w' !! self
            = Some (set_records h
                      (_records h ++ concat (records_of_call B <$> ts))).
Proof.
  intros HB Hall.
  induction Hall as [|x a xs ts [Hf Hl] _ IH]; intros w h Hcls Htab Hh.
  - exists w. split; [done|]. rewrite Hh. f_equal.
    destruct h. unfold set_records. cbn. by rewrite app_nil_r.
  - assert (Hf' : func svd h (forward x) = Ok a).
    { rewrite <- Hf. unfold func. by rewrite Hcls. }
    set (h1 := set_records h (_records h ++ records_of_call B a)).
    cbn [for_each]. unfold bindM.
    rewrite (module_call_single id self h h1 x w Htab Hh
               (recording_forward_batch svd h (forward x) a B Hf' Hl HB)).
    cbn [fst put].
    set (w1 := {| _forward_hooks := _ |}).
    destruct (IH w1 h1) as (w' & Hrun & Hrec).
    + done.
    + unfold w1. by cbn.
    + unfold w1. cbn [heap]. apply list_lookup_insert_eq.
      by eapply lookup_lt_Some.
    + exists w'. split; [exact Hrun|]. rewrite Hrec. f_equal.
      unfold h1, set_records. cbn. by rewrite <- app_assoc.
Qed.

(** A forward call with exactly two hooks attached whose callbacks
    return: the first registered is called first. *)
Lemma module_call_two i1 i2 r1 r2 h1 h2 h1' h2' x w :
  r1 ≠ r2 → _forward_hooks w = [(i1, r1); (i2, r2)] →
  heap w !! r1 = Some h1 → heap w !! r2 = Some h2 →
  _recording_forward svd h1 (forward x) = Ok h1' →
  _recording_forward svd h2 (forward x) = Ok h2' →
  module_call svd forward x w
  = ((put r2 h2' (put r1 h1' w).1).1, Ok (forward x)).
Proof.
  intros Hne Htab Hh1 Hh2 Hr1 Hr2. unfold module_call. rewrite Htab.
  cbn [fmap list_fmap snd run_hooks]. unfold bindM, get.
  rewrite Hh1, Hr1. cbn [put heap fst].
  rewrite list_lookup_insert_ne by done. by rewrite Hh2, Hr2.
Qed.

Lemma for_each_two B i1 i2 r1 r2 xs ts1 ts2 h10 h20 :
  1 ≤ B → r1 ≠ r2 →
  Forall2 (λ x a, func svd h10 (forward x) = Ok a ∧ nd_len a = Ok B) xs ts1 →
  Forall2 (λ x a, func svd h20 (forward x) = Ok a ∧ nd_len a = Ok B) xs ts2 →
  ∀ w h1 h2,
    cls h1 = cls h10 → cls h2 = cls h20 →
    _forward_hooks w = [(i1, r1); (i2, r2)] →
    heap w !! r1 = Some h1 → heap w !! r2 = Some h2 →
    ∃ w', for_each svd forward xs w = (w', Ok ())
          ∧ _forward_hooks w' = _forward_hooks w
          ∧ next_id w' = next_id w
          ∧ heap w' !! r1
            = Some (set_records h1
                      (_records h1 ++ concat (records_of_call B <$> ts1)))
          ∧ heap w' !! r2
            = Some (set_records h2
                      (_records h2 ++ concat (records_of_call B <$> ts2))).
Proof.
  intros HB Hne Hall1. revert ts2.
  induction Hall1 as [|x a1 xs ts1 [Hf1 Hl1] _ IH];
    intros ts2 Hall2 w h1 h2 Hc1 Hc2 Htab Hh1 Hh2.
  - apply Forall2_nil_inv_l in Hall2 as ->.
    exists w. split; [done|]. split; [done|]. split; [done|].
    rewrite Hh1, Hh2. split; f_equal.
    + destruct h1. unfold set_records. cbn. by rewrite app_nil_r.
    + destruct h2. unfold set_records. cbn. by rewrite app_nil_r.
  - apply Forall2_cons_inv_l in Hall2 as (a2 & ts2' & [Hf2 Hl2] & Hall2 & ->).
    assert (Hf1' : func svd h1 (forward x) = Ok a1).
    { rewrite <- Hf1. unfold func. by rewrite Hc1. }
    assert (Hf2' : func svd h2 (forward x) = Ok a2).
    { rewrite <- Hf2. unfold func. by rewrite Hc2. }
    set (h1' := set_records h1 (_records h1 ++ records_of_call B a1)).
    set (h2' := set_records h2 (_records h2 ++ records_of_call B a2)).
    cbn [for_each]. unfold bindM.
    rewrite (module_call_two i1 i2 r1 r2 h1 h2 h1' h2' x w Hne Htab Hh1 Hh2
               (recording_forward_batch svd h1 (forward x) a1 B Hf1' Hl1 HB)
               (recording_forward_batch svd h2 (forward x) a2 B Hf2' Hl2 HB)).
    cbn [fst put heap _forward_hooks next_id].
    set (w1 := {| _forward_hooks := _forward_hooks w |}).
    assert (Hlt1 : r1 < length (heap w)) by by eapply lookup_lt_Some.
    assert (Hlt2 : r2 < length (heap w)) by by eapply lookup_lt_Some.
    destruct (IH ts2' Hall2 w1 h1' h2') as (w' & Hrun & Ht & Hn & Hr1 & Hr2);
      try done.
    + unfold w1. cbn [heap]. rewrite list_lookup_insert_ne by done.
      by apply list_lookup_insert_eq.
    + unfold w1. cbn [heap]. apply list_lookup_insert_eq.
      by rewrite length_insert.
    + exists w'. split; [exact Hrun|]. split; [by rewrite Ht|].
      split; [by rewrite Hn|]. rewrite Hr1, Hr2.
      unfold h1', h2', set_records. cbn. by rewrite <- !app_assoc.
Qed.

Lemma records_spec self h w :
  heap w !! self = Some h → records self w = (w, Ok (_records h)).
Proof. intros Hh. unfold records, bindM, get, retM. by rewrite Hh. Qed.

(** Leaving the scope: the entry of the hook's handle is deleted. *)
Lemma exit_spec self h id w :
  heap w !! self = Some h → _handle h = Some id →
  __exit__ self w
  = ({| _forward_hooks := filter (λ e, e.1 ≠ id) (_forward_hooks w);
        next_id := next_id w; heap := heap w |}, Ok ()).
Proof.
  intros Hh Hid. unfold __exit__, bindM, get. by rewrite Hh, Hid.
Qed.

(** The explain run of [ClsExplainer._explain] from a fresh world, over
    batches for which both transforms return results of leading size
    [B ≥ 1]: it returns the feature vectors and the saliency maps of all
    batches, in batch order, and leaves no hook attached. *)
Lemma explain_records B (data_loader : list X) fvs sms :
  1 ≤ B →
  Forall2 (λ x a, Float <$> FeatureVectorHook_func (forward x) = Ok a
                  ∧ nd_len a = Ok B) data_loader fvs →
  Forall2 (λ x a, U8 <$> EigenCamHook_func svd (forward x) = Ok a
                  ∧ nd_len a = Ok B) data_loader sms →
  ∃ w',
    _explain svd forward data_loader empty_world
    = (w', Ok (concat (records_of_call B <$> fvs),
               concat (records_of_call B <$> sms)))
    ∧ _forward_hooks w' = [].
Proof.
  intros HB Hf Hs.
  destruct (for_each_two B 0 1 0 1 data_loader fvs sms
              (init FeatureVectorHook 0) (init EigenCamHook 0) HB
              ltac:(done) Hf Hs
              {| _forward_hooks := [(0, 0); (1, 1)]; next_id := 2;
                 heap := [set_handle (init FeatureVectorHook 0) (Some 0);
                          set_handle (init EigenCamHook 0) (Some 1)] |}
              (set_handle (init FeatureVectorHook 0) (Some 0))
              (set_handle (init EigenCamHook 0) (Some 1)))
    as (w2 & Hrun & Htab & Hn & Hr1 & Hr2); try done.
  cbn [set_handle init _records app] in Hr1, Hr2.
  unfold _explain, bindM, new, with_, __enter__, bindM,
    register_forward_hook, get, put, retM, empty_world.
  cbn [heap _forward_hooks next_id length app lookup list_lookup
       insert list_insert].
  rewrite Hrun.
  rewrite (records_spec 0 _ w2 Hr1), (records_spec 1 _ w2 Hr2).
  rewrite (exit_spec 1 _ 1 w2 Hr2) by done.
  rewrite (exit_spec 0 _ 0
             {| _forward_hooks := _; next_id := _; heap := heap w2 |} Hr1)
    by done.
  cbn [_forward_hooks _records set_records]. rewrite Htab.
  eexists. split; [reflexivity|]. reflexivity.
Qed.

End Scope.

(* ===================================================================== *)
(** ** Records per call, and the hook after its scope *)
(* ===================================================================== *)

Section HookClaims.
Context {F : Type} {D : Dtype F}.
Variable svd : Tensor F → result (Tensor F).
Context {X : Type}.
Variable forward : X → Output F.
Import Torch Hooks Explainer.

(** C4.  Let the transform's result have leading size [B ≥ 1].  One call
    of the recording callback appends [B] records: for [B > 1] the
    examples of the result in batch order, for [B = 1] the result itself,
    not split.  And a hook, inside its scope around a loop of N forward
    calls whose results all have leading size [B], ends with the records
    of the first call, then those of the second, and so on: N * B new
    records, and the scope returns. *)
Theorem batch_records :
  ∀ B : nat, 1 ≤ B →
    (∀ (h : Hook F) output a,
        func svd h output = Ok a → nd_len a = Ok B →
        _recording_forward svd h output
        = Ok (set_records h (_records h ++ records_of_call B a))
        ∧ length (records_of_call B a) = B)
    ∧ (∀ (w : World F) self (h : Hook F) (xs : list X) ts,
          heap w !! self = Some h → _forward_hooks w = [] →
          Forall2 (λ x a, func svd h (forward x) = Ok a ∧ nd_len a = Ok B)
            xs ts →
          ∃ w' h',
            with_ self (λ _, for_each svd forward xs) w = (w', Ok ())
            ∧ heap w' !! self = Some h'
            ∧ _records h' = _records h ++ concat (records_of_call B <$> ts)
            ∧ length (_records h') = length (_records h) + length xs * B).
Proof.
  intros B HB. split.
  - intros h output a Hf Hl. split.
    + by apply recording_forward_batch.
    + by apply length_records_of_call.
  - intros w self h xs ts Hh Htab Hall.
    assert (Hfresh : ids_fresh w).
    { unfold ids_fresh. rewrite Htab. constructor. }
    rewrite (with_spec (λ _, for_each svd forward xs) self h w Hh Hfresh);
      [|intros w1; eexists; apply for_each_preserved].
    rewrite (enter_spec self h w Hh). cbn [fst].
    set (w1 := {| _forward_hooks := _forward_hooks w ++ _ |}).
    destruct (for_each_single svd forward B (next_id w) self xs ts h HB Hall
                w1 (set_handle h (Some (next_id w))))
      as (w2 & Hrun & Hrec).
    { done. }
    { unfold w1. cbn [_forward_hooks]. by rewrite Htab. }
    { unfold w1. cbn [heap]. apply list_lookup_insert_eq.
      by eapply lookup_lt_Some. }
    rewrite Hrun. cbn [fst snd heap].
    eexists _, _. split; [reflexivity|]. cbn [heap].
    split; [exact Hrec|]. cbn [set_records set_handle _records].
    split; [done|].
    rewrite length_app. f_equal.
    rewrite (length_concat_uniform B).
    + rewrite length_fmap. symmetry. f_equal. by eapply Forall2_length.
    + apply Forall_fmap, Forall_forall. intros a _. simpl.
      by apply length_records_of_call.
Qed.

(** C10.  When the transform's result has leading size 0 the callback
    returns and the hook afterwards holds its earlier records followed by
    one new record, the empty result itself: one record more than
    before, although iterating over that result yields no example.  The
    class, the handle and the index of the hook are unchanged. *)
Theorem empty_batch_one_record :
  ∀ (h : Hook F) output a,
    func svd h output = Ok a → nd_len a = Ok 0 →
    ∃ h', _recording_forward svd h output = Ok h'
          ∧ _records h' = _records h ++ [a]
          ∧ length (_records h') = length (_records h) + 1
          ∧ cls h' = cls h ∧ _handle h' = _handle h
          ∧ _fpn_idx h' = _fpn_idx h
          ∧ nd_iter a = [].
Proof.
  intros h output a Hf Hl.
  exists (set_records h (_records h ++ [a])). split.
  - unfold _recording_forward. by rewrite Hf, result_bind_Ok, Hl.
  - cbn [set_records _records cls _handle _fpn_idx].
    split; [done|]. split; [by rewrite length_app|].
    do 3 (split; [done|]).
    apply nil_length_inv. by apply length_nd_iter.
Qed.

(** C5.  A hook enters its scope around a loop of forward calls, in a
    world where it is not attached yet.  Whatever the loop does, return
    or raise, the result of the scope is that of the loop and the table
    of forward hooks is afterwards what it was before; a later forward
    call leaves the hook object, its records included, as it is and
    returns the forward output, and with no other hook attached it leaves
    the whole world as it is. *)
Theorem detached_hook_is_inert :
  ∀ (w : World F) self (h : Hook F) (xs : list X),
    heap w !! self = Some h → ids_fresh w → self ∉ (_forward_hooks w).*2 →
    let w1 := (__enter__ self w).1 in
    let w' := (with_ self (λ _, for_each svd forward xs) w).1 in
    (with_ self (λ _, for_each svd forward xs) w).2
    = (for_each svd forward xs w1).2
    ∧ _forward_hooks w' = _forward_hooks w
    ∧ (∀ x, heap (module_call svd forward x w').1 !! self = heap w' !! self)
    ∧ (∀ x out, (module_call svd forward x w').2 = Ok out → out = forward x)
    ∧ (_forward_hooks w = [] →
       ∀ x, module_call svd forward x w' = (w', Ok (forward x))).
Proof.
  intros w self h xs Hh Hfresh Hnot w1 w'.
  assert (Hw : with_ self (λ _, for_each svd forward xs) w
               = ({| _forward_hooks := _forward_hooks w;
                     next_id := next_id (for_each svd forward xs w1).1;
                     heap := heap (for_each svd forward xs w1).1 |},
                  (for_each svd forward xs w1).2)).
  { apply (with_spec (λ _, for_each svd forward xs) self h w Hh Hfresh).
    intros w0. eexists. apply for_each_preserved. }
  assert (Htab : _forward_hooks w' = _forward_hooks w).
  { unfold w'. by rewrite Hw. }
  split; [by rewrite Hw|]. split; [exact Htab|]. split; [|split].
  - intros x.
    destruct (module_call_preserved svd forward x w') as (_ & _ & Hc & _).
    apply Hc. by rewrite Htab.
  - intros x out. apply module_call_output.
  - intros Hnil x. apply module_call_unhooked. by rewrite Htab.
Qed.

End HookClaims.

Section HookInstances.
Import Torch Hooks Explainer Inputs.

Lemma batch_records_witness :
  let a : ndarray Binary32.t := U8 (mk [2; 1; 3] [0; 51; 255; 0; 51; 255]%Z) in
  let w : World Binary32.t := (new SaliencyMapHook 0 empty_world).1 in
  let h : Hook Binary32.t := init SaliencyMapHook 0 in
  1 ≤ 2
  ∧ (func svd_fails h (Single batch_of_two) = Ok a
     ∧ nd_len a = Ok 2
     ∧ _recording_forward svd_fails h (Single batch_of_two)
       = Ok (set_records h (_records h ++ records_of_call 2 a))
     ∧ length (records_of_call 2 a) = 2)
  ∧ (heap w !! 0 = Some h
     ∧ _forward_hooks w = []
     ∧ Forall2 (λ x a, func svd_fails h (Single x) = Ok a ∧ nd_len a = Ok 2)
         [batch_of_two; batch_of_two] [a; a]
     ∧ ∃ w' h',
         with_ 0 (λ _, for_each svd_fails Single [batch_of_two; batch_of_two]) w
         = (w', Ok ())
         ∧ heap w' !! 0 = Some h'
         ∧ _records h' = _records h ++ concat (records_of_call 2 <$> [a; a])
         ∧ length (_records h') = length (_records h) + 2 * 2).
Proof.
  intros a w h.
  assert (H1 : 1 ≤ 2) by lia.
  assert (H2 : func svd_fails h (Single batch_of_two) = Ok a)
    by (vm_compute; reflexivity).
  assert (H3 : nd_len a = Ok 2) by reflexivity.
  assert (H4 : heap w !! 0 = Some h) by reflexivity.
  assert (H5 : _forward_hooks w = []) by reflexivity.
  assert (H6 : Forall2 (λ x a, func svd_fails h (Single x) = Ok a
                               ∧ nd_len a = Ok 2)
                 [batch_of_two; batch_of_two] [a; a])
    by (repeat constructor; assumption).
  split; [assumption|]. split.
  - split; [assumption|]. split; [assumption|].
    exact (proj1 (batch_records svd_fails Single 2 H1) h
             (Single batch_of_two) a H2 H3).
  - repeat (split; [assumption|]).
    exact (proj2 (batch_records svd_fails Single 2 H1) w 0 h
             [batch_of_two; batch_of_two] [a; a] H4 H5 H6).
Defined.

Lemma empty_batch_one_record_witness :
  let a : ndarray Binary32.t := U8 (mk [0; 1; 1] []) in
  let r : ndarray Binary32.t := U8 (mk [1; 1] [7%Z]) in
  let h : Hook Binary32.t := mkHook SaliencyMapHook (Some 3) [r] 0 in
  func svd_fails h (Single empty_batch) = Ok a
  ∧ nd_len a = Ok 0
  ∧ ∃ h', _recording_forward svd_fails h (Single empty_batch) = Ok h'
          ∧ _records h' = [r] ++ [a]
          ∧ length (_records h') = length [r] + 1
          ∧ cls h' = SaliencyMapHook ∧ _handle h' = Some 3
          ∧ _fpn_idx h' = 0%Z
          ∧ nd_iter a = [].
Proof.
  intros a r h.
  assert (H1 : func svd_fails h (Single empty_batch) = Ok a) by reflexivity.
  assert (H2 : nd_len a = Ok 0) by reflexivity.
  do 2 (split; [assumption|]).
  exact (empty_batch_one_record svd_fails h (Single empty_batch) a H1 H2).
Defined.

Lemma detached_hook_is_inert_witness :
  let forward : () → Output Binary32.t := λ _, Sequence [] in
  let w : World Binary32.t := (new FeatureVectorHook 0 empty_world).1 in
  let h : Hook Binary32.t := init FeatureVectorHook 0 in
  let w1 := (__enter__ 0 w).1 in
  let w' := (with_ 0 (λ _, for_each svd_fails forward [()]) w).1 in
  heap w !! 0 = Some h ∧ ids_fresh w ∧ (0 ∉ (_forward_hooks w).*2)
  ∧ (with_ 0 (λ _, for_each svd_fails forward [()]) w).2
    = Raise Py.RuntimeError
  ∧ (with_ 0 (λ _, for_each svd_fails forward [()]) w).2
    = (for_each svd_fails forward [()] w1).2
  ∧ _forward_hooks w' = _forward_hooks w
  ∧ (∀ x, heap (module_call svd_fails forward x w').1 !! 0 = heap w' !! 0)
  ∧ (∀ x out, (module_call svd_fails forward x w').2 = Ok out →
              out = forward x)
  ∧ (_forward_hooks w = [] →
     ∀ x, module_call svd_fails forward x w' = (w', Ok (forward x))).
Proof.
  intros forward w h w1 w'.
  assert (H1 : heap w !! 0 = Some h) by reflexivity.
  assert (H2 : ids_fresh w) by constructor.
  assert (H3 : 0 ∉ (_forward_hooks w).*2) by apply not_elem_of_nil.
  assert (H4 : (with_ 0 (λ _, for_each svd_fails forward [()]) w).2
               = Raise Py.RuntimeError) by reflexivity.
  do 4 (split; [assumption|]).
  exact (detached_hook_is_inert svd_fails forward w 0 h [()] H1 H2 H3).
Defined.

(** C1 fails on the code.  The recording callback calls the transform
    with the intercepted output alone, so the channel-averaging transform
    runs with its default index 0 whatever index the hook was constructed
    with.  A hook constructed with index 1 over the pyramid of three
    levels records the byte map of level 0, [0; 51; 255], while the
    transform with index 1, like the transform on level 1 alone, gives
    [255; 0]. *)
Theorem saliency_hook_ignores_index :
  (∀ (F : Type) (D : Dtype F) svd handle recs (idx : Z) (output : Output F),
      func svd (mkHook SaliencyMapHook handle recs idx) output
      = U8 <$> SaliencyMapHook_func output 0)
  ∧ _recording_forward (F:=Binary32.t) svd_fails (init SaliencyMapHook 1)
      (Sequence pyramid)
    = Ok (mkHook SaliencyMapHook None [U8 (mk [1; 1; 3] [0; 51; 255]%Z)] 1)
  ∧ SaliencyMapHook_func (F:=Binary32.t) (Sequence pyramid) 1
    = Ok (mk [1; 1; 2] [255; 0]%Z)
  ∧ SaliencyMapHook_func (F:=Binary32.t)
      (Single (mk [1; 1; 1; 2] (f_of_Z <$> [4; 0]%Z))) 0
    = Ok (mk [1; 1; 2] [255; 0]%Z).
Proof.
  split; [reflexivity|].
  split; [by vm_compute|]. split; by vm_compute.
Qed.

End HookInstances.

(* ===================================================================== *)
(** ** EigenCAM and the decomposition it calls *)
(* ===================================================================== *)

Section EigenCam.
Import Torch Hooks Inputs.

(** The literal 1e-12 in binary32: 9223372 * 2^-63 is a binary32 number
    and 1e-12 lies within half a unit in the last place of it. *)
Lemma binary32_eps_nearest :
  Binary32.eps = S754_finite false 9223372 (-63)
  ∧ valid_binary Binary32.prec Binary32.emax Binary32.eps = true
  ∧ ((2 * 9223372 - 1) * 10 ^ 12 < 2 ^ 64 < (2 * 9223372 + 1) * 10 ^ 12)%Z.
Proof. split; [reflexivity|]. split; [reflexivity|]. lia. Qed.

(** The binary32 activations used above hold binary32 numbers. *)
Lemma inputs_valid_binary32 :
  Forall (λ x, valid_binary Binary32.prec Binary32.emax x = true)
    (data narrow_range32 ++ data unit_range32 ++ data neg_zero_one32
     ++ data constant32
     ++ data (two_flat_channels (F:=Binary32.t))
     ++ data (batch_of_two (F:=Binary32.t))
     ++ concat (data <$> pyramid (F:=Binary32.t))).
Proof. repeat constructor. Qed.

(** EigenCAM has no check of its own: on a 4-D activation with non-empty
    planes it returns whenever the decomposition returns a factor with at
    least one row, and it raises what the decomposition raises. *)
Lemma eigencam_returns_with_svd {F : Type} {D : Dtype F}
    (svd : Tensor F → result (Tensor F)) (x : Tensor F) (bs c h w : nat) :
  shape x = [bs; c; h; w] → 0 < h * w →
  let reshaped_fmap := reshape_transpose12 bs c (h * w) x in
  let centered :=
    sub_rowvec bs (h * w) c reshaped_fmap
      (mean_rows bs (h * w) c reshaped_fmap) in
  (∀ e, svd centered = Raise e →
        EigenCamHook_func svd (Single x) = Raise e)
  ∧ (∀ V V0, svd centered = Ok V → select_dim1_0 V = Ok V0 →
             ∃ out, EigenCamHook_func svd (Single x) = Ok out).
Proof.
  intros Hsh Hk reshaped_fmap centered. split.
  - intros e He. unfold EigenCamHook_func.
    rewrite result_bind_Ok. unfold size4. rewrite Hsh, result_bind_Ok.
    fold reshaped_fmap. fold centered. by rewrite He.
  - intros V V0 HV HV0. unfold EigenCamHook_func.
    rewrite result_bind_Ok. unfold size4. rewrite Hsh, result_bind_Ok.
    fold reshaped_fmap. fold centered.
    rewrite HV, result_bind_Ok, HV0, result_bind_Ok.
    rewrite (normalize_to_uint8_rows bs h w
               (matvec bs (h * w) c centered V0));
      [by eexists|done|apply length_matvec|done].
Qed.

(** With a decomposition that returns, an activation holding NaN gives a
    byte map, not an error. *)
Lemma eigencam_nan_example :
  Py.is_ok (EigenCamHook_func svd_one_channel (Single nan_one32)) = true
  ∧ EigenCamHook_func svd_fails (Single nan_one32) = Raise Py.LinAlgError.
Proof. split; reflexivity. Qed.

(** The normalisation does not absorb the sign of the principal axis.
    For the one-channel activation with values 0 and 1 and its negation,
    both [1] and [-1] are principal axes.  If the decomposition gives the
    same axis for both activations the two byte maps are mirror images;
    if it gives opposite axes they are equal. *)
Lemma eigencam_sign_examples :
  EigenCamHook_func (F:=Binary32.t) svd_one_channel (Single zero_one)
  = Ok (mk [1; 1; 2] [0; 255]%Z)
  ∧ EigenCamHook_func svd_one_channel (Single neg_zero_one32)
    = Ok (mk [1; 1; 2] [255; 0]%Z)
  ∧ EigenCamHook_func svd_one_channel_neg (Single neg_zero_one32)
    = Ok (mk [1; 1; 2] [0; 255]%Z).
Proof. split; [by vm_compute|]. split; by vm_compute. Qed.

End EigenCam.

Section BlocksMore.
Context {A : Type}.
Implicit Types (l : list A).
Import Torch.

(** The blocks of a storage of the right length, put together again. *)
Lemma concat_chunks n k l : concat (chunks n k l) = take (n * k) l.
Proof.
  unfold chunks. induction n as [|n IH]; [done|].
  rewrite seq_S, fmap_app, concat_app, IH. csimpl.
  rewrite app_nil_r. unfold chunk.
  rewrite take_take_drop. f_equal. lia.
Qed.

End BlocksMore.

(** The rows of the matrices of EigenCAM, example by example. *)
Section Layout.
Context {F : Type} {D : Dtype F}.
Import Torch.

Lemma length_column p (rows : list (list F)) :
  length (column p rows) = length rows.
Proof. unfold column. by rewrite length_fmap. Qed.

Lemma length_transpose k (rows : list (list F)) :
  length (transpose k rows) = k.
Proof. unfold transpose. by rewrite length_fmap, length_seq. Qed.

Lemma transpose_uniform k (rows : list (list F)) :
  Forall (λ r, length r = length rows) (transpose k rows).
Proof.
  unfold transpose. apply Forall_fmap, Forall_forall. intros p _.
  apply length_column.
Qed.

Lemma lookup_column p (rows : list (list F)) i r :
  rows !! i = Some r → column p rows !! i = Some (default zero (r !! p)).
Proof. intros H. unfold column. by rewrite list_lookup_fmap, H. Qed.

(** Transposing twice gives the rows back. *)
Lemma transpose_transpose c k (rows : list (list F)) :
  length rows = c → Forall (λ r, length r = k) rows →
  transpose c (transpose k rows) = rows.
Proof.
  intros Hc Hk. apply list_eq. intros i. unfold transpose at 1.
  rewrite list_lookup_fmap.
  destruct (rows !! i) as [r|] eqn:Hi.
  - assert (Hic : i < c) by (rewrite <- Hc; by eapply lookup_lt_Some).
    rewrite lookup_seq_lt by done. simpl. f_equal.
    assert (Hr : length r = k).
    { apply (proj1 (Forall_forall _ _) Hk r). by eapply list_elem_of_lookup_2. }
    apply list_eq. intros p. unfold column, transpose.
    rewrite list_lookup_fmap, list_lookup_fmap.
    destruct (r !! p) as [v|] eqn:Hp.
    + rewrite lookup_seq_lt by (rewrite <- Hr; by eapply lookup_lt_Some).
      simpl. by rewrite (lookup_column p rows i r Hi), Hp.
    + rewrite lookup_seq_ge; [done|].
      apply lookup_ge_None in Hp. lia.
  - rewrite lookup_seq_ge; [done|].
    apply lookup_ge_None in Hi. lia.
Qed.

Lemma length_reshape_transpose12 (bs c k : nat) (x : Tensor F) :
  length (data (reshape_transpose12 bs c k x)) = bs * (k * c).
Proof.
  unfold reshape_transpose12. cbn [data].
  rewrite (length_concat_uniform (k * c)).
  - by rewrite length_fmap, length_seq.
  - apply Forall_fmap, Forall_forall. intros b _. simpl.
    rewrite (length_concat_uniform c).
    + by rewrite length_transpose.
    + eapply Forall_impl; [apply transpose_uniform|].
      intros r Hr. simpl in Hr. by rewrite Hr, length_chunks.
Qed.

Lemma length_mean_rows (bs k c : nat) (m : Tensor F) :
  length (data (mean_rows bs k c m)) = bs * c.
Proof.
  unfold mean_rows. cbn [data].
  rewrite (length_concat_uniform c).
  - by rewrite length_fmap, length_seq.
  - apply Forall_fmap, Forall_forall. intros b _. simpl.
    by rewrite length_fmap, length_transpose.
Qed.

(** The rows of example [b] of the reshaped activation are the columns
    of its channel planes. *)
Lemma reshape_transpose12_rows bs c k (x : Tensor F) b :
  b < bs →
  chunks k c (chunk (k * c) b (data (reshape_transpose12 bs c k x)))
  = transpose k (chunks c k (chunk (c * k) b (data x))).
Proof.
  intros Hb. unfold reshape_transpose12. cbn [data].
  rewrite (chunk_concat (k * c) _ b
             (concat (transpose k (chunks c k (chunk (c * k) b (data x)))))).
  - apply chunks_concat; [apply length_transpose|].
    eapply Forall_impl; [apply transpose_uniform|].
    intros r Hr. simpl in Hr. by rewrite Hr, length_chunks.
  - apply Forall_fmap, Forall_forall. intros i _. simpl.
    rewrite (length_concat_uniform c); [by rewrite length_transpose|].
    eapply Forall_impl; [apply transpose_uniform|].
    intros r Hr. simpl in Hr. by rewrite Hr, length_chunks.
  - by rewrite list_lookup_fmap, lookup_seq_lt.
Qed.

(** The means of example [b], one for each column of its rows. *)
Lemma mean_rows_example bs k c (m : Tensor F) b :
  b < bs →
  chunk c b (data (mean_rows bs k c m))
  = mean <$> transpose c (chunks k c (chunk (k * c) b (data m))).
Proof.
  intros Hb. unfold mean_rows. cbn [data]. apply chunk_concat.
  - apply Forall_fmap, Forall_forall. intros i _. simpl.
    by rewrite length_fmap, length_transpose.
  - by rewrite list_lookup_fmap, lookup_seq_lt.
Qed.

(** The rows of example [b] of the centred matrix. *)
Lemma sub_rowvec_rows bs k c (m v : Tensor F) b :
  b < bs → bs * (k * c) ≤ length (data m) → bs * c ≤ length (data v) →
  chunks k c (chunk (k * c) b (data (sub_rowvec bs k c m v)))
  = (λ row, zip_with f_sub row (chunk c b (data v)))
      <$> chunks k c (chunk (k * c) b (data m)).
Proof.
  intros Hb Hm Hv. unfold sub_rowvec. cbn [data].
  assert (Hrows : ∀ i, i < bs →
            Forall (λ r, length r = c)
              ((λ row, zip_with f_sub row (chunk c i (data v)))
                 <$> chunks k c (chunk (k * c) i (data m)))).
  { intros i Hi. apply Forall_fmap.
    eapply Forall_impl;
      [apply chunks_uniform; rewrite length_chunk; [done|nia]|].
    intros r Hr. simpl in *. rewrite length_zip_with, Hr, length_chunk by nia.
    lia. }
  rewrite (chunk_concat (k * c) _ b
             (concat ((λ row, zip_with f_sub row (chunk c b (data v)))
                        <$> chunks k c (chunk (k * c) b (data m))))).
  - apply chunks_concat; [by rewrite length_fmap, length_chunks|].
    by apply Hrows.
  - apply Forall_fmap, Forall_forall. intros i [_ Hi]%elem_of_seq. simpl.
    rewrite (length_concat_uniform c) by (apply Hrows; lia).
    by rewrite length_fmap, length_chunks.
  - by rewrite list_lookup_fmap, lookup_seq_lt.
Qed.

(** The projections of one example. *)
Lemma matvec_example bs k c (m v : Tensor F) b :
  b < bs →
  chunk k b (data (matvec bs k c m v))
  = (λ row, dot row (chunk c b (data v)))
      <$> chunks k c (chunk (k * c) b (data m)).
Proof.
  intros Hb. unfold matvec. cbn [data]. apply chunk_concat.
  - apply Forall_fmap, Forall_forall. intros i _. simpl.
    by rewrite length_fmap, length_chunks.
  - by rewrite list_lookup_fmap, lookup_seq_lt.
Qed.

(** The projections of example [b], from the channel planes of the
    example: with [planes] the c planes of h * w values and [means] their
    means, the projection of position [p] is the product of the centred
    values of the position with the axis. *)
Lemma projections_example bs c k (x V0 : Tensor F) b :
  b < bs → bs * (c * k) ≤ length (data x) →
  let planes := chunks c k (chunk (c * k) b (data x)) in
  chunk k b (data (projections bs c k x V0))
  = (λ p, dot (zip_with f_sub (column p planes) (mean <$> planes))
              (chunk c b (data V0)))
      <$> seq 0 k.
Proof.
  intros Hb Hx planes. unfold projections, centered_fmap. cbv zeta.
  rewrite matvec_example by done.
  rewrite sub_rowvec_rows;
    [|done|by rewrite length_reshape_transpose12
      |by rewrite length_mean_rows].
  rewrite mean_rows_example by done.
  rewrite reshape_transpose12_rows by done. fold planes.
  rewrite (transpose_transpose c k planes);
    [|apply length_chunks
     |apply chunks_uniform; rewrite length_chunk; [done|nia]].
  unfold transpose. by rewrite <- !list_fmap_compose.
Qed.

(** The axis of example [b]: row 0 of block [b] of the returned
    factor. *)
Lemma select_dim1_0_axis (V : Tensor F) bs c c' b :
  shape V = [bs; c; c'] → 0 < c → b < bs →
  bs * (c * c') ≤ length (data V) →
  ∃ V0, select_dim1_0 V = Ok V0
        ∧ chunk c' b (data V0) = chunk c' 0 (chunk (c * c') b (data V))
        ∧ length (chunk c' b (data V0)) = c'.
Proof.
  intros Hsh Hc Hb Hlen. unfold select_dim1_0. rewrite Hsh.
  destruct (c =? 0) eqn:E; [apply Nat.eqb_eq in E; lia|].
  eexists. split; [reflexivity|]. cbn [data].
  assert (Hrow : ∀ i, i < bs →
            length (chunk c' 0 (chunk (c * c') i (data V))) = c').
  { intros i Hi. apply length_chunk. rewrite length_chunk by nia. nia. }
  assert (Hb' : chunk c' b
                  (concat ((λ i, chunk c' 0 (chunk (c * c') i (data V)))
                             <$> seq 0 bs))
                = chunk c' 0 (chunk (c * c') b (data V))).
  { apply chunk_concat.
    - apply Forall_fmap, Forall_forall. intros i [_ Hi]%elem_of_seq.
      simpl. apply Hrow. lia.
    - by rewrite list_lookup_fmap, lookup_seq_lt. }
  split; [exact Hb'|]. rewrite Hb'. by apply Hrow.
Qed.

End Layout.

Section NonFinite.
Import Torch Hooks Inputs.

(** C8 fails on the code.  The one-channel activations [NaN; 1] and
    [+inf; 1] hold a non-finite value, and with a decomposition that
    returns (here the axis [1]) EigenCAM returns a byte map for each of
    them, the all-zero map, and raises nothing. *)
Lemma eigencam_returns_on_nan :
  S754_nan ∈ data nan_one32
  ∧ EigenCamHook_func svd_one_channel (Single nan_one32)
    = Ok (mk [1; 1; 2] [0; 0]%Z)
  ∧ S754_infinity false ∈ data inf_one32
  ∧ EigenCamHook_func svd_one_channel (Single inf_one32)
    = Ok (mk [1; 1; 2] [0; 0]%Z).
Proof.
  split; [by left|]. split; [by vm_compute|].
  split; [by left|]. by vm_compute.
Qed.

(** A row that holds NaN has NaN as its minimum, and NaN converts to the
    byte 0 in this model: the row's byte map is all zero. *)
Lemma binary32_min_nan_l (b : Binary32.t) : Binary32.min S754_nan b = S754_nan.
Proof. reflexivity. Qed.

Lemma binary32_min_nan_r (a : Binary32.t) : Binary32.min a S754_nan = S754_nan.
Proof. unfold Binary32.min. by destruct a. Qed.

Lemma binary32_foldl_min_nan (r : list Binary32.t) :
  foldl Binary32.min S754_nan r = S754_nan.
Proof. induction r as [|b r IH]; [done|]. exact IH. Qed.

Lemma binary32_reduce_min_nan (row : list Binary32.t) :
  S754_nan ∈ row → reduce f_min row = S754_nan.
Proof.
  destruct row as [|a r]; [by intros ?%elem_of_nil|].
  cbn [reduce f_min Binary32.dtype]. revert a.
  induction r as [|b r IH]; intros a Hin.
  - apply list_elem_of_singleton in Hin. by subst.
  - cbn [foldl]. apply elem_of_cons in Hin as [<-|Hin].
    + rewrite binary32_min_nan_l. apply binary32_foldl_min_nan.
    + apply elem_of_cons in Hin as [<-|Hin].
      * rewrite binary32_min_nan_r. apply binary32_foldl_min_nan.
      * apply IH. by right.
Qed.

Lemma binary32_normalize_row_nan (row : list Binary32.t) :
  S754_nan ∈ row → normalize_row row = replicate (length row) 0%Z.
Proof.
  intros Hin. unfold normalize_row. rewrite (binary32_reduce_min_nan row Hin).
  apply list_eq. intros j. rewrite list_lookup_fmap.
  destruct (row !! j) as [x|] eqn:Hj.
  - rewrite lookup_replicate_2 by (by eapply lookup_lt_Some).
    simpl. f_equal. unfold normalize_pixel.
    cbn [f_sub f_mul f_div f_add f_to_uint8 f_of_Z f_eps Binary32.dtype].
    by destruct x.
  - simpl. symmetry. apply lookup_replicate_None.
    by apply lookup_ge_None in Hj.
Qed.

(** A NaN anywhere in an example reaches every projection of the
    example: it makes the mean of its channel NaN, so the centred value
    of that channel is NaN at every position, and so is every product
    with the axis and every sum of products. *)
Lemma elem_of_concat_rows {A} (x : A) (ls : list (list A)) :
  x ∈ concat ls → ∃ i l, ls !! i = Some l ∧ x ∈ l.
Proof.
  induction ls as [|l ls IH]; simpl; [by intros ?%elem_of_nil|].
  intros [H|H]%elem_of_app.
  - by exists 0, l.
  - destruct (IH H) as (i & l' & Hi & Hx). by exists (S i), l'.
Qed.

Lemma binary32_add_nan_r (a : Binary32.t) : Binary32.add a S754_nan = S754_nan.
Proof. by destruct a. Qed.

Lemma binary32_foldl_add_nan (l : list Binary32.t) :
  foldl Binary32.add S754_nan l = S754_nan.
Proof. induction l as [|b l IH]; [done|]. exact IH. Qed.

Lemma binary32_sum_nan (l : list Binary32.t) : S754_nan ∈ l → sum l = S754_nan.
Proof.
  unfold sum. cbn [f_add Binary32.dtype]. generalize (zero (F:=Binary32.t)).
  induction l as [|b l IH]; intros a Hin; [by apply elem_of_nil in Hin|].
  cbn [foldl]. apply elem_of_cons in Hin as [<-|Hin].
  - rewrite binary32_add_nan_r. apply binary32_foldl_add_nan.
  - by apply IH.
Qed.

Lemma binary32_sub_nan_r (a : Binary32.t) : Binary32.sub a S754_nan = S754_nan.
Proof. by destruct a. Qed.

Lemma nan_reaches_projections (x V0 : Tensor Binary32.t) (bs c k b : nat) :
  b < bs → bs * (c * k) ≤ length (data x) →
  length (chunk c b (data V0)) = c →
  S754_nan ∈ chunk (c * k) b (data x) →
  chunk k b (data (projections bs c k x V0)) = replicate k S754_nan.
Proof.
  intros Hb Hx HV Hnan. rewrite projections_example by done. cbv zeta.
  set (planes := chunks c k (chunk (c * k) b (data x))).
  assert (Hplane : ∃ ch plane, planes !! ch = Some plane ∧ S754_nan ∈ plane).
  { apply elem_of_concat_rows. unfold planes. rewrite concat_chunks.
    rewrite take_ge; [done|]. rewrite length_chunk; [done|nia]. }
  destruct Hplane as (ch & plane & Hch & Hin).
  assert (Hc : ch < c).
  { apply lookup_lt_Some in Hch. unfold planes in Hch.
    by rewrite length_chunks in Hch. }
  apply fmap_seq_const. intros p _. unfold dot.
  apply binary32_sum_nan.
  destruct (lookup_lt_is_Some_2 (chunk c b (data V0)) ch) as [u Hu]; [lia|].
  apply (list_elem_of_lookup_2 _ ch).
  rewrite lookup_zip_with, lookup_zip_with.
  rewrite (lookup_column p planes ch plane Hch).
  rewrite list_lookup_fmap, Hch, Hu. simpl.
  rewrite (binary32_sum_nan plane Hin).
  change (Binary32.div S754_nan _) with S754_nan.
  by rewrite binary32_sub_nan_r.
Qed.

(** C8, amended.  EigenCAM has no finiteness check of its own.  For every
    element type and every 4-D activation with non-empty planes, whatever
    values it holds, NaN and infinities included: it raises what the
    decomposition raises on the centred matrix, and when the
    decomposition returns a factor of sizes (bs, c, c) with c > 0 it
    returns a byte map of sizes (bs, h, w), the map of every example
    being the normalised row of the example's projections on the returned
    axis.  In binary32, an example whose projections hold a NaN gets the
    all-zero map (NaN converts to the byte 0 in this model), and that is
    the case of every example that holds a NaN, whenever the
    decomposition returns a factor of sizes (bs, c, c): invalid values
    are turned into a map, not into an error. *)
Theorem eigencam_no_finiteness_check :
  (∀ (F : Type) (D : Dtype F) (svd : Tensor F → result (Tensor F))
     (x : Tensor F) (bs c h w : nat),
     shape x = [bs; c; h; w] → 0 < h * w →
     let reshaped_fmap := reshape_transpose12 bs c (h * w) x in
     let centered :=
       sub_rowvec bs (h * w) c reshaped_fmap
         (mean_rows bs (h * w) c reshaped_fmap) in
     (∀ e, svd centered = Raise e →
           EigenCamHook_func svd (Single x) = Raise e)
     ∧ (∀ V, svd centered = Ok V → shape V = [bs; c; c] → 0 < c →
          ∃ V0 out,
            select_dim1_0 V = Ok V0
            ∧ EigenCamHook_func svd (Single x) = Ok out
            ∧ shape out = [bs; h; w]
            ∧ ∀ b, b < bs →
                chunk (h * w) b (data out)
                = normalize_row
                    (chunk (h * w) b
                       (data (matvec bs (h * w) c centered V0)))))
  ∧ (∀ (svd : Tensor Binary32.t → result (Tensor Binary32.t))
       (x : Tensor Binary32.t) (bs c h w b : nat) V V0,
       shape x = [bs; c; h; w] → 0 < h * w → b < bs →
       let reshaped_fmap := reshape_transpose12 bs c (h * w) x in
       let centered :=
         sub_rowvec bs (h * w) c reshaped_fmap
           (mean_rows bs (h * w) c reshaped_fmap) in
       svd centered = Ok V → select_dim1_0 V = Ok V0 →
       S754_nan ∈ chunk (h * w) b (data (matvec bs (h * w) c centered V0)) →
       ∃ out, EigenCamHook_func svd (Single x) = Ok out
              ∧ chunk (h * w) b (data out) = replicate (h * w) 0%Z)
  ∧ (∀ (svd : Tensor Binary32.t → result (Tensor Binary32.t))
       (x : Tensor Binary32.t) (bs c h w b : nat) V,
       shape x = [bs; c; h; w] → 0 < h * w → b < bs →
       bs * (c * (h * w)) ≤ length (data x) →
       svd (centered_fmap bs c (h * w) x) = Ok V →
       shape V = [bs; c; c] → bs * (c * c) ≤ length (data V) →
       S754_nan ∈ chunk (c * (h * w)) b (data x) →
       ∃ out, EigenCamHook_func svd (Single x) = Ok out
              ∧ chunk (h * w) b (data out) = replicate (h * w) 0%Z).
Proof.
  assert (Hrun : ∀ (F : Type) (D : Dtype F)
            (svd : Tensor F → result (Tensor F)) (x : Tensor F)
            (bs c h w : nat) V V0,
            shape x = [bs; c; h; w] → 0 < h * w →
            let reshaped_fmap := reshape_transpose12 bs c (h * w) x in
            let centered :=
              sub_rowvec bs (h * w) c reshaped_fmap
                (mean_rows bs (h * w) c reshaped_fmap) in
            svd centered = Ok V → select_dim1_0 V = Ok V0 →
            ∃ out, EigenCamHook_func svd (Single x) = Ok out
                   ∧ shape out = [bs; h; w]
                   ∧ ∀ b, b < bs →
                       chunk (h * w) b (data out)
                       = normalize_row
                           (chunk (h * w) b
                              (data (matvec bs (h * w) c centered V0)))).
  { intros F D svd x bs c h w V V0 Hsh Hk reshaped_fmap centered HV HV0.
    unfold EigenCamHook_func.
    rewrite result_bind_Ok. unfold size4. rewrite Hsh, result_bind_Ok.
    fold reshaped_fmap. fold centered.
    rewrite HV, result_bind_Ok, HV0, result_bind_Ok.
    rewrite (normalize_to_uint8_rows bs h w
               (matvec bs (h * w) c centered V0));
      [|done|apply length_matvec|done].
    eexists. split; [reflexivity|]. split; [done|].
    intros b Hb. cbn [data]. apply chunk_normalized_rows; [|done].
    by rewrite length_matvec. }
  split.
  - intros F D svd x bs c h w Hsh Hk reshaped_fmap centered. split.
    + intros e He. unfold EigenCamHook_func.
      rewrite result_bind_Ok. unfold size4. rewrite Hsh, result_bind_Ok.
      fold reshaped_fmap. fold centered. by rewrite He.
    + intros V HV HshV Hc.
      assert (HV0 : ∃ V0, select_dim1_0 V = Ok V0).
      { unfold select_dim1_0. rewrite HshV.
        destruct (c =? 0) eqn:E; [apply Nat.eqb_eq in E; lia|]. by eexists. }
      destruct HV0 as [V0 HV0].
      destruct (Hrun F D svd x bs c h w V V0 Hsh Hk HV HV0)
        as (out & Hout & Hshape & Hrows).
      by exists V0, out.
  - assert (Hzero : ∀ (svd : Tensor Binary32.t → result (Tensor Binary32.t))
              (x : Tensor Binary32.t) (bs c h w b : nat) V V0,
              shape x = [bs; c; h; w] → 0 < h * w → b < bs →
              svd (centered_fmap bs c (h * w) x) = Ok V →
              select_dim1_0 V = Ok V0 →
              S754_nan
              ∈ chunk (h * w) b (data (projections bs c (h * w) x V0)) →
              ∃ out, EigenCamHook_func svd (Single x) = Ok out
                     ∧ chunk (h * w) b (data out) = replicate (h * w) 0%Z).
    { intros svd x bs c h w b V V0 Hsh Hk Hb HV HV0 Hnan.
      destruct (Hrun _ _ svd x bs c h w V V0 Hsh Hk HV HV0)
        as (out & Hout & _ & Hrows).
      exists out. split; [done|]. rewrite (Hrows b Hb).
      change (matvec bs (h * w) c _ V0)
        with (projections bs c (h * w) x V0).
      rewrite (binary32_normalize_row_nan _ Hnan). f_equal.
      apply length_chunk. unfold projections. rewrite length_matvec. nia. }
    split.
    + intros svd x bs c h w b V V0 Hsh Hk Hb reshaped_fmap centered HV HV0
        Hnan.
      by apply (Hzero svd x bs c h w b V V0).
    + intros svd x bs c h w b V Hsh Hk Hb Hlen HV HshV HlenV Hnan.
      assert (Hc : 0 < c).
      { destruct c as [|c]; [|lia]. by apply elem_of_nil in Hnan. }
      destruct (select_dim1_0_axis V bs c c b HshV Hc Hb HlenV)
        as (V0 & HV0 & _ & Haxis).
      apply (Hzero svd x bs c h w b V V0); try done.
      rewrite (nan_reaches_projections x V0 bs c (h * w) b) by done.
      destruct (h * w) as [|n]; [lia|]. by left.
Qed.

Lemma eigencam_no_finiteness_check_witness :
  let x := nan_one32 in
  let reshaped_fmap := reshape_transpose12 1 1 (1 * 2) x in
  let centered :=
    sub_rowvec 1 (1 * 2) 1 reshaped_fmap (mean_rows 1 (1 * 2) 1 reshaped_fmap) in
  let V : Tensor Binary32.t := mk [1; 1; 1] [Binary32.of_Z 1] in
  let V0 : Tensor Binary32.t := mk [1; 1] [Binary32.of_Z 1] in
  shape x = [1; 1; 1; 2] ∧ 0 < 1 * 2 ∧ 0 < 1
  ∧ svd_fails centered = Raise Py.LinAlgError
  ∧ svd_one_channel centered = Ok V ∧ shape V = [1; 1; 1]
  ∧ select_dim1_0 V = Ok V0
  ∧ S754_nan ∈ chunk (1 * 2) 0 (data (matvec 1 (1 * 2) 1 centered V0))
  ∧ EigenCamHook_func svd_fails (Single x) = Raise Py.LinAlgError
  ∧ (∃ V0 out,
       select_dim1_0 V = Ok V0
       ∧ EigenCamHook_func svd_one_channel (Single x) = Ok out
       ∧ shape out = [1; 1; 2]
       ∧ ∀ b, b < 1 →
           chunk (1 * 2) b (data out)
           = normalize_row
               (chunk (1 * 2) b (data (matvec 1 (1 * 2) 1 centered V0))))
  ∧ (∃ out, EigenCamHook_func svd_one_channel (Single x) = Ok out
            ∧ chunk (1 * 2) 0 (data out) = replicate (1 * 2) 0%Z)
  ∧ 1 * (1 * (1 * 2)) ≤ length (data x)
  ∧ 1 * (1 * 1) ≤ length (data V)
  ∧ S754_nan ∈ chunk (1 * (1 * 2)) 0 (data x)
  ∧ (∃ out, EigenCamHook_func svd_one_channel (Single x) = Ok out
            ∧ chunk (1 * 2) 0 (data out) = replicate (1 * 2) 0%Z).
Proof.
  intros x reshaped_fmap centered V V0.
  assert (H1 : shape x = [1; 1; 1; 2]) by reflexivity.
  assert (H2 : 0 < 1 * 2) by lia.
  assert (H3 : 0 < 1) by lia.
  assert (H4 : svd_fails centered = Raise Py.LinAlgError) by reflexivity.
  assert (H5 : svd_one_channel centered = Ok V) by reflexivity.
  assert (H6 : shape V = [1; 1; 1]) by reflexivity.
  assert (H7 : select_dim1_0 V = Ok V0) by reflexivity.
  assert (H8 : S754_nan
               ∈ chunk (1 * 2) 0 (data (matvec 1 (1 * 2) 1 centered V0)))
    by (vm_compute; left).
  assert (H9 : 1 * (1 * (1 * 2)) ≤ length (data x)) by (simpl; lia).
  assert (H10 : 1 * (1 * 1) ≤ length (data V)) by (simpl; lia).
  assert (H11 : S754_nan ∈ chunk (1 * (1 * 2)) 0 (data x)) by (by left).
  do 8 (split; [assumption|]). split; [|split; [|split]].
  - exact (proj1 (proj1 eigencam_no_finiteness_check _ _ svd_fails
                    x 1 1 1 2 H1 H2) Py.LinAlgError H4).
  - exact (proj2 (proj1 eigencam_no_finiteness_check _ _ svd_one_channel
                    x 1 1 1 2 H1 H2) V H5 H6 H3).
  - exact (proj1 (proj2 eigencam_no_finiteness_check) svd_one_channel
             x 1 1 1 2 0 V V0 H1 H2 H3 H5 H7 H8).
  - do 3 (split; [assumption|]).
    exact (proj2 (proj2 eigencam_no_finiteness_check) svd_one_channel
             x 1 1 1 2 0 V H1 H2 H3 H9 H5 H6 H10 H11).
Defined.

End NonFinite.

(* ===================================================================== *)
(** ** EigenCAM on an activation and on its negation *)
(* ===================================================================== *)

Section Binary32Sign.
Import Binary32.

Lemma same_value_trans a b c :
  same_value a b → same_value b c → same_value a c.
Proof.
  intros [->|[Ha Hb]] [->|[Hb' Hc]]; [by left|by right|by right|by right].
Qed.

Ltac zeros :=
  repeat match goal with
    | H : is_zero ?x = true |- _ =>
        destruct x as [[]| | |]; try discriminate H; clear H
    end.

Ltac same := first [left; reflexivity | right; split; reflexivity].

Lemma same_value_add a a' b b' :
  same_value a a' → same_value b b' → same_value (add a b) (add a' b').
Proof.
  intros [->|[? ?]] [->|[? ?]]; [by left| | |]; zeros;
    try (destruct a' as [[]|[]| |[] m e]);
    try (destruct b' as [[]|[]| |[] m e]); same.
Qed.

Lemma same_value_sub a a' b b' :
  same_value a a' → same_value b b' → same_value (sub a b) (sub a' b').
Proof.
  intros [->|[? ?]] [->|[? ?]]; [by left| | |]; zeros;
    try (destruct a' as [[]|[]| |[] m e]);
    try (destruct b' as [[]|[]| |[] m e]); same.
Qed.

Lemma same_value_mul a a' b b' :
  same_value a a' → same_value b b' → same_value (mul a b) (mul a' b').
Proof.
  intros [->|[? ?]] [->|[? ?]]; [by left| | |]; zeros;
    try (destruct a' as [[]|[]| |[] m e]);
    try (destruct b' as [[]|[]| |[] m e]); same.
Qed.

Lemma same_value_div a a' d :
  same_value a a' → same_value (div a d) (div a' d).
Proof.
  intros [->|[? ?]]; [by left|]. zeros;
    destruct d as [[]|[]| |[] m e]; same.
Qed.

Lemma same_value_compare a a' b b' :
  same_value a a' → same_value b b' → SFcompare a b = SFcompare a' b'.
Proof.
  intros [->|[? ?]] [->|[? ?]]; [done| | |]; zeros;
    try (destruct a' as [[]|[]| |[] m e]);
    try (destruct b' as [[]|[]| |[] m e]); reflexivity.
Qed.

Lemma same_value_min a a' b b' :
  same_value a a' → same_value b b' → same_value (min a b) (min a' b').
Proof.
  intros Ha Hb. unfold min. rewrite (same_value_compare a a' b b' Ha Hb).
  destruct (SFcompare a' b') as [[]|]; done || by left.
Qed.

Lemma same_value_max a a' b b' :
  same_value a a' → same_value b b' → same_value (max a b) (max a' b').
Proof.
  intros Ha Hb. unfold max. rewrite (same_value_compare a a' b b' Ha Hb).
  destruct (SFcompare a' b') as [[]|]; done || by left.
Qed.

Lemma same_value_add_eps d d' : same_value d d' → add d eps = add d' eps.
Proof. intros [->|[? ?]]; [done|]. zeros; reflexivity. Qed.

Lemma same_value_to_uint8 a b : same_value a b → to_uint8 a = to_uint8 b.
Proof. intros [->|[? ?]]; [done|]. zeros; reflexivity. Qed.

(** Rounding does not look at the sign. *)
Lemma binary_round_aux_opp s m e l :
  binary_round_aux prec emax (negb s) m e l
  = SFopp (binary_round_aux prec emax s m e l).
Proof.
  unfold binary_round_aux.
  destruct (shr_fexp prec emax m e l) as [mrs' e'].
  destruct (shr_fexp prec emax _ e' loc_Exact) as [mrs'' e''].
  destruct (shr_m mrs''); [done| |done].
  by destruct (e'' <=? emax - prec)%Z.
Qed.

Lemma binary_round_opp s m e :
  binary_round prec emax (negb s) m e = SFopp (binary_round prec emax s m e).
Proof.
  unfold binary_round. destruct (shl_align m e _) as [mz ez].
  apply binary_round_aux_opp.
Qed.

Lemma binary_normalize_opp z e :
  same_value (binary_normalize prec emax (- z) e false)
             (SFopp (binary_normalize prec emax z e false)).
Proof.
  destruct z as [|p|p]; cbn [Z.opp binary_normalize].
  - by right.
  - left. exact (binary_round_opp false p e).
  - left. exact (binary_round_opp true p e).
Qed.

Lemma SFopp_twice a : SFopp (SFopp a) = a.
Proof. destruct a as [[]|[]| |[] m e]; reflexivity. Qed.

Lemma cond_Zopp_negb s z : cond_Zopp (negb s) z = (- cond_Zopp s z)%Z.
Proof. destruct s; simpl; lia. Qed.

(** Negating both operands negates a sum and a difference, up to the sign
    of a zero result. *)
Lemma add_opp a b :
  same_value (add (SFopp a) (SFopp b)) (SFopp (add a b)).
Proof.
  destruct a as [[]|[]| |sa ma ea], b as [[]|[]| |sb mb eb]; try same.
  unfold add, SFadd, SFopp. cbv zeta. rewrite !cond_Zopp_negb.
  rewrite <- Z.opp_add_distr. apply binary_normalize_opp.
Qed.

Lemma sub_opp a b :
  same_value (sub (SFopp a) (SFopp b)) (SFopp (sub a b)).
Proof.
  destruct a as [[]|[]| |sa ma ea], b as [[]|[]| |sb mb eb]; try same.
  unfold sub, SFsub, SFopp. cbv zeta. rewrite !cond_Zopp_negb.
  replace (- cond_Zopp sa (Z.pos (fst (shl_align ma ea (Z.min ea eb))))
           - - cond_Zopp sb (Z.pos (fst (shl_align mb eb (Z.min ea eb)))))%Z
    with (- (cond_Zopp sa (Z.pos (fst (shl_align ma ea (Z.min ea eb))))
             - cond_Zopp sb (Z.pos (fst (shl_align mb eb (Z.min ea eb))))))%Z
    by lia.
  apply binary_normalize_opp.
Qed.

(** [(-x) - (-y)] is [y - x], bit for bit. *)
Lemma sub_opp_swap x y : sub (SFopp x) (SFopp y) = sub y x.
Proof.
  destruct x as [[]|[]| |sx mx ex], y as [[]|[]| |sy my ey];
    try reflexivity; try (cbn; by rewrite negb_involutive).
  unfold sub, SFsub, SFopp. cbv zeta. rewrite !cond_Zopp_negb.
  rewrite (Z.min_comm ey ex). f_equal. lia.
Qed.

Lemma mul_opp_l a b : mul (SFopp a) b = SFopp (mul a b).
Proof.
  destruct a as [[]|[]| |sa ma ea], b as [[]|[]| |sb mb eb];
    try reflexivity; try (by destruct sa); try (by destruct sb).
  unfold mul, SFmul, SFopp.
  replace (xorb (negb sa) sb) with (negb (xorb sa sb)) by (by destruct sa, sb).
  apply binary_round_aux_opp.
Qed.

Lemma mul_opp_r a b : mul a (SFopp b) = SFopp (mul a b).
Proof.
  destruct a as [[]|[]| |sa ma ea], b as [[]|[]| |sb mb eb];
    try reflexivity; try (by destruct sa); try (by destruct sb).
  unfold mul, SFmul, SFopp.
  replace (xorb sa (negb sb)) with (negb (xorb sa sb)) by (by destruct sa, sb).
  apply binary_round_aux_opp.
Qed.

Lemma div_opp_l a d : div (SFopp a) d = SFopp (div a d).
Proof.
  destruct a as [[]|[]| |sa ma ea], d as [[]|[]| |sd md ed];
    try reflexivity; try (by destruct sa); try (by destruct sd).
  unfold div, SFdiv, SFopp.
  destruct (SFdiv_core_binary prec emax (Z.pos ma) ea (Z.pos md) ed)
    as [[mz ez] lz].
  replace (xorb (negb sa) sd) with (negb (xorb sa sd)) by (by destruct sa, sd).
  apply binary_round_aux_opp.
Qed.

Lemma compare_opp a b :
  SFcompare (SFopp a) (SFopp b) = CompOpp <$> SFcompare a b.
Proof.
  destruct a as [[]|[]| |sa ma ea], b as [[]|[]| |sb mb eb];
    try reflexivity; try (by destruct sa); try (by destruct sb).
  destruct sa, sb; cbn; try reflexivity.
  - destruct (ea ?= eb)%Z; try reflexivity.
    by rewrite CompOpp_involutive.
  - by destruct (ea ?= eb)%Z.
Qed.

Lemma min_opp a b : min (SFopp a) (SFopp b) = SFopp (max a b).
Proof.
  unfold min, max. rewrite compare_opp.
  by destruct (SFcompare a b) as [[]|].
Qed.

Lemma max_opp a b : max (SFopp a) (SFopp b) = SFopp (min a b).
Proof.
  unfold min, max. rewrite compare_opp.
  by destruct (SFcompare a b) as [[]|].
Qed.

End Binary32Sign.

(** Relations between the elements of two tensors are carried through
    the operations of the transforms. *)
Section Related.
Import Torch.

Lemma Forall2_chunk {A B} (R : A → B → Prop) k i l l' :
  Forall2 R l l' → Forall2 R (chunk k i l) (chunk k i l').
Proof. intros H. unfold chunk. by apply Forall2_take, Forall2_drop. Qed.

Lemma Forall2_chunks {A B} (R : A → B → Prop) n k l l' :
  Forall2 R l l' → Forall2 (Forall2 R) (chunks n k l) (chunks n k l').
Proof.
  intros H. unfold chunks.
  apply Forall2_fmap, Forall_Forall2_diag, Forall_forall.
  intros i _. by apply Forall2_chunk.
Qed.

Lemma Forall2_concat_rows {A B} (R : A → B → Prop) ls ls' :
  Forall2 (Forall2 R) ls ls' → Forall2 R (concat ls) (concat ls').
Proof. induction 1; simpl; [constructor|by apply Forall2_app]. Qed.

Lemma Forall2_zip_with_rel {A A' B B' C C'} (R1 : A → A' → Prop)
    (R2 : B → B' → Prop) (R3 : C → C' → Prop)
    (f : A → B → C) (g : A' → B' → C') l l' k k' :
  (∀ a a' b b', R1 a a' → R2 b b' → R3 (f a b) (g a' b')) →
  Forall2 R1 l l' → Forall2 R2 k k' →
  Forall2 R3 (zip_with f l k) (zip_with g l' k').
Proof.
  intros Hf Hl. revert k k'.
  induction Hl as [|a a' l l' Ha _ IH]; intros k k' Hk; [constructor|].
  destruct Hk as [|b b' k k' Hb Hk]; simpl; [constructor|].
  constructor; [by apply Hf|by apply IH].
Qed.

Lemma fmap_eq_Forall2 {A B C} (f : A → C) (g : B → C) l k :
  Forall2 (λ a b, f a = g b) l k → f <$> l = g <$> k.
Proof. induction 1 as [|a b l k H _ IH]; csimpl; [done|]. by rewrite H, IH. Qed.

Context {F : Type} {D : Dtype F}.

Section OneRelation.
Variable R : F → F → Prop.
Hypothesis R_zero : R zero zero.

Lemma Forall2_column p rows rows' :
  Forall2 (Forall2 R) rows rows' →
  Forall2 R (column p rows) (column p rows').
Proof.
  intros H. unfold column. apply Forall2_fmap.
  eapply Forall2_impl; [exact H|]. intros r r' Hr. simpl.
  destruct (proj1 (Forall2_lookup _ _ _) Hr p); simpl; done.
Qed.

Lemma Forall2_transpose k rows rows' :
  Forall2 (Forall2 R) rows rows' →
  Forall2 (Forall2 R) (transpose k rows) (transpose k rows').
Proof.
  intros H. unfold transpose.
  apply Forall2_fmap, Forall_Forall2_diag, Forall_forall.
  intros p _. by apply Forall2_column.
Qed.

Lemma related_reshape_transpose12 bs c k (x' x : Tensor F) :
  Forall2 R (data x') (data x) →
  Forall2 R (data (reshape_transpose12 bs c k x'))
            (data (reshape_transpose12 bs c k x)).
Proof.
  intros H. unfold reshape_transpose12. cbn [data].
  apply Forall2_concat_rows, Forall2_fmap, Forall_Forall2_diag, Forall_forall.
  intros b _.
  by apply Forall2_concat_rows, Forall2_transpose, Forall2_chunks,
    Forall2_chunk.
Qed.

Hypothesis R_add : ∀ a' a b' b, R a' a → R b' b → R (f_add a' b') (f_add a b).

Lemma related_foldl_add l' l a' a :
  R a' a → Forall2 R l' l → R (foldl f_add a' l') (foldl f_add a l).
Proof.
  intros Ha Hl. revert a' a Ha.
  induction Hl as [|b' b l' l Hb _ IH]; intros a' a Ha; [done|].
  cbn [foldl]. apply IH. by apply R_add.
Qed.

Lemma related_sum l' l : Forall2 R l' l → R (sum l') (sum l).
Proof. intros H. unfold sum. by apply related_foldl_add. Qed.

Hypothesis R_div : ∀ a' a d, R a' a → R (f_div a' d) (f_div a d).

Lemma related_mean l' l : Forall2 R l' l → R (mean l') (mean l).
Proof.
  intros H. unfold mean. rewrite (Forall2_length _ _ _ H).
  by apply R_div, related_sum.
Qed.

Lemma related_mean_rows bs k c (m' m : Tensor F) :
  Forall2 R (data m') (data m) →
  Forall2 R (data (mean_rows bs k c m')) (data (mean_rows bs k c m)).
Proof.
  intros H. unfold mean_rows. cbn [data].
  apply Forall2_concat_rows, Forall2_fmap, Forall_Forall2_diag, Forall_forall.
  intros b _. apply Forall2_fmap.
  eapply Forall2_impl;
    [by apply Forall2_transpose, Forall2_chunks, Forall2_chunk|].
  intros col' col Hcol. by apply related_mean.
Qed.

Hypothesis R_sub : ∀ a' a b' b, R a' a → R b' b → R (f_sub a' b') (f_sub a b).

Lemma related_sub_rowvec bs k c (m' m v' v : Tensor F) :
  Forall2 R (data m') (data m) → Forall2 R (data v') (data v) →
  Forall2 R (data (sub_rowvec bs k c m' v')) (data (sub_rowvec bs k c m v)).
Proof.
  intros Hm Hv. unfold sub_rowvec. cbn [data].
  apply Forall2_concat_rows, Forall2_fmap, Forall_Forall2_diag, Forall_forall.
  intros b _. apply Forall2_concat_rows, Forall2_fmap.
  eapply Forall2_impl; [by apply Forall2_chunks, Forall2_chunk|].
  intros row' row Hrow. simpl.
  apply (Forall2_zip_with_rel R R R); [by intros; apply R_sub|done|].
  by apply Forall2_chunk.
Qed.

(** The matrix of EigenCAM for related activations. *)
Lemma related_centered_fmap bs c k (x' x : Tensor F) :
  Forall2 R (data x') (data x) →
  Forall2 R (data (centered_fmap bs c k x')) (data (centered_fmap bs c k x)).
Proof.
  intros H. unfold centered_fmap. cbv zeta.
  apply related_sub_rowvec; [by apply related_reshape_transpose12|].
  by apply related_mean_rows, related_reshape_transpose12.
Qed.

End OneRelation.

Lemma related_projections (R1 R2 R3 : F → F → Prop) bs k c
    (m' m v' v : Tensor F) b :
  R3 zero zero →
  (∀ a' a b' b, R3 a' a → R3 b' b → R3 (f_add a' b') (f_add a b)) →
  (∀ a' a u' u, R1 a' a → R2 u' u → R3 (f_mul a' u') (f_mul a u)) →
  b < bs →
  Forall2 R1 (data m') (data m) →
  Forall2 R2 (chunk c b (data v')) (chunk c b (data v)) →
  Forall2 R3 (chunk k b (data (matvec bs k c m' v')))
             (chunk k b (data (matvec bs k c m v))).
Proof.
  intros Hzero Hadd Hmul Hb Hm Hv. rewrite !matvec_example by done.
  apply Forall2_fmap.
  eapply Forall2_impl; [by apply Forall2_chunks, Forall2_chunk|].
  intros row' row Hrow. simpl. unfold dot.
  apply (related_sum R3 Hzero Hadd).
  by apply (Forall2_zip_with_rel R1 R2 R3).
Qed.

End Related.

Section Negation.
Import Torch Hooks Inputs.

(** C2 fails on the code.  The one-channel activation with the values 0
    and 1 and its negation are centred to [-0.5; 0.5] and [0.5; -0.5];
    [1] is a principal axis of both.  With that axis returned for both,
    EigenCAM gives the byte map [0; 255] for the activation and
    [255; 0] for its negation: the normalisation mirrors the map, it does
    not absorb the sign. *)
Lemma eigencam_negation_mirrors_map :
  data (centered_fmap 1 1 2 zero_one)
  = [S754_finite true 8388608 (-24); S754_finite false 8388608 (-24)]
  ∧ data (centered_fmap 1 1 2 (negate zero_one))
    = [S754_finite false 8388608 (-24); S754_finite true 8388608 (-24)]
  ∧ svd_one_channel (centered_fmap (F:=Binary32.t) 1 1 2 zero_one)
    = Ok (mk [1; 1; 1] [Binary32.of_Z 1])
  ∧ svd_one_channel (centered_fmap 1 1 2 (negate zero_one))
    = Ok (mk [1; 1; 1] [Binary32.of_Z 1])
  ∧ EigenCamHook_func (F:=Binary32.t) svd_one_channel (Single zero_one)
    = Ok (mk [1; 1; 2] [0; 255]%Z)
  ∧ EigenCamHook_func svd_one_channel (Single (negate zero_one))
    = Ok (mk [1; 1; 2] [255; 0]%Z).
Proof.
  split; [by vm_compute|]. split; [by vm_compute|].
  split; [reflexivity|]. split; [reflexivity|].
  split; by vm_compute.
Qed.

(** Rows that hold the same values have the same byte map. *)
Lemma reduce_same_value (op : Binary32.t → Binary32.t → Binary32.t)
    (p' p : list Binary32.t) :
  (∀ a a' b b', same_value a a' → same_value b b' →
                same_value (op a b) (op a' b')) →
  Forall2 same_value p' p → same_value (reduce op p') (reduce op p).
Proof.
  intros Hop Hp. destruct Hp as [|a' a r' r Ha Hr]; [by left|].
  cbn [reduce]. revert a' a Ha.
  induction Hr as [|b' b r' r Hb _ IH]; intros a' a Ha; [done|].
  cbn [foldl]. apply IH. by apply Hop.
Qed.

Lemma normalize_pixel_same_value (lo' lo hi' hi x' x : Binary32.t) :
  same_value lo' lo → same_value hi' hi → same_value x' x →
  normalize_pixel lo' hi' x' = normalize_pixel lo hi x.
Proof.
  intros Hlo Hhi Hx. unfold normalize_pixel.
  cbn [f_sub f_mul f_div f_add f_to_uint8 f_of_Z f_eps Binary32.dtype].
  apply same_value_to_uint8.
  rewrite (same_value_add_eps (Binary32.sub hi' lo') (Binary32.sub hi lo))
    by (by apply same_value_sub).
  apply same_value_div, same_value_mul; [by left|].
  by apply same_value_sub.
Qed.

Lemma normalize_row_same_value (p' p : list Binary32.t) :
  Forall2 same_value p' p → normalize_row p' = normalize_row p.
Proof.
  intros Hp. unfold normalize_row. apply fmap_eq_Forall2.
  eapply Forall2_impl; [exact Hp|]. intros x' x Hx.
  apply normalize_pixel_same_value; [| |done].
  - apply reduce_same_value; [|done].
    intros. by apply same_value_min.
  - apply reduce_same_value; [|done].
    intros. by apply same_value_max.
Qed.

(** The byte map of a negated row is the mirror image of the byte map of
    the row. *)
Lemma foldl_min_opp (r : list Binary32.t) (a : Binary32.t) :
  foldl Binary32.min (SFopp a) (SFopp <$> r)
  = SFopp (foldl Binary32.max a r).
Proof.
  revert a. induction r as [|b r IH]; intros a; csimpl; [done|].
  by rewrite min_opp, IH.
Qed.

Lemma foldl_max_opp (r : list Binary32.t) (a : Binary32.t) :
  foldl Binary32.max (SFopp a) (SFopp <$> r)
  = SFopp (foldl Binary32.min a r).
Proof.
  revert a. induction r as [|b r IH]; intros a; csimpl; [done|].
  by rewrite max_opp, IH.
Qed.

Lemma normalize_row_opp (p : list Binary32.t) :
  normalize_row (SFopp <$> p) = mirror_row p.
Proof.
  destruct p as [|a r]; [done|].
  unfold normalize_row, mirror_row.
  change (SFopp <$> a :: r) with (SFopp a :: (SFopp <$> r)).
  cbn [reduce f_min f_max Binary32.dtype].
  rewrite foldl_min_opp, foldl_max_opp.
  change (SFopp a :: (SFopp <$> r)) with (SFopp <$> a :: r).
  rewrite <- list_fmap_compose. apply list_fmap_ext. intros j x _.
  cbn [compose]. unfold normalize_pixel, mirror_pixel.
  cbn [f_sub f_mul f_div f_add f_to_uint8 f_of_Z f_eps Binary32.dtype].
  by rewrite !sub_opp_swap.
Qed.

Lemma negated_zero : negated (zero (F:=Binary32.t)) zero.
Proof. by right. Qed.

Lemma negated_add a' a b' b :
  negated a' a → negated b' b →
  negated (Binary32.add a' b') (Binary32.add a b).
Proof.
  intros Ha Hb. eapply same_value_trans; [|apply add_opp].
  by apply same_value_add.
Qed.

Lemma negated_sub a' a b' b :
  negated a' a → negated b' b →
  negated (Binary32.sub a' b') (Binary32.sub a b).
Proof.
  intros Ha Hb. eapply same_value_trans; [|apply sub_opp].
  by apply same_value_sub.
Qed.

Lemma negated_div a' a d :
  negated a' a → negated (Binary32.div a' d) (Binary32.div a d).
Proof.
  intros Ha. unfold negated. rewrite <- div_opp_l. by apply same_value_div.
Qed.

Lemma negated_mul_same a' a u :
  negated a' a → negated (Binary32.mul a' u) (Binary32.mul a u).
Proof.
  intros Ha. unfold negated. rewrite <- mul_opp_l.
  apply same_value_mul; [done|by left].
Qed.

Lemma negated_mul_opposite a' a u' u :
  negated a' a → u' = SFopp u →
  same_value (Binary32.mul a' u') (Binary32.mul a u).
Proof.
  intros Ha ->.
  replace (Binary32.mul a u) with (Binary32.mul (SFopp a) (SFopp u))
    by (by rewrite mul_opp_l, mul_opp_r, SFopp_twice).
  apply same_value_mul; [done|by left].
Qed.

(** The matrix handed to the decomposition for [-x] is the negation of
    the one for [x]. *)
Lemma centered_fmap_negate bs c k (x : Tensor Binary32.t) :
  Forall2 negated (data (centered_fmap bs c k (negate x)))
                  (data (centered_fmap bs c k x)).
Proof.
  apply (related_centered_fmap negated).
  - exact negated_zero.
  - exact negated_add.
  - exact negated_div.
  - exact negated_sub.
  - unfold negate, map_t. cbn [data]. apply Forall2_fmap_l.
    apply Forall_Forall2_diag, Forall_forall. intros a _. by left.
Qed.

(** C2, amended.  In binary32, let the decomposition return for the
    centred matrix of a 4-D activation [x] with non-empty planes and for
    that of [-x], and take an example [b] with projections [proj] for
    [x].  EigenCAM returns for both activations, and the byte map of the
    example for [x] is the normalised row of [proj].  If the axis
    returned for the example is the same for [-x] as for [x], the byte
    map for [-x] is the mirror image: pixel by pixel the uint8
    conversion of 255 * (hi - p) / (hi - lo + 1e-12) in place of
    255 * (p - lo) / (hi - lo + 1e-12).  If the axis returned for [-x] is
    the negated axis, the two byte maps are the same.  So the maps of
    [x] and [-x] agree when the decomposition flips the axis with the
    activation, and not because the normalisation absorbs a sign. *)
Theorem eigencam_negation :
  ∀ (svd : Tensor Binary32.t → result (Tensor Binary32.t))
    (x : Tensor Binary32.t) (bs c h w b : nat) (V V0 V' V0' : Tensor Binary32.t),
    shape x = [bs; c; h; w] → 0 < h * w → b < bs →
    svd (centered_fmap bs c (h * w) x) = Ok V →
    select_dim1_0 V = Ok V0 →
    svd (centered_fmap bs c (h * w) (negate x)) = Ok V' →
    select_dim1_0 V' = Ok V0' →
    let proj := chunk (h * w) b (data (projections bs c (h * w) x V0)) in
    ∃ out out',
      EigenCamHook_func svd (Single x) = Ok out
      ∧ EigenCamHook_func svd (Single (negate x)) = Ok out'
      ∧ chunk (h * w) b (data out) = normalize_row proj
      ∧ (chunk c b (data V0') = chunk c b (data V0) →
           chunk (h * w) b (data out') = mirror_row proj)
      ∧ (chunk c b (data V0') = SFopp <$> chunk c b (data V0) →
           chunk (h * w) b (data out') = chunk (h * w) b (data out)).
Proof.
  intros svd x bs c h w b V V0 V' V0' Hsh Hk Hb HV HV0 HV' HV0' proj.
  assert (Hrun : ∀ (y : Tensor Binary32.t) W W0,
            shape y = [bs; c; h; w] →
            svd (centered_fmap bs c (h * w) y) = Ok W →
            select_dim1_0 W = Ok W0 →
            ∃ out, EigenCamHook_func svd (Single y) = Ok out
                   ∧ chunk (h * w) b (data out)
                     = normalize_row
                         (chunk (h * w) b
                            (data (projections bs c (h * w) y W0)))).
  { intros y W W0 Hy HW HW0. unfold EigenCamHook_func.
    rewrite result_bind_Ok. unfold size4. rewrite Hy, result_bind_Ok.
    change (sub_rowvec bs (h * w) c (reshape_transpose12 bs c (h * w) y)
              (mean_rows bs (h * w) c (reshape_transpose12 bs c (h * w) y)))
      with (centered_fmap bs c (h * w) y).
    rewrite HW, result_bind_Ok, HW0, result_bind_Ok.
    rewrite (normalize_to_uint8_rows bs h w
               (matvec bs (h * w) c (centered_fmap bs c (h * w) y) W0));
      [|done|apply length_matvec|done].
    eexists. split; [reflexivity|]. cbn [data]. unfold projections.
    apply chunk_normalized_rows; [|done]. by rewrite length_matvec. }
  destruct (Hrun x V V0 Hsh HV HV0) as (out & Hout & Hrow).
  destruct (Hrun (negate x) V' V0' Hsh HV' HV0') as (out' & Hout' & Hrow').
  exists out, out'. split; [done|]. split; [done|]. split; [done|].
  pose proof (centered_fmap_negate bs c (h * w) x) as Hneg.
  split.
  - intros Hsame. rewrite Hrow'. unfold proj.
    rewrite <- normalize_row_opp. apply normalize_row_same_value.
    apply Forall2_fmap_r. unfold projections.
    apply (related_projections negated eq negated);
      [exact negated_zero|exact negated_add| |done|done|].
    + intros a' a u' u Ha ->. by apply negated_mul_same.
    + rewrite Hsame. apply Forall_Forall2_diag, Forall_forall. by intros.
  - intros Hopp. rewrite Hrow', Hrow. apply normalize_row_same_value.
    unfold projections.
    apply (related_projections negated (λ u' u, u' = SFopp u) same_value);
      [by left| | |done|done|].
    + intros. by apply same_value_add.
    + intros a' a u' u Ha Hu. by apply negated_mul_opposite.
    + rewrite Hopp. apply Forall2_fmap_l.
      apply Forall_Forall2_diag, Forall_forall. by intros.
Qed.

Lemma eigencam_negation_witness :
  let x : Tensor Binary32.t := zero_one in
  let one : Tensor Binary32.t := mk [1; 1; 1] [Binary32.of_Z 1] in
  let one0 : Tensor Binary32.t := mk [1; 1] [Binary32.of_Z 1] in
  let minus : Tensor Binary32.t := mk [1; 1; 1] [Binary32.of_Z (-1)] in
  let minus0 : Tensor Binary32.t := mk [1; 1] [Binary32.of_Z (-1)] in
  shape x = [1; 1; 1; 2] ∧ 0 < 1 * 2 ∧ 0 < 1
  ∧ (svd_one_channel (centered_fmap 1 1 (1 * 2) x) = Ok one
     ∧ select_dim1_0 one = Ok one0
     ∧ svd_one_channel (centered_fmap 1 1 (1 * 2) (negate x)) = Ok one
     ∧ chunk 1 0 (data one0) = chunk 1 0 (data one0)
     ∧ ∃ out out',
         EigenCamHook_func svd_one_channel (Single x) = Ok out
         ∧ EigenCamHook_func svd_one_channel (Single (negate x)) = Ok out'
         ∧ chunk (1 * 2) 0 (data out)
           = normalize_row
               (chunk (1 * 2) 0 (data (projections 1 1 (1 * 2) x one0)))
         ∧ chunk (1 * 2) 0 (data out')
           = mirror_row
               (chunk (1 * 2) 0 (data (projections 1 1 (1 * 2) x one0))))
  ∧ (svd_one_channel_signed (centered_fmap 1 1 (1 * 2) x) = Ok minus
     ∧ select_dim1_0 minus = Ok minus0
     ∧ svd_one_channel_signed (centered_fmap 1 1 (1 * 2) (negate x)) = Ok one
     ∧ chunk 1 0 (data one0) = SFopp <$> chunk 1 0 (data minus0)
     ∧ ∃ out out',
         EigenCamHook_func svd_one_channel_signed (Single x) = Ok out
         ∧ EigenCamHook_func svd_one_channel_signed (Single (negate x))
           = Ok out'
         ∧ chunk (1 * 2) 0 (data out') = chunk (1 * 2) 0 (data out)).
Proof.
  intros x one one0 minus minus0.
  assert (H1 : shape x = [1; 1; 1; 2]) by reflexivity.
  assert (H2 : 0 < 1 * 2) by lia.
  assert (H3 : 0 < 1) by lia.
  assert (H4 : svd_one_channel (centered_fmap 1 1 (1 * 2) x) = Ok one)
    by reflexivity.
  assert (H5 : select_dim1_0 one = Ok one0) by reflexivity.
  assert (H6 : svd_one_channel (centered_fmap 1 1 (1 * 2) (negate x)) = Ok one)
    by reflexivity.
  assert (H7 : chunk 1 0 (data one0) = chunk 1 0 (data one0)) by reflexivity.
  assert (H8 : svd_one_channel_signed (centered_fmap 1 1 (1 * 2) x) = Ok minus)
    by (vm_compute; reflexivity).
  assert (H9 : select_dim1_0 minus = Ok minus0) by reflexivity.
  assert (H10 : svd_one_channel_signed (centered_fmap 1 1 (1 * 2) (negate x))
                = Ok one) by (vm_compute; reflexivity).
  assert (H11 : chunk 1 0 (data one0) = SFopp <$> chunk 1 0 (data minus0))
    by reflexivity.
  do 3 (split; [assumption|]). split.
  - do 4 (split; [assumption|]).
    destruct (eigencam_negation svd_one_channel x 1 1 1 2 0 one one0 one one0
                H1 H2 H3 H4 H5 H6 H5)
      as (out & out' & Hout & Hout' & Hrow & Hsame & _).
    exists out, out'. do 3 (split; [assumption|]). exact (Hsame H7).
  - do 4 (split; [assumption|]).
    destruct (eigencam_negation svd_one_channel_signed x 1 1 1 2 0
                minus minus0 one one0 H1 H2 H3 H8 H9 H10 H5)
      as (out & out' & Hout & Hout' & _ & _ & Hopp).
    exists out, out'. do 2 (split; [assumption|]). exact (Hopp H11).
Defined.

End Negation.

(* ===================================================================== *)
(** ** Examples of a batch are transformed independently *)
(* ===================================================================== *)

Section Independence.
Context {F : Type} {D : Dtype F}.
Import Torch Hooks.

Lemma numel_3 (c h w : nat) : numel [c; h; w] = c * (h * w).
Proof. simpl. lia. Qed.

Lemma shape_example_of (x : Tensor F) bs c h w b :
  shape x = [bs; c; h; w] → shape (example_of b x) = [1; c; h; w].
Proof. intros Hsh. unfold example_of. by rewrite Hsh. Qed.

Lemma data_example_of (x : Tensor F) bs c h w b :
  shape x = [bs; c; h; w] →
  data (example_of b x) = chunk (c * (h * w)) b (data x).
Proof.
  intros Hsh. unfold example_of. rewrite Hsh. cbn [data tail].
  by rewrite numel_3.
Qed.

Lemma chunk_0_chunk (k b : nat) (l : list F) :
  chunk k 0 (chunk k b l) = chunk k b l.
Proof.
  unfold chunk at 1. rewrite Nat.mul_0_l, drop_0. apply take_ge.
  unfold chunk. rewrite length_take. lia.
Qed.

(** The channel average of example [b] is the channel average of the
    batch of one that holds example [b]. *)
Lemma mean_dim1_example (x : Tensor F) bs c h w b :
  shape x = [bs; c; h; w] → b < bs →
  chunk (h * w) b (data (mean_dim1 bs c h w x))
  = data (mean_dim1 1 c h w (example_of b x)).
Proof.
  intros Hsh Hb. unfold mean_dim1. cbn [data].
  rewrite (chunk_concat (h * w) _ b
             (mean <$> transpose (h * w)
                (chunks c (h * w) (chunk (c * (h * w)) b (data x))))).
  - cbn [seq fmap list_fmap concat]. rewrite app_nil_r.
    rewrite (data_example_of x bs c h w b Hsh). by rewrite chunk_0_chunk.
  - apply Forall_fmap, Forall_forall. intros i _. simpl.
    unfold transpose. by rewrite !length_fmap, length_seq.
  - rewrite list_lookup_fmap, lookup_seq_lt by done. done.
Qed.

Lemma SaliencyMapHook_func_length (x : Tensor F) bs c h w i out :
  shape x = [bs; c; h; w] → 0 < h * w →
  SaliencyMapHook_func (Single x) i = Ok out →
  shape out = [bs; h; w] ∧ length (data out) = bs * (h * w).
Proof.
  intros Hsh Hk H.
  rewrite (SaliencyMapHook_func_rows x bs c h w i Hsh Hk) in H.
  assert (E : out = mk [bs; h; w]
                (concat (normalize_row
                   <$> chunks bs (h * w) (data (mean_dim1 bs c h w x)))))
    by congruence.
  rewrite E. split; [done|].
  change (length (concat (normalize_row
            <$> chunks bs (h * w) (data (mean_dim1 bs c h w x))))
          = bs * (h * w)).
  rewrite (length_concat_uniform (h * w)).
  - by rewrite length_fmap, length_chunks.
  - apply Forall_fmap. eapply Forall_impl.
    + apply chunks_uniform. rewrite length_mean_dim1. lia.
    + intros r Hr. simpl. by rewrite length_normalize_row.
Qed.

(** X1.  The channel-averaging transform treats the examples of a batch
    independently: for a 4-D activation with non-empty planes, the byte
    map of example [b] in the result for the batch is the byte map the
    transform returns for the batch of one that holds example [b]
    alone.  Whatever the other examples hold, they do not change it. *)
Theorem saliency_examples_independent (x : Tensor F) (bs c h w b : nat) (i : Z) :
  shape x = [bs; c; h; w] → 0 < h * w → b < bs →
  ∃ out out1,
    SaliencyMapHook_func (Single x) i = Ok out
    ∧ SaliencyMapHook_func (Single (example_of b x)) i = Ok out1
    ∧ shape out1 = [1; h; w]
    ∧ chunk (h * w) b (data out) = data out1.
Proof.
  intros Hsh Hk Hb.
  destruct (SaliencyMapHook_func_example x bs c h w i b Hsh Hk Hb)
    as (out & Hout & _ & Hrow).
  pose proof (shape_example_of x bs c h w b Hsh) as Hsh1.
  destruct (SaliencyMapHook_func_example (example_of b x) 1 c h w i 0 Hsh1 Hk)
    as (out1 & Hout1 & Hshape1 & Hrow1); [lia|].
  exists out, out1. split; [done|]. split; [done|]. split; [done|].
  assert (Hm : chunk (h * w) 0 (data (mean_dim1 1 c h w (example_of b x)))
               = data (mean_dim1 1 c h w (example_of b x))).
  { unfold chunk. rewrite Nat.mul_0_l, drop_0. apply take_ge.
    rewrite length_mean_dim1. lia. }
  rewrite Hm in Hrow1.
  rewrite Hrow, (mean_dim1_example x bs c h w b Hsh Hb), <- Hrow1.
  unfold chunk. rewrite Nat.mul_0_l, drop_0. apply take_ge.
  destruct (SaliencyMapHook_func_length (example_of b x) 1 c h w i out1
              Hsh1 Hk Hout1) as [_ ->]. lia.
Qed.

(** X3.  A pyramid of one level is pooled like the level itself: for a
    4-D activation with non-empty planes the feature-vector transform
    gives the same result on the one-element list as on the tensor. *)
Theorem feature_singleton_sequence (t : Tensor F) (bs c h w : nat) :
  shape t = [bs; c; h; w] → 0 < h → 0 < w →
  FeatureVectorHook_func (Sequence [t]) = FeatureVectorHook_func (Single t).
Proof.
  intros Hsh Hh Hw. unfold FeatureVectorHook_func. cbn [mapM].
  rewrite (adaptive_avg_pool2d_1x1_4d t bs c h w Hsh Hh Hw).
  rewrite !result_bind_Ok. unfold cat1. cbn [shape data forallb].
  unfold cat_compatible. rewrite Nat.eqb_refl.
  rewrite bool_decide_eq_true_2 by done. cbn [andb].
  f_equal. cbn [fmap list_fmap compose shape dim1 sum_list sum_list_with data].
  rewrite Nat.add_0_r. f_equal.
  transitivity (concat (chunks bs c (mean <$> chunks (bs * c) (h * w) (data t)))).
  - f_equal. unfold chunks at 2. apply list_fmap_ext. intros k j _.
    cbn [concat]. rewrite app_nil_r. f_equal. simpl. lia.
  - rewrite concat_chunks. apply take_ge. by rewrite length_pool_data.
Qed.

End Independence.

(* ===================================================================== *)
(** ** Inputs the transforms accept and reject *)
(* ===================================================================== *)

Section InputChecks.
Context {F : Type} {D : Dtype F}.
Import Torch Hooks.

Lemma getitem_nonneg {A} (l : list A) (i : Z) :
  (0 ≤ i < Z.of_nat (length l))%Z →
  ∃ t, l !! Z.to_nat i = Some t ∧ Py.getitem l i = Ok t.
Proof.
  intros Hi. unfold Py.getitem.
  destruct (i <? 0)%Z eqn:E1; [apply Z.ltb_lt in E1; lia|].
  destruct (0 <=? i)%Z eqn:E2; [|apply Z.leb_gt in E2; lia].
  destruct (i <? Z.of_nat (length l))%Z eqn:E3; [|apply Z.ltb_ge in E3; lia].
  destruct (lookup_lt_is_Some_2 l (Z.to_nat i)) as [t Ht]; [lia|].
  exists t. by rewrite Ht.
Qed.

Lemma getitem_negative {A} (l : list A) (i : Z) :
  (- Z.of_nat (length l) ≤ i < 0)%Z →
  ∃ t, l !! Z.to_nat (i + Z.of_nat (length l)) = Some t
       ∧ Py.getitem l i = Ok t.
Proof.
  intros Hi. unfold Py.getitem.
  destruct (i <? 0)%Z eqn:E1; [|apply Z.ltb_ge in E1; lia].
  destruct (0 <=? i + Z.of_nat (length l))%Z eqn:E2;
    [|apply Z.leb_gt in E2; lia].
  destruct (i + Z.of_nat (length l) <? Z.of_nat (length l))%Z eqn:E3;
    [|apply Z.ltb_ge in E3; lia].
  destruct (lookup_lt_is_Some_2 l (Z.to_nat (i + Z.of_nat (length l))))
    as [t Ht]; [lia|].
  exists t. by rewrite Ht.
Qed.

Lemma getitem_out_of_range {A} (l : list A) (i : Z) :
  (Z.of_nat (length l) ≤ i ∨ i < - Z.of_nat (length l))%Z →
  Py.getitem l i = Raise Py.IndexError.
Proof.
  intros Hi. unfold Py.getitem.
  destruct (i <? 0)%Z eqn:E1.
  - apply Z.ltb_lt in E1.
    destruct (0 <=? i + Z.of_nat (length l))%Z eqn:E2; [|done].
    apply Z.leb_le in E2. lia.
  - apply Z.ltb_ge in E1.
    destruct (0 <=? i)%Z eqn:E2; [|done].
    destruct (i <? Z.of_nat (length l))%Z eqn:E3; [|done].
    apply Z.ltb_lt in E3. lia.
Qed.

(** X4.  The channel-averaging transform on a list of [n] tensors with
    index [i]: for [0 ≤ i < n] it is the transform on element [i] alone,
    for [-n ≤ i < 0] the transform on element [n + i] alone (negative
    indices count from the end), and for every other index it raises
    IndexError. *)
Theorem saliency_sequence_index (l : list (Tensor F)) (i : Z) :
  ((0 ≤ i < Z.of_nat (length l))%Z →
     ∃ t, l !! Z.to_nat i = Some t
          ∧ SaliencyMapHook_func (Sequence l) i
            = SaliencyMapHook_func (Single t) i)
  ∧ ((- Z.of_nat (length l) ≤ i < 0)%Z →
       ∃ t, l !! Z.to_nat (i + Z.of_nat (length l)) = Some t
            ∧ SaliencyMapHook_func (Sequence l) i
              = SaliencyMapHook_func (Single t) i)
  ∧ ((Z.of_nat (length l) ≤ i ∨ i < - Z.of_nat (length l))%Z →
       SaliencyMapHook_func (Sequence l) i = Raise Py.IndexError).
Proof.
  split; [|split].
  - intros Hi. destruct (getitem_nonneg l i Hi) as (t & Ht & Hg).
    exists t. split; [done|]. unfold SaliencyMapHook_func. by rewrite Hg.
  - intros Hi. destruct (getitem_negative l i Hi) as (t & Ht & Hg).
    exists t. split; [done|]. unfold SaliencyMapHook_func. by rewrite Hg.
  - intros Hi. unfold SaliencyMapHook_func.
    by rewrite (getitem_out_of_range l i Hi).
Qed.

(** X5.  What the channel-averaging transform rejects: a tensor that
    does not have exactly four dimensions raises ValueError, and a 4-D
    tensor whose planes are empty (h * w = 0) raises IndexError. *)
Theorem saliency_rejected_inputs (x : Tensor F) (i : Z) :
  (length (shape x) ≠ 4 →
     SaliencyMapHook_func (Single x) i = Raise Py.ValueError)
  ∧ (∀ bs c h w, shape x = [bs; c; h; w] → h * w = 0 →
       SaliencyMapHook_func (Single x) i = Raise Py.IndexError).
Proof.
  split.
  - intros Hn. unfold SaliencyMapHook_func. rewrite result_bind_Ok.
    unfold size4.
    destruct (shape x) as [|a [|b [|c [|d [|e sh]]]]]; try done.
  - intros bs c h w Hsh Hk. unfold SaliencyMapHook_func.
    rewrite result_bind_Ok. unfold size4. rewrite Hsh, result_bind_Ok.
    unfold reshape. rewrite length_mean_dim1, numel_2, Nat.eqb_refl.
    rewrite result_bind_Ok.
    unfold normalize_to_uint8, max_lastdim, reduce_lastdim. cbn [shape].
    by rewrite Hk.
Qed.

(** X6.  What EigenCAM rejects before it calls the decomposition: a list
    raises AttributeError and a tensor that does not have exactly four
    dimensions raises ValueError, whatever the decomposition does.  On a
    4-D tensor with non-empty planes it raises exactly what the
    decomposition raises, and it returns a result of sizes (bs, h, w)
    whenever the decomposition returns a factor of sizes (bs, c, c) and
    there is at least one channel. *)
Theorem eigencam_failure_modes (svd : Tensor F → result (Tensor F)) :
  (∀ l, EigenCamHook_func svd (Sequence l) = Raise Py.AttributeError)
  ∧ (∀ x, length (shape x) ≠ 4 →
          EigenCamHook_func svd (Single x) = Raise Py.ValueError)
  ∧ (∀ x bs c h w, shape x = [bs; c; h; w] → 0 < h * w →
       let reshaped_fmap := reshape_transpose12 bs c (h * w) x in
       let centered :=
         sub_rowvec bs (h * w) c reshaped_fmap
           (mean_rows bs (h * w) c reshaped_fmap) in
       (∀ e, svd centered = Raise e →
             EigenCamHook_func svd (Single x) = Raise e)
       ∧ (∀ V, svd centered = Ok V → shape V = [bs; c; c] → 0 < c →
            ∃ out, EigenCamHook_func svd (Single x) = Ok out
                   ∧ shape out = [bs; h; w])).
Proof.
  split; [done|]. split.
  - intros x Hn. unfold EigenCamHook_func. rewrite result_bind_Ok.
    unfold size4.
    destruct (shape x) as [|a [|b [|c [|d [|e sh]]]]]; try done.
  - intros x bs c h w Hsh Hk reshaped_fmap centered.
    destruct (eigencam_returns_with_svd svd x bs c h w Hsh Hk) as [H1 _].
    split; [exact H1|].
    intros V HV HshV Hc.
    assert (HV0 : ∃ V0, select_dim1_0 V = Ok V0).
    { unfold select_dim1_0. rewrite HshV.
      destruct (c =? 0) eqn:E; [apply Nat.eqb_eq in E; lia|]. by eexists. }
    destruct HV0 as [V0 HV0].
    unfold EigenCamHook_func.
    rewrite result_bind_Ok. unfold size4. rewrite Hsh, result_bind_Ok.
    fold reshaped_fmap. fold centered.
    rewrite HV, result_bind_Ok, HV0, result_bind_Ok.
    rewrite (normalize_to_uint8_rows bs h w);
      [|done|apply length_matvec|done].
    by eexists.
Qed.

End InputChecks.

(* ===================================================================== *)
(** ** Records across calls, failures and scopes *)
(* ===================================================================== *)

Section Lifecycle.
Context {F : Type} {D : Dtype F}.
Variable svd : Tensor F → result (Tensor F).
Context {X : Type}.
Variable forward : X → Output F.
Import Torch Hooks Explainer.

Implicit Types (w : World F) (h : Hook F).

(** The callback only appends. *)
Lemma recording_forward_appends h h' output :
  _recording_forward svd h output = Ok h' →
  ∃ new, h' = set_records h (_records h ++ new).
Proof.
  unfold _recording_forward.
  destruct (func svd h output) as [a|e]; [|done]. rewrite result_bind_Ok.
  destruct (nd_len a) as [n|e]; [|done]. rewrite result_bind_Ok.
  destruct (1 <? n); intros [= <-]; by eexists.
Qed.

Lemma recording_forward_raises h output e :
  func svd h output = Raise e → _recording_forward svd h output = Raise e.
Proof. intros H. unfold _recording_forward. by rewrite H. Qed.

Lemma for_each_app xs ys w :
  for_each svd forward (xs ++ ys) w
  = bindM (for_each svd forward xs) (λ _, for_each svd forward ys) w.
Proof.
  revert w. induction xs as [|x xs IH]; intros w; [done|].
  cbn [app for_each]. unfold bindM.
  destruct (module_call svd forward x w) as [w1 [out|e]]; [|done].
  rewrite IH. done.
Qed.

(** A forward call with one hook attached whose transform raises: the
    call raises and the world is as before. *)
Lemma module_call_single_raises id self h x e w :
  _forward_hooks w = [(id, self)] → heap w !! self = Some h →
  func svd h (forward x) = Raise e →
  module_call svd forward x w = (w, Raise e).
Proof.
  intros Htab Hh Hf. unfold module_call. rewrite Htab.
  cbn [fmap list_fmap snd run_hooks]. unfold bindM, get.
  by rewrite Hh, (recording_forward_raises h (forward x) e Hf).
Qed.

(** The loop with one hook attached, up to the first call whose
    transform raises. *)
Lemma for_each_single_raises B id self xs ts x ys e h0 :
  1 ≤ B →
  Forall2 (λ x a, func svd h0 (forward x) = Ok a ∧ nd_len a = Ok B) xs ts →
  func svd h0 (forward x) = Raise e →
  ∀ w h,
    cls h = cls h0 → _forward_hooks w = [(id, self)] →
    heap w !! self = Some h →
    ∃ w', for_each svd forward (xs ++ x :: ys) w = (w', Raise e)
          ∧ _forward_hooks w' = _forward_hooks w
          ∧ heap w' !! self
            = Some (set_records h
                      (_records h ++ concat (records_of_call B <$> ts))).
Proof.
  intros HB Hall Hbad w h Hcls Htab Hh.
  destruct (for_each_single svd forward B id self xs ts h0 HB Hall w h
              Hcls Htab Hh) as (w1 & Hrun & Hrec).
  pose proof (for_each_preserved svd forward xs w) as (Ht1 & _).
  rewrite Hrun in Ht1. cbn [fst] in Ht1.
  rewrite for_each_app. unfold bindM. rewrite Hrun.
  cbn [for_each]. unfold bindM.
  rewrite (module_call_single_raises id self
             (set_records h (_records h ++ concat (records_of_call B <$> ts)))
             x e w1); [|congruence|done|].
  - exists w1. by rewrite Ht1.
  - rewrite <- Hbad. unfold func. cbn [cls set_records]. by rewrite Hcls.
Qed.

(** X7.  A transform that raises in the middle of the loop: when the
    transform returns results of leading size [B ≥ 1] for the batches
    [xs] and raises [e] for the next batch, the scope around the loop
    over [xs], that batch and any further batches raises [e]; the hook is
    detached, and it holds its earlier records followed by the records of
    the batches [xs], nothing of the failing or later batches. *)
Theorem failure_keeps_earlier_records (B : nat) (w : World F) (self : nat)
    (h : Hook F) (xs : list X) (ts : list (ndarray F)) (x : X) (ys : list X)
    (e : Py.exn) :
  1 ≤ B → heap w !! self = Some h → _forward_hooks w = [] →
  Forall2 (λ x a, func svd h (forward x) = Ok a ∧ nd_len a = Ok B) xs ts →
  func svd h (forward x) = Raise e →
  ∃ w' h',
    with_ self (λ _, for_each svd forward (xs ++ x :: ys)) w = (w', Raise e)
    ∧ _forward_hooks w' = []
    ∧ heap w' !! self = Some h'
    ∧ _records h' = _records h ++ concat (records_of_call B <$> ts).
Proof.
  intros HB Hh Htab Hall Hbad.
  assert (Hfresh : ids_fresh w).
  { unfold ids_fresh. rewrite Htab. constructor. }
  rewrite (with_spec (λ _, for_each svd forward (xs ++ x :: ys)) self h w
             Hh Hfresh);
    [|intros w1; eexists; apply for_each_preserved].
  rewrite (enter_spec self h w Hh). cbn [fst].
  set (w1 := {| _forward_hooks := _forward_hooks w ++ _ |}).
  destruct (for_each_single_raises B (next_id w) self xs ts x ys e h HB Hall
              Hbad w1 (set_handle h (Some (next_id w))))
    as (w2 & Hrun & _ & Hrec).
  { done. }
  { unfold w1. cbn [_forward_hooks]. by rewrite Htab. }
  { unfold w1. cbn [heap]. apply list_lookup_insert_eq.
    by eapply lookup_lt_Some. }
  rewrite Hrun. cbn [fst snd].
  eexists _, _. split; [reflexivity|]. cbn [_forward_hooks heap].
  split; [done|]. split; [exact Hrec|]. done.
Qed.

(** Forward hooks only append to the records of the hooks they call. *)
Lemma run_hooks_appends hooks output w r h :
  heap w !! r = Some h →
  ∃ h', heap (run_hooks svd hooks output w).1 !! r = Some h'
        ∧ _records h `prefix_of` _records h'
        ∧ cls h' = cls h ∧ _handle h' = _handle h
        ∧ _fpn_idx h' = _fpn_idx h.
Proof.
  revert w h. induction hooks as [|self rest IH]; intros w h Hh.
  - exists h. split; [exact Hh|done].
  - cbn [run_hooks]. unfold bindM at 1, get.
    destruct (heap w !! self) as [hs|] eqn:Hs;
      [|exists h; split; [exact Hh|done]].
    destruct (_recording_forward svd hs output) as [hs'|e] eqn:Hr;
      [|exists h; split; [exact Hh|done]].
    destruct (recording_forward_appends hs hs' output Hr) as [new ->].
    unfold bindM. cbn [put].
    set (w1 := {| _forward_hooks := _forward_hooks w |}).
    destruct (decide (r = self)) as [->|Hne].
    + rewrite Hs in Hh. injection Hh as ->.
      destruct (IH w1 (set_records h (_records h ++ new)))
        as (h' & Hh' & Hp & Hc & Hd & Hi).
      { unfold w1. cbn [heap]. apply list_lookup_insert_eq.
        by eapply lookup_lt_Some. }
      exists h'. split; [exact Hh'|]. split; [|done].
      etrans; [|exact Hp]. cbn [_records set_records].
      by apply prefix_app_r.
    + destruct (IH w1 h) as (h' & Hh' & Hrest).
      { unfold w1. cbn [heap]. by rewrite list_lookup_insert_ne. }
      by exists h'.
Qed.

(** X8.  Records are append-only.  Whatever hooks are attached and
    whatever the transforms return or raise, a loop of forward calls
    leaves every hook object in place with its earlier records as a
    prefix of its records, and with its class, handle and index
    unchanged; the table of forward hooks and the id counter are
    unchanged as well. *)
Theorem forward_calls_append_only (xs : list X) (w : World F) (r : nat)
    (h : Hook F) :
  heap w !! r = Some h →
  let w' := (for_each svd forward xs w).1 in
  _forward_hooks w' = _forward_hooks w
  ∧ next_id w' = next_id w
  ∧ ∃ h', heap w' !! r = Some h'
          ∧ _records h `prefix_of` _records h'
          ∧ cls h' = cls h ∧ _handle h' = _handle h
          ∧ _fpn_idx h' = _fpn_idx h.
Proof.
  intros Hh w'.
  destruct (for_each_preserved svd forward xs w) as (Ht & Hn & _).
  split; [exact Ht|]. split; [exact Hn|]. unfold w'. clear w' Ht Hn.
  revert w h Hh. induction xs as [|x xs IH]; intros w h Hh.
  - exists h. split; [exact Hh|done].
  - cbn [for_each]. unfold bindM, module_call at 1. unfold bindM.
    destruct (run_hooks_appends (_forward_hooks w).*2 (forward x) w r h Hh)
      as (h1 & Hh1 & Hp1 & Hc1 & Hd1 & Hi1).
    destruct (run_hooks svd (_forward_hooks w).*2 (forward x) w)
      as [w1 [[]|e]]; cbn [fst] in *.
    + destruct (IH w1 h1 Hh1) as (h' & Hh' & Hp & Hc & Hd & Hi).
      exists h'. split; [exact Hh'|]. split; [by etrans|].
      split; [congruence|]. split; congruence.
    + by exists h1.
Qed.

Lemma run_hooks_length hooks output w :
  length (heap (run_hooks svd hooks output w).1) = length (heap w).
Proof.
  revert w. induction hooks as [|self rest IH]; intros w; [done|].
  cbn [run_hooks]. unfold bindM at 1, get.
  destruct (heap w !! self) as [hs|]; [|done].
  destruct (_recording_forward svd hs output) as [hs'|e]; [|done].
  unfold bindM. cbn [put]. rewrite IH. cbn [heap]. by rewrite length_insert.
Qed.

Lemma for_each_appends_length (xs : list X) w :
  length (heap (for_each svd forward xs w).1) = length (heap w).
Proof.
  revert w. induction xs as [|x xs IH]; intros w; [done|].
  cbn [for_each]. unfold bindM, module_call at 1. unfold bindM.
  pose proof (run_hooks_length (_forward_hooks w).*2 (forward x) w) as H.
  destruct (run_hooks svd (_forward_hooks w).*2 (forward x) w)
    as [w1 [[]|e]]; cbn [fst retM] in *; [|done].
  by rewrite IH.
Qed.

End Lifecycle.

(* ===================================================================== *)
(** ** The explain run *)
(* ===================================================================== *)

Section ExplainRun.
Context {F : Type} {D : Dtype F}.
Variable svd : Tensor F → result (Tensor F).
Context {X : Type}.
Variable forward : X → Output F.
Import Torch Hooks Explainer.

Implicit Types (w : World F) (h : Hook F).

(** A scope around a loop whose calls all return results of leading size
    [B ≥ 1], in a world with no hook attached: the world afterwards. *)
Lemma scope_single B w self h (xs : list X) ts :
  1 ≤ B → heap w !! self = Some h → _forward_hooks w = [] →
  Forall2 (λ x a, func svd h (forward x) = Ok a ∧ nd_len a = Ok B) xs ts →
  ∃ w',
    with_ self (λ _, for_each svd forward xs) w = (w', Ok ())
    ∧ _forward_hooks w' = []
    ∧ length (heap w') = length (heap w)
    ∧ heap w' !! self
      = Some (set_records (set_handle h (Some (next_id w)))
                (_records h ++ concat (records_of_call B <$> ts))).
Proof.
  intros HB Hh Htab Hall.
  assert (Hfresh : ids_fresh w).
  { unfold ids_fresh. rewrite Htab. constructor. }
  rewrite (with_spec (λ _, for_each svd forward xs) self h w Hh Hfresh);
    [|intros w1; eexists; apply for_each_preserved].
  rewrite (enter_spec self h w Hh). cbn [fst].
  set (w1 := {| _forward_hooks := _forward_hooks w ++ _ |}).
  destruct (for_each_single svd forward B (next_id w) self xs ts h HB Hall
              w1 (set_handle h (Some (next_id w))))
    as (w2 & Hrun & Hrec).
  { done. }
  { unfold w1. cbn [_forward_hooks]. by rewrite Htab. }
  { unfold w1. cbn [heap]. apply list_lookup_insert_eq.
    by eapply lookup_lt_Some. }
  assert (Hlen : length (heap w2) = length (heap w)).
  { clear -Hrun. pose proof (for_each_appends_length svd forward xs w1) as H.
    rewrite Hrun in H. cbn [fst] in H. rewrite H. unfold w1. cbn [heap].
    by rewrite length_insert. }
  rewrite Hrun. cbn [fst snd].
  eexists. split; [reflexivity|]. cbn [_forward_hooks heap].
  by rewrite Htab.
Qed.

End ExplainRun.

Section ExplainRunResults.
Context {F : Type} {D : Dtype F}.
Variable svd : Tensor F → result (Tensor F).
Context {X : Type}.
Variable forward : X → Output F.
Import Torch Hooks Explainer.

(** The usage pattern of the class docstrings from a fresh world. *)
Lemma record_with_spec B k idx (data_loader : list X) ts :
  1 ≤ B →
  Forall2 (λ x a, func svd (init k idx) (forward x) = Ok a ∧ nd_len a = Ok B)
    data_loader ts →
  (record_with svd forward k idx data_loader empty_world).2
  = Ok (concat (records_of_call B <$> ts)).
Proof.
  intros HB Hall. unfold record_with, bindM at 1, new.
  cbn [heap empty_world app length _forward_hooks next_id].
  destruct (scope_single svd forward B
              {| _forward_hooks := []; next_id := 0; heap := [init k idx] |}
              0 (init k idx) data_loader ts HB) as (w' & Hw & _ & _ & Hrec);
    try done.
  unfold bindM. rewrite Hw.
  by rewrite (records_spec 0 _ w' Hrec).
Qed.

(** X9.  [ClsExplainer._explain] from a fresh world, over batches for
    which both transforms return results of leading size [B ≥ 1]: it
    returns the feature-vector records and the saliency records of all
    batches in batch order, N * B of each for N batches, and leaves no
    forward hook attached.  Each of the two lists is what its hook records
    when it is the only hook attached over the same batches: the two hooks
    do not disturb each other. *)
Theorem explain_run (B : nat) (data_loader : list X)
    (fvs sms : list (ndarray F)) :
  1 ≤ B →
  Forall2 (λ x a, Float <$> FeatureVectorHook_func (forward x) = Ok a
                  ∧ nd_len a = Ok B) data_loader fvs →
  Forall2 (λ x a, U8 <$> EigenCamHook_func svd (forward x) = Ok a
                  ∧ nd_len a = Ok B) data_loader sms →
  ∃ w' feature_vectors saliency_maps,
    _explain svd forward data_loader empty_world
    = (w', Ok (feature_vectors, saliency_maps))
    ∧ _forward_hooks w' = []
    ∧ feature_vectors = concat (records_of_call B <$> fvs)
    ∧ saliency_maps = concat (records_of_call B <$> sms)
    ∧ length feature_vectors = length data_loader * B
    ∧ length saliency_maps = length data_loader * B
    ∧ (record_with svd forward FeatureVectorHook 0 data_loader empty_world).2
      = Ok feature_vectors
    ∧ (record_with svd forward EigenCamHook 0 data_loader empty_world).2
      = Ok saliency_maps.
Proof.
  intros HB Hf Hs.
  destruct (explain_records svd forward B data_loader fvs sms HB Hf Hs)
    as (w' & Hrun & Htab).
  assert (Hlen : ∀ ts : list (ndarray F),
            length ts = length data_loader →
            length (concat (records_of_call B <$> ts))
            = length data_loader * B).
  { intros ts Hl. rewrite (length_concat_uniform B).
    - by rewrite length_fmap, Hl.
    - apply Forall_fmap, Forall_forall. intros a _. simpl.
      by apply length_records_of_call. }
  exists w', (concat (records_of_call B <$> fvs)),
    (concat (records_of_call B <$> sms)).
  split; [exact Hrun|]. split; [exact Htab|]. split; [done|]. split; [done|].
  split; [apply Hlen; symmetry; by eapply Forall2_length|].
  split; [apply Hlen; symmetry; by eapply Forall2_length|].
  split.
  - by apply (record_with_spec B FeatureVectorHook 0).
  - by apply (record_with_spec B EigenCamHook 0).
Qed.

Lemma cat1_shape {A} (ts : list (Tensor A)) (out : Tensor A) :
  cat1 ts = Ok out → shape out ≠ [].
Proof.
  unfold cat1. destruct ts as [|t0 ts]; [done|].
  destruct (shape t0) as [|b [|c rest]]; try done.
  destruct (forallb _ _); [|done]. by intros [= <-].
Qed.

Lemma adaptive_avg_pool2d_1x1_shape (t out : Tensor F) :
  adaptive_avg_pool2d_1x1 t = Ok out → shape out ≠ [].
Proof.
  unfold adaptive_avg_pool2d_1x1.
  destruct (length (shape t) <? 3); [done|]. intros [= <-].
  cbn [shape]. intros E. by apply app_eq_nil in E as [_ ?].
Qed.

(** The callback of a feature-vector hook raises only what its transform
    raises. *)
Lemma feature_recording_ok (h : Hook F) (output : Output F) a :
  cls h = FeatureVectorHook → FeatureVectorHook_func output = Ok a →
  ∃ h', _recording_forward svd h output = Ok h'.
Proof.
  intros Hc Hf. unfold _recording_forward, func. rewrite Hc, Hf.
  cbn [fmap result_fmap Py.bind]. rewrite result_bind_Ok.
  assert (Hs : shape a ≠ []).
  { unfold FeatureVectorHook_func in Hf. destruct output as [t|l].
    - by eapply adaptive_avg_pool2d_1x1_shape.
    - destruct (mapM adaptive_avg_pool2d_1x1 l) as [ps|e]; [|done].
      rewrite result_bind_Ok in Hf. by eapply cat1_shape. }
  unfold nd_len, len. destruct (shape a) as [|n sh]; [done|].
  rewrite result_bind_Ok. destruct (1 <? n); by eexists.
Qed.

(** X10.  [ClsExplainer._explain] fails on a stage that yields a list.
    When the forward output of the first batch is a list of tensors the
    run raises, whatever the later batches are: what the feature-vector
    transform raises if it raises, and otherwise AttributeError, raised
    by the EigenCAM hook, which accepts single tensors only.  Both hooks
    are detached afterwards. *)
Theorem explain_raises_on_lists (x : X) (rest : list X) (l : list (Tensor F)) :
  forward x = Sequence l →
  ∃ w' e,
    _explain svd forward (x :: rest) empty_world = (w', Raise e)
    ∧ _forward_hooks w' = []
    ∧ (∀ e', FeatureVectorHook_func (Sequence l) = Raise e' → e = e')
    ∧ (∀ a, FeatureVectorHook_func (Sequence l) = Ok a →
            e = Py.AttributeError).
Proof.
  intros Hx.
  set (h0 := set_handle (init (F:=F) FeatureVectorHook 0) (Some 0)).
  set (h1 := set_handle (init (F:=F) EigenCamHook 0) (Some 1)).
  set (w1 := {| _forward_hooks := [(0, 0); (1, 1)]; next_id := 2;
                heap := [h0; h1] |}).
  assert (Hcall : ∃ w2 e h0',
            module_call svd forward x w1 = (w2, Raise e)
            ∧ _forward_hooks w2 = [(0, 0); (1, 1)]
            ∧ heap w2 !! 0 = Some h0' ∧ _handle h0' = Some 0
            ∧ heap w2 !! 1 = Some h1
            ∧ (∀ e', FeatureVectorHook_func (Sequence l) = Raise e' → e = e')
            ∧ (∀ a, FeatureVectorHook_func (Sequence l) = Ok a →
                    e = Py.AttributeError)).
  { unfold module_call. rewrite Hx. cbn [_forward_hooks w1].
    cbn [fmap list_fmap snd run_hooks]. unfold bindM, get.
    cbn [heap w1 lookup list_lookup].
    destruct (FeatureVectorHook_func (Sequence l)) as [a|e'] eqn:Hfv.
    - destruct (feature_recording_ok h0 (Sequence l) a) as [h0' Hr];
        [done|done|].
      rewrite Hr. cbn [put heap insert list_insert lookup list_lookup].
      destruct (recording_forward_fields svd h0 h0' (Sequence l) Hr)
        as (_ & Hd & _).
      eexists _, _, h0'. split; [reflexivity|]. cbn [heap _forward_hooks].
      split; [done|]. split; [done|]. split; [by rewrite Hd|].
      split; [done|]. split; [done|]. done.
    - assert (Hr : _recording_forward svd h0 (Sequence l) = Raise e').
      { apply recording_forward_raises. unfold func. cbn [cls h0 set_handle init].
        by rewrite Hfv. }
      rewrite Hr. eexists _, _, h0. split; [reflexivity|].
      split; [done|]. split; [done|]. split; [done|]. split; [done|].
      split; [by intros e'' [= <-]|done]. }
  destruct Hcall as (w2 & e & h0' & Hcall & Htab & Hh0 & Hd0 & Hh1 & He1 & He2).
  exists {| _forward_hooks := []; next_id := next_id w2; heap := heap w2 |}, e.
  split; [|split; [done|split; [exact He1|exact He2]]].
  unfold _explain, bindM, new, with_, __enter__, bindM,
    register_forward_hook, get, put, retM, empty_world.
  cbn [heap _forward_hooks next_id length app lookup list_lookup
       insert list_insert].
  fold h0 h1. fold w1. cbn [for_each]. unfold bindM. rewrite Hcall.
  rewrite (exit_spec 1 h1 1 w2 Hh1) by done.
  rewrite (exit_spec 0 h0' 0
             {| _forward_hooks := _; next_id := _; heap := heap w2 |} Hh0)
    by done.
  cbn [_forward_hooks]. by rewrite Htab.
Qed.

End ExplainRunResults.

(* ===================================================================== *)
(** ** Entering and leaving more than once *)
(* ===================================================================== *)

Section Reentry.
Context {F : Type} {D : Dtype F}.
Variable svd : Tensor F → result (Tensor F).
Context {X : Type}.
Variable forward : X → Output F.
Import Torch Hooks Explainer.

Implicit Types (w : World F) (h : Hook F).

Lemma filter_keep_all (table : list (nat * nat)) (n : nat) :
  Forall (λ e, e.1 < n) table → filter (λ e, e.1 ≠ n) table = table.
Proof.
  induction 1 as [|e table He _ IH]; [done|].
  rewrite filter_cons_True by lia. by rewrite IH.
Qed.

(** X11.  Entering a hook twice without leaving in between registers its
    callback twice, and the handle of the first registration is
    overwritten: leaving removes the second registration only, and
    leaving again changes nothing, so the first registration stays in the
    table of forward hooks. *)
Theorem enter_twice_leaves_a_registration (w : World F) (self : nat)
    (h : Hook F) :
  heap w !! self = Some h → ids_fresh w →
  let w2 := (__enter__ self (__enter__ self w).1).1 in
  let w3 := (__exit__ self w2).1 in
  _forward_hooks w2
  = _forward_hooks w ++ [(next_id w, self); (S (next_id w), self)]
  ∧ _forward_hooks w3 = _forward_hooks w ++ [(next_id w, self)]
  ∧ __exit__ self w3 = (w3, Ok ()).
Proof.
  intros Hh Hfresh.
  rewrite (enter_spec self h w Hh). cbn [fst].
  set (w1 := {| _forward_hooks := _forward_hooks w ++ _ |}).
  assert (Hh1 : heap w1 !! self = Some (set_handle h (Some (next_id w)))).
  { unfold w1. cbn [heap]. apply list_lookup_insert_eq.
    by eapply lookup_lt_Some. }
  rewrite (enter_spec self _ w1 Hh1). cbn [fst].
  set (w2 := {| _forward_hooks := _forward_hooks w1 ++ _ |}).
  assert (Hh2 : heap w2 !! self
                = Some (set_handle (set_handle h (Some (next_id w)))
                          (Some (next_id w1)))).
  { unfold w2. cbn [heap]. apply list_lookup_insert_eq.
    apply lookup_lt_Some in Hh1. done. }
  assert (Hfresh1 : Forall (λ e, e.1 < S (next_id w))
                      (_forward_hooks w ++ [(next_id w, self)])).
  { apply Forall_app. split.
    - eapply Forall_impl; [exact Hfresh|]. intros e He. simpl in *. lia.
    - repeat constructor. }
  cbv zeta. rewrite (exit_spec self _ (next_id w1) w2 Hh2) by done.
  cbn [fst]. unfold w2 at 1 2. cbn [_forward_hooks]. unfold w1 at 1 2 3.
  cbn [_forward_hooks next_id].
  split; [by rewrite <- app_assoc|]. split.
  - exact (filter_fresh_ids (_forward_hooks w ++ [(next_id w, self)])
             (S (next_id w)) self Hfresh1).
  - set (w3 := {| _forward_hooks := filter _ _ |}).
    assert (Hh3 : heap w3 !! self
                  = Some (set_handle (set_handle h (Some (next_id w)))
                            (Some (next_id w1)))) by exact Hh2.
    rewrite (exit_spec self _ (next_id w1) w3 Hh3) by done.
    f_equal. unfold w3. cbn [_forward_hooks next_id heap]. f_equal.
    transitivity (filter (λ e : nat * nat, e.1 ≠ S (next_id w))
                    (_forward_hooks w ++ [(next_id w, self)])).
    + f_equal.
      exact (filter_fresh_ids (_forward_hooks w ++ [(next_id w, self)])
               (S (next_id w)) self Hfresh1).
    + rewrite (filter_keep_all _ (S (next_id w)) Hfresh1).
      symmetry.
      exact (filter_fresh_ids (_forward_hooks w ++ [(next_id w, self)])
               (S (next_id w)) self Hfresh1).
Qed.

(** X12.  Leaving a hook that was never entered raises AttributeError
    (its handle is None) and changes nothing; leaving once more after a
    scope around a loop has ended returns and changes nothing. *)
Theorem exit_outside_a_scope (w : World F) (self : nat) (h : Hook F)
    (xs : list X) :
  heap w !! self = Some h → ids_fresh w →
  (_handle h = None → __exit__ self w = (w, Raise Py.AttributeError))
  ∧ (let w' := (with_ self (λ _, for_each svd forward xs) w).1 in
     __exit__ self w' = (w', Ok ())).
Proof.
  intros Hh Hfresh. split.
  - intros Hn. unfold __exit__, bindM, get. by rewrite Hh, Hn.
  - rewrite (with_spec (λ _, for_each svd forward xs) self h w Hh Hfresh);
      [|intros w0; eexists; apply for_each_preserved].
    rewrite (enter_spec self h w Hh). cbn [fst].
    set (w1 := {| _forward_hooks := _forward_hooks w ++ _ |}).
    destruct (for_each_preserved svd forward xs w1) as (_ & _ & _ & Hd).
    destruct (Hd self (set_handle h (Some (next_id w)))) as (h2 & Hh2 & He & _).
    { unfold w1. cbn [heap]. apply list_lookup_insert_eq.
      by eapply lookup_lt_Some. }
    set (w' := {| _forward_hooks := _forward_hooks w |}).
    assert (Hh' : heap w' !! self = Some h2) by exact Hh2.
    rewrite (exit_spec self h2 (next_id w) w' Hh') by done.
    f_equal. unfold w'. cbn [_forward_hooks next_id heap]. f_equal.
    by apply filter_keep_all.
Qed.

(** X13.  Scopes compose.  When the transform returns results of leading
    size [B ≥ 1] for the batches [xs] and [ys], a scope around the loop
    over [xs] followed by a second scope of the same hook around the loop
    over [ys] leaves the hook with the same records as one scope around
    the loop over [xs ++ ys]: the earlier records, then those of [xs],
    then those of [ys].  No hook is attached afterwards. *)
Theorem two_scopes_record_like_one (B : nat) (w : World F) (self : nat)
    (h : Hook F) (xs ys : list X) (ts us : list (ndarray F)) :
  1 ≤ B → heap w !! self = Some h → _forward_hooks w = [] →
  Forall2 (λ x a, func svd h (forward x) = Ok a ∧ nd_len a = Ok B) xs ts →
  Forall2 (λ x a, func svd h (forward x) = Ok a ∧ nd_len a = Ok B) ys us →
  ∃ w2 w1 h2 h1,
    bindM (with_ self (λ _, for_each svd forward xs))
          (λ _, with_ self (λ _, for_each svd forward ys)) w = (w2, Ok ())
    ∧ with_ self (λ _, for_each svd forward (xs ++ ys)) w = (w1, Ok ())
    ∧ _forward_hooks w2 = [] ∧ _forward_hooks w1 = []
    ∧ heap w2 !! self = Some h2 ∧ heap w1 !! self = Some h1
    ∧ _records h2 = _records h1
    ∧ _records h1
      = _records h ++ concat (records_of_call B <$> ts)
        ++ concat (records_of_call B <$> us).
Proof.
  intros HB Hh Htab Hxs Hys.
  destruct (scope_single svd forward B w self h xs ts HB Hh Htab Hxs)
    as (wa & Hwa & Hta & _ & Hha).
  destruct (scope_single svd forward B wa self _ ys us HB Hha Hta Hys)
    as (wb & Hwb & Htb & _ & Hhb).
  destruct (scope_single svd forward B w self h (xs ++ ys) (ts ++ us) HB Hh
              Htab) as (wc & Hwc & Htc & _ & Hhc).
  { by apply Forall2_app. }
  eexists wb, wc, _, _. unfold bindM. rewrite Hwa.
  split; [exact Hwb|]. split; [exact Hwc|]. split; [done|]. split; [done|].
  split; [exact Hhb|]. split; [exact Hhc|].
  cbn [_records set_records set_handle].
  rewrite fmap_app, concat_app, <- app_assoc. done.
Qed.

End Reentry.

(* ===================================================================== *)
(** ** The sizes of the records, and the black-box loop *)
(* ===================================================================== *)

Section RecordShapes.
Context {F : Type} {D : Dtype F}.
Variable svd : Tensor F → result (Tensor F).
Import Torch Hooks.

(** X14.  The sizes of the saliency records depend on the batch size.
    For a 4-D activation of sizes (bs, c, h, w) with non-empty planes the
    callback of a saliency hook returns; for bs > 1 it appends bs records
    of sizes (h, w), but for a batch of one it appends one record of
    sizes (1, h, w), with the batch dimension kept, and for an empty
    batch one record of sizes (0, h, w). *)
Theorem saliency_record_shapes handle recs idx (x : Tensor F)
    (bs c h w : nat) :
  shape x = [bs; c; h; w] → 0 < h * w →
  ∃ new,
    _recording_forward svd (mkHook SaliencyMapHook handle recs idx) (Single x)
    = Ok (mkHook SaliencyMapHook handle (recs ++ new) idx)
    ∧ (1 < bs → length new = bs ∧ Forall (λ r, nd_shape r = [h; w]) new)
    ∧ (bs ≤ 1 → length new = 1
                ∧ Forall (λ r, nd_shape r = [bs; h; w]) new).
Proof.
  intros Hsh Hk. unfold _recording_forward, func. cbn [cls].
  rewrite (SaliencyMapHook_func_rows x bs c h w 0 Hsh Hk).
  cbn [fmap result_fmap Py.bind]. rewrite result_bind_Ok.
  cbn [nd_len len shape]. rewrite result_bind_Ok.
  destruct (1 <? bs) eqn:E.
  - apply Nat.ltb_lt in E. eexists. split; [reflexivity|]. split; [|lia].
    intros _. cbn [nd_iter unbind shape]. split.
    + by rewrite !length_fmap, length_seq.
    + apply Forall_fmap, Forall_fmap, Forall_forall. by intros j _.
  - apply Nat.ltb_ge in E. eexists. split; [reflexivity|]. split; [lia|].
    intros _. split; [done|]. by repeat constructor.
Qed.

End RecordShapes.

Section BlackboxLoop.
Context {X R : Type}.
Variable explainer : X → result R.
Import Blackbox.

Lemma loop_returns (data_loader : list X) (acc rs : list R) :
  loop explainer data_loader acc = Ok rs
  ↔ ∃ new, rs = acc ++ new
           ∧ Forall2 (λ x r, explainer x = Ok r) data_loader new.
Proof.
  revert acc. induction data_loader as [|x xs IH]; intros acc; cbn [loop].
  - split.
    + intros [= <-]. exists []. split; [by rewrite app_nil_r|constructor].
    + intros (new & -> & Hall). apply Forall2_nil_inv_l in Hall as ->.
      by rewrite app_nil_r.
  - destruct (explainer x) as [r|e] eqn:Hx.
    + rewrite result_bind_Ok, IH. split.
      * intros (new & -> & Hall). exists (r :: new).
        split; [by rewrite <- app_assoc|]. by constructor.
      * intros (new & -> & Hall).
        apply Forall2_cons_inv_l in Hall as (r' & new' & Hr & Hall & ->).
        rewrite Hx in Hr. injection Hr as <-.
        exists new'. split; [by rewrite <- app_assoc|done].
    + split; [done|]. intros (new & _ & Hall).
      apply Forall2_cons_inv_l in Hall as (r' & new' & Hr & _).
      by rewrite Hx in Hr.
Qed.

Lemma loop_raises (data_loader : list X) (acc : list R) (e : Py.exn) :
  loop explainer data_loader acc = Raise e
  ↔ ∃ xs x ys rs, data_loader = xs ++ x :: ys
                  ∧ Forall2 (λ x r, explainer x = Ok r) xs rs
                  ∧ explainer x = Raise e.
Proof.
  revert acc. induction data_loader as [|x xs IH]; intros acc; cbn [loop].
  - split; [done|]. intros (xs & x & ys & rs & Hl & _). by destruct xs.
  - destruct (explainer x) as [r|e'] eqn:Hx.
    + rewrite result_bind_Ok, IH. split.
      * intros (xs' & x' & ys & rs & -> & Hall & Hr).
        exists (x :: xs'), x', ys, (r :: rs). split; [done|].
        split; [by constructor|done].
      * intros (xs' & x' & ys & rs & Hl & Hall & Hr).
        destruct xs' as [|x0 xs']; cbn [app] in Hl; injection Hl as -> ->.
        -- by rewrite Hx in Hr.
        -- apply Forall2_cons_inv_l in Hall as (r' & rs' & _ & Hall & ->).
           by exists xs', x', ys, rs'.
    + split.
      * intros [= <-]. exists [], x, xs, []. split; [done|].
        split; [constructor|done].
      * intros (xs' & x' & ys & rs & Hl & Hall & Hr).
        destruct xs' as [|x0 xs']; cbn [app] in Hl; injection Hl as -> ->.
        -- rewrite Hx in Hr. by injection Hr as ->.
        -- apply Forall2_cons_inv_l in Hall as (r' & rs' & Hr' & _).
           by rewrite Hx in Hr'.
Qed.

(** X15.  The black-box loop of [ClsExplainer._explain_blackbox] keeps one
    result per batch, not per example.  It returns a list exactly when
    the explainer returns for every batch, and the list then holds the
    result of each batch in loader order, as many entries as there are
    batches; it raises [e] exactly when [e] is what the explainer raises
    for the first batch on which it raises. *)
Theorem blackbox_one_result_per_batch (data_loader : list X) :
  (∀ rs, _explain_blackbox explainer data_loader = Ok rs
         ↔ Forall2 (λ x r, explainer x = Ok r) data_loader rs)
  ∧ (∀ rs, _explain_blackbox explainer data_loader = Ok rs →
           length rs = length data_loader)
  ∧ (∀ e, _explain_blackbox explainer data_loader = Raise e
          ↔ ∃ xs x ys rs, data_loader = xs ++ x :: ys
                          ∧ Forall2 (λ x r, explainer x = Ok r) xs rs
                          ∧ explainer x = Raise e).
Proof.
  assert (H1 : ∀ rs, _explain_blackbox explainer data_loader = Ok rs
                     ↔ Forall2 (λ x r, explainer x = Ok r) data_loader rs).
  { intros rs. unfold _explain_blackbox. rewrite loop_returns. split.
    - by intros (new & -> & Hall).
    - intros Hall. by exists rs. }
  split; [exact H1|]. split.
  - intros rs Hrs. apply H1 in Hrs. symmetry. by eapply Forall2_length.
  - intros e. unfold _explain_blackbox. apply loop_raises.
Qed.

End BlackboxLoop.

(* ===================================================================== *)
(** ** Instances *)
(* ===================================================================== *)

Section MoreInstances.
Import Torch Hooks Explainer Inputs Cases.

Lemma saliency_examples_independent_witness :
  let x : Tensor Binary32.t := three_examples in
  shape x = [3; 2; 1; 2] ∧ 0 < 1 * 2 ∧ 1 < 3
  ∧ ∃ out out1,
      SaliencyMapHook_func (Single x) 0 = Ok out
      ∧ SaliencyMapHook_func (Single (example_of 1 x)) 0 = Ok out1
      ∧ shape out1 = [1; 1; 2]
      ∧ chunk (1 * 2) 1 (data out) = data out1.
Proof.
  intros x.
  assert (H1 : shape x = [3; 2; 1; 2]) by reflexivity.
  assert (H2 : 0 < 1 * 2) by lia.
  assert (H3 : 1 < 3) by lia.
  do 3 (split; [assumption|]).
  exact (saliency_examples_independent x 3 2 1 2 1 0 H1 H2 H3).
Defined.

Lemma feature_singleton_sequence_witness :
  let t : Tensor Binary32.t := batch_of_two in
  shape t = [2; 2; 1; 3] ∧ 0 < 1 ∧ 0 < 3
  ∧ FeatureVectorHook_func (Sequence [t]) = FeatureVectorHook_func (Single t).
Proof.
  intros t.
  assert (H1 : shape t = [2; 2; 1; 3]) by reflexivity.
  assert (H2 : 0 < 1) by lia.
  assert (H3 : 0 < 3) by lia.
  do 3 (split; [assumption|]).
  exact (feature_singleton_sequence t 2 2 1 3 H1 H2 H3).
Defined.

Lemma saliency_sequence_index_witness :
  let l : list (Tensor Binary32.t) := pyramid in
  ((0 ≤ 2 < Z.of_nat (length l))%Z
   ∧ ∃ t, l !! Z.to_nat 2 = Some t
          ∧ SaliencyMapHook_func (Sequence l) 2
            = SaliencyMapHook_func (Single t) 2)
  ∧ ((- Z.of_nat (length l) ≤ -1 < 0)%Z
     ∧ ∃ t, l !! Z.to_nat (-1 + Z.of_nat (length l)) = Some t
            ∧ SaliencyMapHook_func (Sequence l) (-1)
              = SaliencyMapHook_func (Single t) (-1))
  ∧ ((Z.of_nat (length l) ≤ 3 ∨ 3 < - Z.of_nat (length l))%Z
     ∧ SaliencyMapHook_func (Sequence l) 3 = Raise Py.IndexError).
Proof.
  intros l.
  assert (H1 : (0 ≤ 2 < Z.of_nat (length l))%Z) by (simpl; lia).
  assert (H2 : (- Z.of_nat (length l) ≤ -1 < 0)%Z) by (simpl; lia).
  assert (H3 : (Z.of_nat (length l) ≤ 3 ∨ 3 < - Z.of_nat (length l))%Z)
    by (simpl; lia).
  split; [split; [assumption|]|split; split; [assumption| |assumption|]].
  - exact (proj1 (saliency_sequence_index l 2) H1).
  - exact (proj1 (proj2 (saliency_sequence_index l (-1))) H2).
  - exact (proj2 (proj2 (saliency_sequence_index l 3)) H3).
Defined.

Lemma saliency_rejected_inputs_witness :
  let x : Tensor Binary32.t := rank3 in
  let y : Tensor Binary32.t := empty_planes in
  (length (shape x) ≠ 4
   ∧ SaliencyMapHook_func (Single x) 0 = Raise Py.ValueError)
  ∧ (shape y = [2; 1; 0; 3] ∧ 0 * 3 = 0
     ∧ SaliencyMapHook_func (Single y) 0 = Raise Py.IndexError).
Proof.
  intros x y.
  assert (H1 : length (shape x) ≠ 4) by (simpl; lia).
  assert (H2 : shape y = [2; 1; 0; 3]) by reflexivity.
  assert (H3 : 0 * 3 = 0) by reflexivity.
  split; [split; [assumption|]|do 2 (split; [assumption|])].
  - exact (proj1 (saliency_rejected_inputs x 0) H1).
  - exact (proj2 (saliency_rejected_inputs y 0) 2 1 0 3 H2 H3).
Defined.

Lemma eigencam_failure_modes_witness :
  let x : Tensor Binary32.t := one_channel_pair in
  let y : Tensor Binary32.t := rank3 in
  let reshaped_fmap := reshape_transpose12 2 1 (1 * 2) x in
  let centered :=
    sub_rowvec 2 (1 * 2) 1 reshaped_fmap
      (mean_rows 2 (1 * 2) 1 reshaped_fmap) in
  let V : Tensor Binary32.t := mk [2; 1; 1] (replicate 2 (f_of_Z 1)) in
  (length (shape y) ≠ 4
   ∧ EigenCamHook_func svd_one_channel (Single y) = Raise Py.ValueError)
  ∧ (shape x = [2; 1; 1; 2] ∧ 0 < 1 * 2
     ∧ svd_fails centered = Raise Py.LinAlgError
     ∧ EigenCamHook_func svd_fails (Single x) = Raise Py.LinAlgError)
  ∧ (svd_one_channel centered = Ok V ∧ shape V = [2; 1; 1] ∧ 0 < 1
     ∧ ∃ out, EigenCamHook_func svd_one_channel (Single x) = Ok out
              ∧ shape out = [2; 1; 2]).
Proof.
  intros x y reshaped_fmap centered V.
  assert (H1 : length (shape y) ≠ 4) by (simpl; lia).
  assert (H2 : shape x = [2; 1; 1; 2]) by reflexivity.
  assert (H3 : 0 < 1 * 2) by lia.
  assert (H4 : svd_fails centered = Raise Py.LinAlgError) by reflexivity.
  assert (H5 : svd_one_channel centered = Ok V) by reflexivity.
  assert (H6 : shape V = [2; 1; 1]) by reflexivity.
  assert (H7 : 0 < 1) by lia.
  split; [split; [assumption|]|split].
  - exact (proj1 (proj2 (eigencam_failure_modes svd_one_channel)) y H1).
  - do 3 (split; [assumption|]).
    exact (proj1 (proj2 (proj2 (eigencam_failure_modes svd_fails))
                    x 2 1 1 2 H2 H3) Py.LinAlgError H4).
  - do 3 (split; [assumption|]).
    exact (proj2 (proj2 (proj2 (eigencam_failure_modes svd_one_channel))
                    x 2 1 1 2 H2 H3) V H5 H6 H7).
Defined.

Lemma failure_keeps_earlier_records_witness :
  let a : ndarray Binary32.t := U8 (mk [2; 1; 3] [0; 51; 255; 0; 51; 255]%Z) in
  let w : World Binary32.t := (new SaliencyMapHook 0 empty_world).1 in
  let h : Hook Binary32.t := init SaliencyMapHook 0 in
  1 ≤ 2 ∧ heap w !! 0 = Some h ∧ _forward_hooks w = []
  ∧ Forall2 (λ x a, func svd_fails h (Single x) = Ok a ∧ nd_len a = Ok 2)
      [batch_of_two] [a]
  ∧ func svd_fails h (Single rank3) = Raise Py.ValueError
  ∧ ∃ w' h',
      with_ 0 (λ _, for_each svd_fails Single
                      ([batch_of_two] ++ rank3 :: [batch_of_two])) w
      = (w', Raise Py.ValueError)
      ∧ _forward_hooks w' = []
      ∧ heap w' !! 0 = Some h'
      ∧ _records h' = _records h ++ concat (records_of_call 2 <$> [a]).
Proof.
  intros a w h.
  assert (H1 : 1 ≤ 2) by lia.
  assert (H2 : heap w !! 0 = Some h) by reflexivity.
  assert (H3 : _forward_hooks w = []) by reflexivity.
  assert (H4 : Forall2 (λ x a, func svd_fails h (Single x) = Ok a
                               ∧ nd_len a = Ok 2) [batch_of_two] [a])
    by (repeat constructor; vm_compute; reflexivity).
  assert (H5 : func svd_fails h (Single rank3) = Raise Py.ValueError)
    by reflexivity.
  do 5 (split; [assumption|]).
  exact (failure_keeps_earlier_records svd_fails Single 2 w 0 h
           [batch_of_two] [a] rank3 [batch_of_two] Py.ValueError
           H1 H2 H3 H4 H5).
Defined.

Lemma forward_calls_append_only_witness :
  let w : World Binary32.t := (new SaliencyMapHook 0 empty_world).1 in
  let h : Hook Binary32.t := init SaliencyMapHook 0 in
  let w' := (for_each svd_fails Single [batch_of_two; rank3] w).1 in
  heap w !! 0 = Some h
  ∧ _forward_hooks w' = _forward_hooks w
  ∧ next_id w' = next_id w
  ∧ ∃ h', heap w' !! 0 = Some h'
          ∧ _records h `prefix_of` _records h'
          ∧ cls h' = cls h ∧ _handle h' = _handle h
          ∧ _fpn_idx h' = _fpn_idx h.
Proof.
  intros w h w'.
  assert (H1 : heap w !! 0 = Some h) by reflexivity.
  split; [assumption|].
  exact (forward_calls_append_only svd_fails Single [batch_of_two; rank3]
           w 0 h H1).
Defined.

Lemma explain_run_witness :
  let fv : ndarray Binary32.t :=
    Float (mk [2; 1; 1; 1]
             [S754_finite false 8388608 (-24);
              S754_finite false 8388608 (-22)]) in
  let sm : ndarray Binary32.t := U8 (mk [2; 1; 2] [0; 255; 255; 0]%Z) in
  1 ≤ 2
  ∧ Forall2 (λ (x : Tensor Binary32.t) a, Float <$> FeatureVectorHook_func (Single x) = Ok a
                    ∧ nd_len a = Ok 2) [one_channel_pair] [fv]
  ∧ Forall2 (λ (x : Tensor Binary32.t) a, U8 <$> EigenCamHook_func svd_one_channel (Single x) = Ok a
                    ∧ nd_len a = Ok 2) [one_channel_pair] [sm]
  ∧ ∃ w' feature_vectors saliency_maps,
      _explain (F:=Binary32.t) svd_one_channel Single [one_channel_pair]
        empty_world
      = (w', Ok (feature_vectors, saliency_maps))
      ∧ _forward_hooks w' = []
      ∧ feature_vectors = concat (records_of_call 2 <$> [fv])
      ∧ saliency_maps = concat (records_of_call 2 <$> [sm])
      ∧ length feature_vectors = length [one_channel_pair (F:=Binary32.t)] * 2
      ∧ length saliency_maps = length [one_channel_pair (F:=Binary32.t)] * 2
      ∧ (record_with svd_one_channel Single FeatureVectorHook 0
           [one_channel_pair] empty_world).2 = Ok feature_vectors
      ∧ (record_with svd_one_channel Single EigenCamHook 0
           [one_channel_pair] empty_world).2 = Ok saliency_maps.
Proof.
  intros fv sm.
  assert (H1 : 1 ≤ 2) by lia.
  assert (H2 : Forall2 (λ (x : Tensor Binary32.t) a, Float <$> FeatureVectorHook_func (Single x)
                               = Ok a ∧ nd_len a = Ok 2)
                 [one_channel_pair] [fv])
    by (repeat constructor; vm_compute; reflexivity).
  assert (H3 : Forall2 (λ (x : Tensor Binary32.t) a, U8 <$> EigenCamHook_func svd_one_channel
                                        (Single x) = Ok a
                               ∧ nd_len a = Ok 2)
                 [one_channel_pair] [sm])
    by (repeat constructor; vm_compute; reflexivity).
  do 3 (split; [assumption|]).
  exact (explain_run svd_one_channel Single 2 [one_channel_pair] [fv] [sm]
           H1 H2 H3).
Defined.

Lemma explain_raises_on_lists_witness :
  let l : list (Tensor Binary32.t) := pyramid in
  let forward : () → Output Binary32.t := λ _, Sequence l in
  forward () = Sequence l
  ∧ ∃ w' e,
      _explain svd_one_channel forward [(); ()] empty_world = (w', Raise e)
      ∧ _forward_hooks w' = []
      ∧ (∀ e', FeatureVectorHook_func (Sequence l) = Raise e' → e = e')
      ∧ (∀ a, FeatureVectorHook_func (Sequence l) = Ok a →
              e = Py.AttributeError).
Proof.
  intros l forward.
  assert (H1 : forward () = Sequence l) by reflexivity.
  split; [assumption|].
  exact (explain_raises_on_lists svd_one_channel forward () [()] l H1).
Defined.

Lemma enter_twice_leaves_a_registration_witness :
  let w : World Binary32.t := (new EigenCamHook 0 empty_world).1 in
  let h : Hook Binary32.t := init EigenCamHook 0 in
  let w2 := (__enter__ 0 (__enter__ 0 w).1).1 in
  let w3 := (__exit__ 0 w2).1 in
  heap w !! 0 = Some h ∧ ids_fresh w
  ∧ _forward_hooks w2
    = _forward_hooks w ++ [(next_id w, 0); (S (next_id w), 0)]
  ∧ _forward_hooks w3 = _forward_hooks w ++ [(next_id w, 0)]
  ∧ __exit__ 0 w3 = (w3, Ok ()).
Proof.
  intros w h w2 w3.
  assert (H1 : heap w !! 0 = Some h) by reflexivity.
  assert (H2 : ids_fresh w) by constructor.
  do 2 (split; [assumption|]).
  exact (enter_twice_leaves_a_registration w 0 h H1 H2).
Defined.

Lemma exit_outside_a_scope_witness :
  let w : World Binary32.t := (new SaliencyMapHook 0 empty_world).1 in
  let h : Hook Binary32.t := init SaliencyMapHook 0 in
  let w' := (with_ 0 (λ _, for_each svd_fails Single [batch_of_two]) w).1 in
  heap w !! 0 = Some h ∧ ids_fresh w ∧ _handle h = None
  ∧ __exit__ 0 w = (w, Raise Py.AttributeError)
  ∧ __exit__ 0 w' = (w', Ok ()).
Proof.
  intros w h w'.
  assert (H1 : heap w !! 0 = Some h) by reflexivity.
  assert (H2 : ids_fresh w) by constructor.
  assert (H3 : _handle h = None) by reflexivity.
  do 3 (split; [assumption|]). split.
  - exact (proj1 (exit_outside_a_scope svd_fails Single w 0 h [batch_of_two]
                    H1 H2) H3).
  - exact (proj2 (exit_outside_a_scope svd_fails Single w 0 h [batch_of_two]
                    H1 H2)).
Defined.

Lemma two_scopes_record_like_one_witness :
  let a : ndarray Binary32.t := U8 (mk [2; 1; 3] [0; 51; 255; 0; 51; 255]%Z) in
  let w : World Binary32.t := (new SaliencyMapHook 0 empty_world).1 in
  let h : Hook Binary32.t := init SaliencyMapHook 0 in
  1 ≤ 2 ∧ heap w !! 0 = Some h ∧ _forward_hooks w = []
  ∧ Forall2 (λ x a, func svd_fails h (Single x) = Ok a ∧ nd_len a = Ok 2)
      [batch_of_two] [a]
  ∧ Forall2 (λ x a, func svd_fails h (Single x) = Ok a ∧ nd_len a = Ok 2)
      [batch_of_two; batch_of_two] [a; a]
  ∧ ∃ w2 w1 h2 h1,
      bindM (with_ 0 (λ _, for_each svd_fails Single [batch_of_two]))
            (λ _, with_ 0 (λ _, for_each svd_fails Single
                                  [batch_of_two; batch_of_two])) w
      = (w2, Ok ())
      ∧ with_ 0 (λ _, for_each svd_fails Single
                        ([batch_of_two] ++ [batch_of_two; batch_of_two])) w
        = (w1, Ok ())
      ∧ _forward_hooks w2 = [] ∧ _forward_hooks w1 = []
      ∧ heap w2 !! 0 = Some h2 ∧ heap w1 !! 0 = Some h1
      ∧ _records h2 = _records h1
      ∧ _records h1
        = _records h ++ concat (records_of_call 2 <$> [a])
          ++ concat (records_of_call 2 <$> [a; a]).
Proof.
  intros a w h.
  assert (H1 : 1 ≤ 2) by lia.
  assert (H2 : heap w !! 0 = Some h) by reflexivity.
  assert (H3 : _forward_hooks w = []) by reflexivity.
  assert (H4 : Forall2 (λ x a, func svd_fails h (Single x) = Ok a
                               ∧ nd_len a = Ok 2) [batch_of_two] [a])
    by (repeat constructor; vm_compute; reflexivity).
  assert (H5 : Forall2 (λ x a, func svd_fails h (Single x) = Ok a
                               ∧ nd_len a = Ok 2)
                 [batch_of_two; batch_of_two] [a; a])
    by (repeat constructor; vm_compute; reflexivity).
  do 5 (split; [assumption|]).
  exact (two_scopes_record_like_one svd_fails Single 2 w 0 h
           [batch_of_two] [batch_of_two; batch_of_two] [a] [a; a]
           H1 H2 H3 H4 H5).
Defined.

Lemma saliency_record_shapes_witness :
  let x : Tensor Binary32.t := three_examples in
  let y : Tensor Binary32.t := zero_one in
  (shape x = [3; 2; 1; 2] ∧ 0 < 1 * 2 ∧ 1 < 3
   ∧ ∃ new,
       _recording_forward svd_fails (mkHook SaliencyMapHook None [] 0)
         (Single x)
       = Ok (mkHook SaliencyMapHook None ([] ++ new) 0)
       ∧ length new = 3 ∧ Forall (λ r, nd_shape r = [1; 2]) new)
  ∧ (shape y = [1; 1; 1; 2] ∧ 1 ≤ 1
     ∧ ∃ new,
         _recording_forward svd_fails (mkHook SaliencyMapHook None [] 0)
           (Single y)
         = Ok (mkHook SaliencyMapHook None ([] ++ new) 0)
         ∧ length new = 1 ∧ Forall (λ r, nd_shape r = [1; 1; 2]) new).
Proof.
  intros x y.
  assert (H1 : shape x = [3; 2; 1; 2]) by reflexivity.
  assert (H2 : 0 < 1 * 2) by lia.
  assert (H3 : 1 < 3) by lia.
  assert (H4 : shape y = [1; 1; 1; 2]) by reflexivity.
  assert (H5 : 1 ≤ 1) by lia.
  split.
  - do 3 (split; [assumption|]).
    destruct (saliency_record_shapes svd_fails None [] 0 x 3 2 1 2 H1 H2)
      as (new & Hrec & Hmany & _).
    exists new. split; [exact Hrec|]. exact (Hmany H3).
  - do 2 (split; [assumption|]).
    destruct (saliency_record_shapes svd_fails None [] 0 y 1 1 1 2 H4 H2)
      as (new & Hrec & _ & Hone).
    exists new. split; [exact Hrec|]. exact (Hone H5).
Defined.

End MoreInstances.
